(** * aioweb: argument binding, response coercion and the active-record layer

    A shallow embedding of [aioweb/async_web.py], [aioweb/orm.py] and
    [aioweb/custom_errors.py].  Coroutines are run sequentially ([await] is
    plain sequencing); logging, handler invocation and database-driver calls
    are recorded in a trace; Python exceptions are an explicit result. *)

From Stdlib Require Import Strings.String Strings.Ascii Strings.Byte List ZArith Bool Lia.
From Stdlib Require Import Decimal DecimalString DecimalZ DecimalPos DecimalFacts.
Import ListNotations.
Local Open Scope string_scope.
Local Open Scope Z_scope.
Set Warnings "-register-all".

(* ================================================================== *)
(** * Python values *)
(* ================================================================== *)

(** The universe of Python data values the model covers.  A [str] is held as
    its UTF-8 text (the operations the program applies to strings only look
    at ASCII characters, which UTF-8 keeps as single bytes), a lone surrogate
    in it as the three bytes its code point would take; [bytes] as a list
    of bytes, a [dict] as its items in insertion order with [str] keys.
    [PObject] is an instance of any other class, with its [__dict__] when it
    has one.  A [float] is held by its [repr], the shortest decimal text that
    reads back as the float ([1.5], [1e+22], [-0.0], [inf], [-inf], [nan]):
    the program does no arithmetic on floats, and two floats with the same
    [repr] are the same float. *)
Inductive pyval : Type :=
| PNone
| PBool (b : bool)
| PInt (z : Z)
| PFloat (repr : string)
| PStr (s : string)
| PBytes (b : list byte)
| PList (l : list pyval)
| PTuple (l : list pyval)
| PDict (d : list (string * pyval))
| PObject (attrs : option (list (string * pyval))).

(** ** Insertion-ordered dictionaries with [str] keys *)

Definition dict (V : Type) : Type := list (string * V).

Fixpoint dict_get {V : Type} (k : string) (d : dict V) : option V :=
  match d with
  | [] => None
  | (k', v) :: d' => if String.eqb k' k then Some v else dict_get k d'
  end.

(** [k in d] *)
Definition dict_contains {V : Type} (k : string) (d : dict V) : bool :=
  match dict_get k d with Some _ => true | None => false end.

(** [d[k] = v]: an existing key keeps its position, a new key goes last. *)
Fixpoint dict_set {V : Type} (k : string) (v : V) (d : dict V) : dict V :=
  match d with
  | [] => [(k, v)]
  | (k', v') :: d' =>
      if String.eqb k' k then (k', v) :: d' else (k', v') :: dict_set k v d'
  end.

Definition dict_keys {V : Type} (d : dict V) : list string := map fst d.

Definition dict_map {V W : Type} (f : V -> W) (d : dict V) : dict W :=
  map (fun kv => (fst kv, f (snd kv))) d.

(** ** Strings *)

Definition dquote : ascii := "034"%char.
Definition backslash : ascii := "092"%char.

(** [s.startswith(p)] *)
Definition startswith (s p : string) : bool := String.prefix p s.

(** [s[n:]] *)
Fixpoint drop_chars (n : nat) (s : string) : string :=
  match n, s with
  | O, _ => s
  | S n', String _ s' => drop_chars n' s'
  | S _, EmptyString => EmptyString
  end.

Definition lower_char (c : ascii) : ascii :=
  let n := nat_of_ascii c in
  if (Nat.leb 65 n && Nat.leb n 90)%bool then ascii_of_nat (n + 32) else c.

(** [s.lower()], on ASCII letters. *)
Fixpoint lower (s : string) : string :=
  match s with
  | EmptyString => EmptyString
  | String c s' => String (lower_char c) (lower s')
  end.

(** [sep.join(l)] *)
Fixpoint join (sep : string) (l : list string) : string :=
  match l with
  | [] => EmptyString
  | [x] => x
  | x :: l' => x ++ sep ++ join sep l'
  end.

(** The bytes of a text and the text of bytes, on the UTF-8 representation:
    what [s.encode('utf-8')] and [b.decode('utf-8')] give when they give
    something ([str_encode] and [bytes_decode] below say when). *)
Definition encode_utf8 (s : string) : list byte := list_byte_of_string s.
Definition decode_utf8 (b : list byte) : string := string_of_list_byte b.

(** The decimal text of an integer, with a leading minus sign: what [str(z)]
    gives when it gives something ([int_str] below says when). *)
Definition str_of_int (z : Z) : string := NilZero.string_of_int (Z.to_int z).

(** Is the byte [c] in the range from [lo] to [hi]? *)
Definition byte_in (lo hi : N) (c : ascii) : bool :=
  ((lo <=? N_of_ascii c) && (N_of_ascii c <=? hi))%N%bool.

(** A continuation byte of UTF-8. *)
Definition continuation (c : ascii) : bool := byte_in 128 191 c.

(** The first two bytes of a three-byte sequence; the second byte after
    0xED stops at 0x9F, which leaves out the surrogates U+D800..U+DFFF. *)
Definition three_bytes (c1 c2 : ascii) : bool :=
  (byte_in 224 224 c1 && byte_in 160 191 c2
   || byte_in 225 236 c1 && continuation c2
   || byte_in 237 237 c1 && byte_in 128 159 c2
   || byte_in 238 239 c1 && continuation c2)%bool.

(** The first two bytes of a four-byte sequence. *)
Definition four_bytes (c1 c2 : ascii) : bool :=
  (byte_in 240 240 c1 && byte_in 144 191 c2
   || byte_in 241 243 c1 && continuation c2
   || byte_in 244 244 c1 && byte_in 128 143 c2)%bool.

(** Well-formed UTF-8 (the table of the Unicode standard).  A [str] that
    holds a lone surrogate has no such text: its text here is the three
    bytes 0xED 0xA0..0xBF 0x80..0xBF for the surrogate, which this test
    refuses. *)
Fixpoint well_formed_utf8 (s : string) : bool :=
  match s with
  | EmptyString => true
  | String c1 s1 =>
      if byte_in 0 127 c1 then well_formed_utf8 s1
      else
        match s1 with
        | EmptyString => false
        | String c2 s2 =>
            if byte_in 194 223 c1 then (continuation c2 && well_formed_utf8 s2)%bool
            else
              match s2 with
              | EmptyString => false
              | String c3 s3 =>
                  if three_bytes c1 c2
                  then (continuation c3 && well_formed_utf8 s3)%bool
                  else
                    match s3 with
                    | EmptyString => false
                    | String c4 s4 =>
                        (four_bytes c1 c2 && continuation c3 && continuation c4
                         && well_formed_utf8 s4)%bool
                    end
              end
        end
  end.

(** The number of decimal digits of an integer. *)
Definition digits_of_int (i : Decimal.int) : nat :=
  match i with
  | Pos d | Neg d => nb_digits d
  end.

(** [sys.int_info.default_max_str_digits]: the longest integer that [str]
    and [int] convert, on the interpreters that have the limit (it came with
    3.7.14, 3.8.14 and 3.9.14). *)
Definition int_max_str_digits : nat := 4300.

(** The integer is within the limit. *)
Definition int_fits (i : Decimal.int) : bool :=
  Nat.leb (digits_of_int i) int_max_str_digits.

(* ================================================================== *)
(** * Exceptions and effects *)
(* ================================================================== *)

(** The exception classes the program raises or catches.  [APIError] carries
    the three attributes its constructor stores ([custom_errors.py]); its
    subclasses only fix some of them.  [OtherError] is an exception of any
    class foreign to the repository (a handler failure, a driver error).
    Messages that interpolate the [str] of an object are kept up to that
    object. *)
Inductive exn : Type :=
| ValueError (msg : string)
| TypeError (msg : string)
| AttributeError (msg : string)
| IndexError (msg : string)
| JSONDecodeError (msg : string)
| APIError (error data msg : pyval)
| PoolNotFoundError (msg : string)
| SqlExecutionError (msg : string)
| DuplicatePrimaryKeyError (msg : string)
| PrimaryKeyNotFoundError (msg : string)
| OtherError (cls : string).

Definition APIValueError (field msg : pyval) : exn :=
  APIError (PStr "value: invalid") field msg.
Definition APIResourceNotFoundError (field msg : pyval) : exn :=
  APIError (PStr "value: not found") field msg.
Definition APIPermissionError (msg : pyval) : exn :=
  APIError (PStr "permission: forbidden") (PStr "permission") msg.

Inductive result (A : Type) : Type :=
| Ok (a : A)
| Raise (e : exn).
Arguments Ok {A} a.
Arguments Raise {A} e.

(** A computation: the trace of events it emitted, and how it ended. *)
Definition M (E A : Type) : Type := (list E * result A)%type.

Definition ret {E A : Type} (a : A) : M E A := ([], Ok a).
Definition raise {E A : Type} (e : exn) : M E A := ([], Raise e).
Definition emit {E : Type} (ev : E) : M E unit := ([ev], Ok tt).
Definition lift {E A : Type} (r : result A) : M E A := ([], r).

Definition bind {E A B : Type} (m : M E A) (f : A -> M E B) : M E B :=
  match m with
  | (t, Ok a) => let (t', r) := f a in ((t ++ t')%list, r)
  | (t, Raise e) => (t, Raise e)
  end.

Notation "x <- m ;; k" := (bind m (fun x => k))
  (at level 61, m at next level, right associativity).
Notation "m ;;; k" := (bind m (fun _ => k))
  (at level 61, right associativity).

Definition trace {E A : Type} (m : M E A) : list E := fst m.
Definition outcome {E A : Type} (m : M E A) : result A := snd m.

(** ** Conversions that raise *)

(** [s.encode('utf-8')]: [UnicodeEncodeError] ("surrogates not allowed")
    when the [str] holds a lone surrogate. *)
Definition str_encode (s : string) : result (list byte) :=
  if well_formed_utf8 s then Ok (encode_utf8 s)
  else Raise (OtherError "UnicodeEncodeError").

(** [b.decode('utf-8')] *)
Definition bytes_decode (b : list byte) : result string :=
  if well_formed_utf8 (decode_utf8 b) then Ok (decode_utf8 b)
  else Raise (OtherError "UnicodeDecodeError").

(** The message of the [ValueError] for an integer beyond the limit, by how
    it starts on Python 3.11, which goes on to say how the limit is raised;
    the wording differs between releases. *)
Definition int_limit_msg : string :=
  "Exceeds the limit (4300 digits) for integer string conversion".

(** [str(z)] and [int.__repr__(z)] for an [int]: [ValueError] beyond the
    limit. *)
Definition int_str (z : Z) : result string :=
  if int_fits (Z.to_int z) then Ok (str_of_int z)
  else Raise (ValueError int_limit_msg).

(* ================================================================== *)
(** * json.dumps *)
(* ================================================================== *)

Definition hex_digit (n : nat) : ascii :=
  match n with
  | 0 => "0" | 1 => "1" | 2 => "2" | 3 => "3" | 4 => "4" | 5 => "5"
  | 6 => "6" | 7 => "7" | 8 => "8" | 9 => "9" | 10 => "a" | 11 => "b"
  | 12 => "c" | 13 => "d" | 14 => "e" | _ => "f"
  end%nat%char.

(** The replacement of one character by [json.encoder.py_encode_basestring]
    (the encoder of [ensure_ascii=False]): the quote, the backslash and the
    control characters below 0x20 are escaped, everything else is kept. *)
Definition escape_char (c : ascii) : string :=
  let n := nat_of_ascii c in
  if Ascii.eqb c dquote then String backslash (String dquote EmptyString)
  else if Ascii.eqb c backslash then String backslash (String backslash EmptyString)
  else if Nat.eqb n 8 then String backslash "b"
  else if Nat.eqb n 12 then String backslash "f"
  else if Nat.eqb n 10 then String backslash "n"
  else if Nat.eqb n 13 then String backslash "r"
  else if Nat.eqb n 9 then String backslash "t"
  else if Nat.ltb n 32 then
    String backslash
      (String "u" (String "0" (String "0"
        (String (hex_digit (n / 16)) (String (hex_digit (n mod 16)) EmptyString)))))
  else String c EmptyString.

Fixpoint escape_chars (s : string) : string :=
  match s with
  | EmptyString => EmptyString
  | String c s' => escape_char c ++ escape_chars s'
  end.

Definition encode_basestring (s : string) : string :=
  String dquote (escape_chars s ++ String dquote EmptyString).

Definition no_dict_msg : string := "object has no attribute __dict__".

(** [floatstr] of [json.encoder] with [allow_nan=True]: [float.__repr__],
    and the three names of the values that are no numbers. *)
Definition float_json (repr : string) : string :=
  if String.eqb repr "nan" then "NaN"
  else if String.eqb repr "inf" then "Infinity"
  else if String.eqb repr "-inf" then "-Infinity"
  else repr.

(** [RecursionError] ("maximum recursion depth exceeded while encoding a
    JSON object") *)
Definition recursion_error : exn := OtherError "RecursionError".

(** [json.dumps(v, ensure_ascii=False, default=lambda o: o.__dict__)]: lists
    and tuples become arrays, dicts become objects, and an object the encoder
    does not know is replaced by its [__dict__] and encoded again; the
    attribute access raises when the object has none (as for [bytes]).

    [room] is the number of nested calls the recursion limit of the
    interpreter still allows where the encoder is called
    ([sys.getrecursionlimit()] less the depth of the stack there).  The
    encoder enters one call for a list, a tuple or a dict; for an object it
    does not know, the call of [default] takes one frame while it runs, and
    encoding what it returned enters one call more before the dict is
    entered. *)
Fixpoint json_dumps (room : nat) (v : pyval) {struct v} : result string :=
  let items :=
    fix items (room' : nat) (l : list pyval) : result (list string) :=
      match l with
      | [] => Ok []
      | x :: l' =>
          match json_dumps room' x with
          | Ok s => match items room' l' with
                    | Ok ss => Ok (s :: ss)
                    | Raise e => Raise e
                    end
          | Raise e => Raise e
          end
      end in
  let members :=
    fix members (room' : nat) (d : list (string * pyval)) : result (list string) :=
      match d with
      | [] => Ok []
      | (k, x) :: d' =>
          match json_dumps room' x with
          | Ok s => match members room' d' with
                    | Ok ss => Ok ((encode_basestring k ++ ": " ++ s) :: ss)
                    | Raise e => Raise e
                    end
          | Raise e => Raise e
          end
      end in
  let array (l : list pyval) : result string :=
    match room with
    | O => Raise recursion_error
    | S room' =>
        match items room' l with
        | Ok ss => Ok ("[" ++ join ", " ss ++ "]")
        | Raise e => Raise e
        end
    end in
  let object (room' : nat) (d : list (string * pyval)) : result string :=
    match members room' d with
    | Ok ss => Ok ("{" ++ join ", " ss ++ "}")
    | Raise e => Raise e
    end in
  match v with
  | PNone => Ok "null"
  | PBool true => Ok "true"
  | PBool false => Ok "false"
  | PInt z => int_str z
  | PFloat r => Ok (float_json r)
  | PStr s => Ok (encode_basestring s)
  | PList l => array l
  | PTuple l => array l
  | PDict d =>
      match room with
      | O => Raise recursion_error
      | S room' => object room' d
      end
  | PBytes _ | PObject None =>
      match room with
      | O => Raise recursion_error
      | S _ => Raise (AttributeError no_dict_msg)
      end
  | PObject (Some d) =>
      match room with
      | S (S room') => object room' d
      | _ => Raise recursion_error
      end
  end.

(* ================================================================== *)
(** * json.loads *)
(* ================================================================== *)

(** The decoder of Python's [json] module ([json.decoder], [json.scanner]).
    [None] stands for a document the decoder rejects ([JSONDecodeError], or
    the [ValueError] of [int] for an integer beyond the digit limit) and
    also for one whose value the model does not build: a string escape that
    denotes a lone surrogate.  The program never calls the decoder itself
    ([request.json()] is the server library's); it is here as the reader of
    a response body, and reads with all the room it needs to recurse. *)

Definition is_ws (c : ascii) : bool :=
  let n := nat_of_ascii c in
  (Nat.eqb n 32 || Nat.eqb n 9 || Nat.eqb n 10 || Nat.eqb n 13)%bool.

Fixpoint skip_ws (s : string) : string :=
  match s with
  | String c s' => if is_ws c then skip_ws s' else s
  | EmptyString => EmptyString
  end.

Definition hex_value (c : ascii) : option N :=
  let n := nat_of_ascii c in
  if (Nat.leb 48 n && Nat.leb n 57)%bool then Some (N.of_nat (n - 48))
  else if (Nat.leb 97 n && Nat.leb n 102)%bool then Some (N.of_nat (n - 87))
  else if (Nat.leb 65 n && Nat.leb n 70)%bool then Some (N.of_nat (n - 55))
  else None.

(** The four hexadecimal digits of a [\uXXXX] escape. *)
Definition decode_uXXXX (h1 h2 h3 h4 : ascii) : option N :=
  match hex_value h1, hex_value h2, hex_value h3, hex_value h4 with
  | Some a, Some b, Some c, Some d => Some (((a * 16 + b) * 16 + c) * 16 + d)%N
  | _, _, _, _ => None
  end.

Definition byte_char (n : N) : ascii := ascii_of_N n.

(** [chr(n)] as UTF-8 text; a surrogate code point has none. *)
Definition chr (n : N) : option string :=
  (if n <? 128 then Some (String (byte_char n) EmptyString)
   else if n <? 2048 then
     Some (String (byte_char (192 + n / 64))
          (String (byte_char (128 + n mod 64)) EmptyString))
   else if (55296 <=? n) && (n <=? 57343) then None
   else if n <? 65536 then
     Some (String (byte_char (224 + n / 4096))
          (String (byte_char (128 + (n / 64) mod 64))
          (String (byte_char (128 + n mod 64)) EmptyString)))
   else
     Some (String (byte_char (240 + n / 262144))
          (String (byte_char (128 + (n / 4096) mod 64))
          (String (byte_char (128 + (n / 64) mod 64))
          (String (byte_char (128 + n mod 64)) EmptyString)))))%N%bool.

(** The character a one-letter escape stands for ([BACKSLASH]). *)
Definition unescape (e : ascii) : option ascii :=
  if Ascii.eqb e dquote then Some dquote
  else if Ascii.eqb e backslash then Some backslash
  else if Ascii.eqb e "/" then Some "/"%char
  else if Ascii.eqb e "b" then Some (ascii_of_nat 8)
  else if Ascii.eqb e "f" then Some (ascii_of_nat 12)
  else if Ascii.eqb e "n" then Some (ascii_of_nat 10)
  else if Ascii.eqb e "r" then Some (ascii_of_nat 13)
  else if Ascii.eqb e "t" then Some (ascii_of_nat 9)
  else None.

Definition prepend (p : string) (r : option (string * string))
  : option (string * string) :=
  match r with
  | Some (s, rest) => Some (p ++ s, rest)
  | None => None
  end.

Definition prepend_chr (n : N) (r : option (string * string))
  : option (string * string) :=
  match chr n with
  | Some p => prepend p r
  | None => None
  end.

(** [scanstring] in strict mode, from just after the opening quote: the
    decoded string and the text after the closing quote. *)
Fixpoint scanstring (s : string) : option (string * string) :=
  match s with
  | EmptyString => None
  | String c s1 =>
      if Ascii.eqb c dquote then Some (EmptyString, s1)
      else if Ascii.eqb c backslash then
        match s1 with
        | EmptyString => None
        | String e s2 =>
            if Ascii.eqb e "u" then
              match s2 with
              | String h1 (String h2 (String h3 (String h4 s3))) =>
                  match decode_uXXXX h1 h2 h3 h4 with
                  | None => None
                  | Some uni =>
                      if ((55296 <=? uni) && (uni <=? 56319))%N%bool then
                        match s3 with
                        | String b (String u (String g1 (String g2
                            (String g3 (String g4 s4))))) =>
                            if (Ascii.eqb b backslash && Ascii.eqb u "u")%bool then
                              match decode_uXXXX g1 g2 g3 g4 with
                              | None => None
                              | Some uni2 =>
                                  if ((56320 <=? uni2) && (uni2 <=? 57343))%N%bool
                                  then prepend_chr
                                         (65536 + ((uni - 55296) * 1024
                                                   + (uni2 - 56320)))%N
                                         (scanstring s4)
                                  else None
                              end
                            else None
                        | _ => None
                        end
                      else prepend_chr uni (scanstring s3)
                  end
              | _ => None
              end
            else
              match unescape e with
              | Some ch => prepend (String ch EmptyString) (scanstring s2)
              | None => None
              end
        end
      else if Nat.ltb (nat_of_ascii c) 32 then None
      else prepend (String c EmptyString) (scanstring s1)
  end.

Definition digit_of (c : ascii) : option (uint -> uint) :=
  match nat_of_ascii c with
  | 48%nat => Some D0 | 49%nat => Some D1 | 50%nat => Some D2
  | 51%nat => Some D3 | 52%nat => Some D4 | 53%nat => Some D5
  | 54%nat => Some D6 | 55%nat => Some D7 | 56%nat => Some D8
  | 57%nat => Some D9 | _ => None
  end.

Definition is_digit (c : ascii) : bool :=
  match digit_of c with Some _ => true | None => false end.

(** The longest run of decimal digits at the head of [s]. *)
Fixpoint take_digits (s : string) : uint * string :=
  match s with
  | EmptyString => (Nil, EmptyString)
  | String c s' =>
      match digit_of c with
      | Some dc => let (d, r) := take_digits s' in (dc d, r)
      | None => (Nil, s)
      end
  end.

(** The longest run of decimal digits at the head of [s], as text. *)
Fixpoint span_digits (s : string) : string * string :=
  match s with
  | EmptyString => (EmptyString, EmptyString)
  | String c s' =>
      if is_digit c then let (ds, r) := span_digits s' in (String c ds, r)
      else (EmptyString, s)
  end.

(** The fraction group of [NUMBER_RE], a point and digits, at [s]: its
    text, empty when the group does not match, and what follows. *)
Definition match_frac (s : string) : string * string :=
  match s with
  | String c (String d r) =>
      if (Ascii.eqb c "." && is_digit d)%bool
      then let (ds, rest) := span_digits (String d r) in (String c ds, rest)
      else (EmptyString, s)
  | _ => (EmptyString, s)
  end.

(** The exponent group of [NUMBER_RE], [e] or [E], a sign or none, and
    digits, at [s]. *)
Definition match_exp (s : string) : string * string :=
  match s with
  | String c (String d r) =>
      if (Ascii.eqb c "e" || Ascii.eqb c "E")%bool then
        if (Ascii.eqb d "+" || Ascii.eqb d "-")%bool then
          match r with
          | String d' _ =>
              if is_digit d'
              then let (ds, rest) := span_digits r in (String c (String d ds), rest)
              else (EmptyString, s)
          | EmptyString => (EmptyString, s)
          end
        else if is_digit d
        then let (ds, rest) := span_digits (String d r) in (String c ds, rest)
        else (EmptyString, s)
      else (EmptyString, s)
  | _ => (EmptyString, s)
  end.

(** Do the fraction or the exponent group of [NUMBER_RE] match at [s]? *)
Definition frac_or_exp (s : string) : bool :=
  match s with
  | String c (String d r) =>
      if Ascii.eqb c "." then is_digit d
      else if (Ascii.eqb c "e" || Ascii.eqb c "E")%bool then
        if (Ascii.eqb d "+" || Ascii.eqb d "-")%bool then
          match r with String d' _ => is_digit d' | EmptyString => false end
        else is_digit d
      else false
  | _ => false
  end.

(** The integer group of [NUMBER_RE], [0|[1-9][0-9]*], at [s]. *)
Definition match_integer (s : string) : option (uint * string) :=
  match s with
  | String c s' =>
      if Ascii.eqb c "0" then Some (D0 Nil, s')
      else if is_digit c then Some (take_digits s)
      else None
  | EmptyString => None
  end.

(** The first group of [NUMBER_RE]: the integer with its sign. *)
Definition match_signed (s : string) : option (Decimal.int * string) :=
  match s with
  | String c s' =>
      if Ascii.eqb c "-" then
        match match_integer s' with
        | Some (d, r) => Some (Neg d, r)
        | None => None
        end
      else
        match match_integer s with
        | Some (d, r) => Some (Pos d, r)
        | None => None
        end
  | EmptyString => None
  end.

Section Decoder.

(** [repr(float(s))] for the text [s] of a number: the float that Python
    reads from the text, by its [repr].  Reading and writing floats is the
    interpreter's work and is taken as given. *)
Variable py_float : string -> string.

(** [match_number]: an [int] when the integer group alone matches, which
    [int] refuses beyond the digit limit; a [float] of the matched text
    otherwise. *)
Definition match_number (s : string) : option (pyval * string) :=
  match match_signed s with
  | Some (i, r) =>
      if frac_or_exp r then
        let (frac, r1) := match_frac r in
        let (exp, r2) := match_exp r1 in
        Some (PFloat (py_float (NilZero.string_of_int i ++ frac ++ exp)), r2)
      else if int_fits i then Some (PInt (Z.of_int i), r)
      else None
  | None => None
  end.

(** The three names [parse_constant] knows, tried when no number matches. *)
Definition match_constant (s : string) : option (pyval * string) :=
  if startswith s "NaN" then Some (PFloat "nan", drop_chars 3 s)
  else if startswith s "Infinity" then Some (PFloat "inf", drop_chars 8 s)
  else if startswith s "-Infinity" then Some (PFloat "-inf", drop_chars 9 s)
  else None.

(** [dict(pairs)]: a repeated key keeps its first position and its last
    value. *)
Definition dict_of_pairs {V : Type} (pairs : list (string * V)) : dict V :=
  fold_left (fun d kv => dict_set (fst kv) (snd kv) d) pairs [].

(** [scan_once], with [JSONArray] and [JSONObject] as its loops.  The fuel
    bounds the number of nested calls; [json_loads] gives more than the
    length of the document, and every call consumes a character.
    [scan_items] starts at a value of an array, [scan_members] just after the
    opening quote of a property name; both carry the values read so far in
    reverse. *)
Fixpoint scan_once (fuel : nat) (s : string) : option (pyval * string) :=
  match fuel with
  | O => None
  | S fuel' =>
      match s with
      | EmptyString => None
      | String c s' =>
          if Ascii.eqb c dquote then
            match scanstring s' with
            | Some (str, r) => Some (PStr str, r)
            | None => None
            end
          else if Ascii.eqb c "{" then
            match skip_ws s' with
            | String c1 s1 =>
                if Ascii.eqb c1 "}" then Some (PDict [], s1)
                else if Ascii.eqb c1 dquote then
                  match scan_members fuel' s1 [] with
                  | Some (pairs, r) => Some (PDict (dict_of_pairs pairs), r)
                  | None => None
                  end
                else None
            | EmptyString => None
            end
          else if Ascii.eqb c "[" then
            match skip_ws s' with
            | String c1 s1 =>
                if Ascii.eqb c1 "]" then Some (PList [], s1)
                else
                  match scan_items fuel' (String c1 s1) [] with
                  | Some (values, r) => Some (PList values, r)
                  | None => None
                  end
            | EmptyString => None
            end
          else if startswith s "null" then Some (PNone, drop_chars 4 s)
          else if startswith s "true" then Some (PBool true, drop_chars 4 s)
          else if startswith s "false" then Some (PBool false, drop_chars 5 s)
          else
            match match_number s with
            | Some r => Some r
            | None => match_constant s
            end
      end
  end

with scan_items (fuel : nat) (s : string) (acc : list pyval)
  : option (list pyval * string) :=
  match fuel with
  | O => None
  | S fuel' =>
      match scan_once fuel' s with
      | None => None
      | Some (v, r) =>
          match skip_ws r with
          | String c r' =>
              if Ascii.eqb c "]" then Some (List.rev (v :: acc), r')
              else if Ascii.eqb c "," then scan_items fuel' (skip_ws r') (v :: acc)
              else None
          | EmptyString => None
          end
      end
  end

with scan_members (fuel : nat) (s : string) (acc : list (string * pyval))
  : option (list (string * pyval) * string) :=
  match fuel with
  | O => None
  | S fuel' =>
      match scanstring s with
      | None => None
      | Some (key, r) =>
          match skip_ws r with
          | String c r1 =>
              if Ascii.eqb c ":" then
                match scan_once fuel' (skip_ws r1) with
                | None => None
                | Some (v, r2) =>
                    match skip_ws r2 with
                    | String c2 r3 =>
                        if Ascii.eqb c2 "}" then Some (List.rev ((key, v) :: acc), r3)
                        else if Ascii.eqb c2 "," then
                          match skip_ws r3 with
                          | String c3 r4 =>
                              if Ascii.eqb c3 dquote
                              then scan_members fuel' r4 ((key, v) :: acc)
                              else None
                          | EmptyString => None
                          end
                        else None
                    | EmptyString => None
                    end
                end
              else None
          | EmptyString => None
          end
      end
  end.

(** [json.loads(s)]: one value, with white space around it and nothing
    else. *)
Definition json_loads (s : string) : option pyval :=
  match scan_once (S (String.length s)) (skip_ws s) with
  | Some (v, r) =>
      match skip_ws r with
      | EmptyString => Some v
      | String _ _ => None
      end
  | None => None
  end.

End Decoder.

(* ================================================================== *)
(** * The objects of the web server library *)
(* ================================================================== *)

(** A response of the server library, by the attributes the program sets:
    the status, the body, the content type it assigns, the charset that the
    [text] argument implies, and the [Location] header of a redirect. *)
Module Response.
Record t : Type := mk {
  status : Z;
  body : option (list byte);
  content_type : string;
  charset : option string;
  location : option string
}.
End Response.

(** [web.Response(body=b)] *)
Definition Response_body (b : list byte) : Response.t :=
  Response.mk 200 (Some b) "application/octet-stream" None None.

(** [web.Response(status=st)] *)
Definition Response_status (st : Z) : Response.t :=
  Response.mk st None "application/octet-stream" None None.

(** [web.Response(status=st, text=s)] *)
Definition Response_text (st : Z) (s : string) : Response.t :=
  Response.mk st (Some (encode_utf8 s)) "text/plain" (Some "utf-8") None.

(** [res.content_type = ct] *)
Definition set_content_type (ct : string) (res : Response.t) : Response.t :=
  Response.mk (Response.status res) (Response.body res) ct
              (Response.charset res) (Response.location res).

(** [web.HTTPBadRequest(text=s)] *)
Definition HTTPBadRequest (s : string) : Response.t := Response_text 400 s.

(** [request.content_type] of a request without a Content-Type header: the
    server library reports the default of RFC 2616, never [None]. *)
Definition default_content_type : string := "application/octet-stream".

(** [web.HTTPFound(loc)]; the library refuses an empty location. *)
Definition HTTPFound (loc : string) : result Response.t :=
  if String.eqb loc EmptyString
  then Raise (ValueError "HTTP redirects need a location to redirect to.")
  else Ok (Response.mk 302 (Some (encode_utf8 "302: Found")) "text/plain"
                       (Some "utf-8") (Some loc)).

(** A request, by what the program reads from it: [content_type] is what
    [request.content_type] reports, the media type of the Content-Type
    header ([Some default_content_type] when the request has no such header;
    [None] is for a request object that reports Python's [None], which the
    server library does not); [json] is the outcome of [await request.json()], [post] the
    outcome of [dict( **(await request.post()))], [parse_qs] the items of
    [parse.parse_qs(request.query_string, True)], [match_info] the matched
    path parameters. *)
Module Request.
Record t : Type := mk {
  method : string;
  content_type : option string;
  json : result pyval;
  post : result (dict pyval);
  query_string : string;
  parse_qs : list (string * list string);
  match_info : dict string
}.
End Request.

(** What a handler is called with under one keyword: a data value, or the
    request object itself. *)
Inductive arg : Type :=
| AVal (v : pyval)
| ARequest.

(** What a handler returns: a data value or a response object
    ([web.StreamResponse]). *)
Inductive pyobj : Type :=
| Value (v : pyval)
| StreamResponse (r : Response.t).

(** ** Handlers and their signatures ([inspect.signature]) *)

Inductive param_kind : Type :=
| POSITIONAL_ONLY
| POSITIONAL_OR_KEYWORD
| VAR_POSITIONAL
| KEYWORD_ONLY
| VAR_KEYWORD.

Definition kind_eqb (a b : param_kind) : bool :=
  match a, b with
  | POSITIONAL_ONLY, POSITIONAL_ONLY
  | POSITIONAL_OR_KEYWORD, POSITIONAL_OR_KEYWORD
  | VAR_POSITIONAL, VAR_POSITIONAL
  | KEYWORD_ONLY, KEYWORD_ONLY
  | VAR_KEYWORD, VAR_KEYWORD => true
  | _, _ => false
  end.

(** A parameter; [default = None] is [inspect.Parameter.empty]. *)
Module Param.
Record t : Type := mk {
  name : string;
  kind : param_kind;
  default : option pyval
}.
End Param.

(** A handler function: its name, its parameters in order, and what calling
    it with keyword arguments does (argument binding included). *)
Record func : Type := mk_func {
  __name__ : string;
  parameters : list Param.t;
  call : dict arg -> result pyobj
}.

Definition is_empty {A : Type} (o : option A) : bool :=
  match o with None => true | Some _ => false end.

Fixpoint get_required_kwargs_loop (params : list Param.t) : list string :=
  match params with
  | [] => []
  | p :: params' =>
      if (kind_eqb (Param.kind p) KEYWORD_ONLY && is_empty (Param.default p))%bool
      then Param.name p :: get_required_kwargs_loop params'
      else get_required_kwargs_loop params'
  end.

Definition get_required_kwargs (f : func) : list string :=
  get_required_kwargs_loop (parameters f).

Fixpoint get_named_kwargs_loop (params : list Param.t) : list string :=
  match params with
  | [] => []
  | p :: params' =>
      if kind_eqb (Param.kind p) KEYWORD_ONLY
      then Param.name p :: get_named_kwargs_loop params'
      else get_named_kwargs_loop params'
  end.

Definition get_named_kwargs (f : func) : list string :=
  get_named_kwargs_loop (parameters f).

Fixpoint has_named_kwargs_loop (params : list Param.t) : bool :=
  match params with
  | [] => false
  | p :: params' =>
      if kind_eqb (Param.kind p) KEYWORD_ONLY then true
      else has_named_kwargs_loop params'
  end.

Definition has_named_kwargs (f : func) : bool :=
  has_named_kwargs_loop (parameters f).

Fixpoint has_var_kwarg_loop (params : list Param.t) : bool :=
  match params with
  | [] => false
  | p :: params' =>
      if kind_eqb (Param.kind p) VAR_KEYWORD then true
      else has_var_kwarg_loop params'
  end.

Definition has_var_kwarg (f : func) : bool :=
  has_var_kwarg_loop (parameters f).

Definition request_position_msg (fname : string) : string :=
  "request parameter must be the last named parameter in function: " ++ fname.

Fixpoint has_request_arg_loop (fname : string) (params : list Param.t)
         (found : bool) : result bool :=
  match params with
  | [] => Ok found
  | p :: params' =>
      if String.eqb (Param.name p) "request"
      then has_request_arg_loop fname params' true
      else if (found && negb (kind_eqb (Param.kind p) VAR_POSITIONAL)
                     && negb (kind_eqb (Param.kind p) KEYWORD_ONLY)
                     && negb (kind_eqb (Param.kind p) VAR_KEYWORD))%bool
      then Raise (ValueError (request_position_msg fname))
      else has_request_arg_loop fname params' found
  end.

Definition has_request_arg (f : func) : result bool :=
  has_request_arg_loop (__name__ f) (parameters f) false.

(** ** RequestHandler *)

(** The application, by the one entry the program reads:
    [app['__templating__'].get_template(template).render( **r)]. *)
Record Application : Type := mk_app {
  __templating__ : pyval -> dict pyval -> result string
}.

Record RequestHandler : Type := mk_handler {
  _app : Application;
  _func : func;
  _has_request_arg : bool;
  _has_var_kwarg : bool;
  _has_named_kwargs : bool;
  _named_kwargs : list string;
  _required_kwargs : list string
}.

(** [RequestHandler.__init__] *)
Definition RequestHandler_init (app : Application) (f : func)
  : result RequestHandler :=
  match has_request_arg f with
  | Raise e => Raise e
  | Ok b =>
      Ok (mk_handler app f b (has_var_kwarg f) (has_named_kwargs f)
                     (get_named_kwargs f) (get_required_kwargs f))
  end.

(** What a request leaves in the trace: the log records, and the call of the
    handler function. *)
Inductive event : Type :=
| LogInfo (text : string)
| LogWarning (text : string)
| LogCallArgs (kw : dict arg)
| Invoke (kw : dict arg).

(** The state of the body of [__call__] at a point where it may have
    returned already. *)
Inductive flow (A : Type) : Type :=
| Continue (a : A)
| Return (r : pyobj).
Arguments Continue {A} a.
Arguments Return {A} r.

Definition nonempty {A : Type} (l : list A) : bool :=
  match l with [] => false | _ :: _ => true end.

(** [not request.content_type] *)
Definition missing_content_type (ct : option string) : bool :=
  match ct with
  | None => true
  | Some s => String.eqb s EmptyString
  end.

Definition bad_request (text : string) : pyobj :=
  StreamResponse (HTTPBadRequest text).

(** The loop over [parse.parse_qs(qs, True).items()]. *)
Fixpoint query_loop (items : list (string * list string)) (kw : dict arg)
  : result (dict arg) :=
  match items with
  | [] => Ok kw
  | (k, v) :: items' =>
      match v with
      | [] => Raise (IndexError "list index out of range")
      | v0 :: _ => query_loop items' (dict_set k (AVal (PStr v0)) kw)
      end
  end.

(** Lines 118-130 of [__call__]: the mapping read from the body of a POST
    request.  The text of line 130 holds the content type as the request
    reports it, and the library encodes it when the response is made; the
    other texts of [HTTPBadRequest] are constants or hold the name of a
    parameter. *)
Definition read_post (request : Request.t) : M event (flow (option (dict arg))) :=
  match Request.content_type request with
  | None => ret (Return (bad_request "Missing Content-Type."))
  | Some content_type =>
      if String.eqb content_type EmptyString
      then ret (Return (bad_request "Missing Content-Type."))
      else
        let ct := lower content_type in
        if startswith ct "application/json" then
          params <- lift (Request.json request) ;;
          match params with
          | PDict d => ret (Continue (Some (dict_map AVal d)))
          | _ => ret (Return (bad_request "JSON body must be object."))
          end
        else if (startswith ct "application/x-www-form-urlencoded"
                 || startswith ct "multipart/form-data")%bool then
          params <- lift (Request.post request) ;;
          ret (Continue (Some (dict_map AVal params)))
        else
          _ <- lift (str_encode ("Unsupported Content-Type: " ++ content_type)) ;;
          ret (Return (bad_request
                         ("Unsupported Content-Type: " ++ content_type)))
  end.

(** Lines 132-136: the mapping read from the query string of a GET request;
    [kw] is kept when the query string is empty. *)
Definition read_query (request : Request.t) (kw : option (dict arg))
  : M event (flow (option (dict arg))) :=
  if String.eqb (Request.query_string request) EmptyString
  then ret (Continue kw)
  else
    kw' <- lift (query_loop (Request.parse_qs request) []) ;;
    ret (Continue (Some kw')).

(** Lines 115-136: the mapping read from the body or the query, [None] when
    neither was read. *)
Definition read_arguments (rh : RequestHandler) (request : Request.t)
  : M event (flow (option (dict arg))) :=
  if (_has_var_kwarg rh || _has_named_kwargs rh
      || nonempty (_required_kwargs rh))%bool
  then
    posted <-
      (if String.eqb (Request.method request) "POST" then read_post request
       else ret (Continue None)) ;;
    match posted with
    | Return r => ret (Return r)
    | Continue kw =>
        if String.eqb (Request.method request) "GET"
        then read_query request kw
        else ret (Continue kw)
    end
  else ret (Continue None).

(** Lines 141-145: the copy of the named arguments. *)
Fixpoint filter_named (names : list string) (kw new_kw : dict arg) : dict arg :=
  match names with
  | [] => new_kw
  | name :: names' =>
      match dict_get name kw with
      | Some v => filter_named names' kw (dict_set name v new_kw)
      | None => filter_named names' kw new_kw
      end
  end.

Definition duplicate_msg (k : string) : string :=
  "Duplicate arg name in named arg and kw args: " ++ k.

(** Lines 146-149: the loop over [request.match_info.items()]. *)
Fixpoint overlay (items : list (string * string)) (kw : dict arg)
  : M event (dict arg) :=
  match items with
  | [] => ret kw
  | (k, v) :: items' =>
      (if dict_contains k kw then emit (LogWarning (duplicate_msg k))
       else ret tt) ;;;
      overlay items' (dict_set k (AVal (PStr v)) kw)
  end.

(** Lines 137-149: the mapping after the copy and the overlay. *)
Definition merge_arguments (rh : RequestHandler) (request : Request.t)
           (kw : option (dict arg)) : M event (dict arg) :=
  match kw with
  | None => ret (dict_map (fun v => AVal (PStr v)) (Request.match_info request))
  | Some kw =>
      let kw :=
        if (negb (_has_var_kwarg rh) && nonempty (_named_kwargs rh))%bool
        then filter_named (_named_kwargs rh) kw []
        else kw in
      overlay (Request.match_info request) kw
  end.

(** Lines 150-151. *)
Definition inject_request (rh : RequestHandler) (kw : dict arg) : dict arg :=
  if _has_request_arg rh then dict_set "request" ARequest kw else kw.

(** Lines 137-151: the call arguments. *)
Definition call_arguments (rh : RequestHandler) (request : Request.t)
           (kw : option (dict arg)) : M event (dict arg) :=
  kw' <- merge_arguments rh request kw ;;
  ret (inject_request rh kw').

(** Lines 152-155: the first required name that [kw] lacks. *)
Fixpoint missing_argument (names : list string) (kw : dict arg) : option string :=
  match names with
  | [] => None
  | name :: names' =>
      if dict_contains name kw then missing_argument names' kw else Some name
  end.

(** Lines 156-161. *)
Definition invoke (rh : RequestHandler) (kw : dict arg) : M event pyobj :=
  emit (LogCallArgs kw) ;;;
  emit (Invoke kw) ;;;
  match call (_func rh) kw with
  | Ok r => ret r
  | Raise (APIError error data msg) =>
      ret (Value (PDict [("error", error); ("data", data); ("message", msg)]))
  | Raise e => raise e
  end.

(** [RequestHandler.__call__] *)
Definition RequestHandler_call (rh : RequestHandler) (request : Request.t)
  : M event pyobj :=
  parsed <- read_arguments rh request ;;
  match parsed with
  | Return r => ret r
  | Continue kw0 =>
      kw <- call_arguments rh request kw0 ;;
      match missing_argument (_required_kwargs rh) kw with
      | Some name => ret (bad_request ("Missing argument: " ++ name))
      | None => invoke rh kw
      end
  end.

(* ================================================================== *)
(** * The response middleware *)
(* ================================================================== *)

Definition newline : string := String (ascii_of_nat 10) EmptyString.

(** [isinstance(r, int) and 100 <= r < 600]; a [bool] is an [int] too, and
    neither of its two values is in the range. *)
Definition status_code (v : pyval) : option Z :=
  match v with
  | PInt n => if ((100 <=? n) && (n <? 600))%bool then Some n else None
  | _ => None
  end.

Section Coercion.

(** [str(v)] for the values whose text depends on the Unicode tables, on
    object identity or on a [__str__] of the program: containers, [bytes]
    and objects.  It raises what their [__repr__] or [__str__] raises, and is
    taken as given. *)
Variable py_repr : pyval -> result string.

(** The nested calls the recursion limit leaves where the middleware calls
    [json.dumps]; taken as given. *)
Variable room : nat.

(** [str(v)] *)
Definition py_str (v : pyval) : result string :=
  match v with
  | PStr s => Ok s
  | PInt z => int_str z
  | PFloat r => Ok r
  | PBool true => Ok "True"
  | PBool false => Ok "False"
  | PNone => Ok "None"
  | _ => py_repr v
  end.

(** [web.Response(body=text.encode('utf-8'))] with [content_type = ct]. *)
Definition encoded (ct text : string) : result Response.t :=
  match str_encode text with
  | Ok body => Ok (set_content_type ct (Response_body body))
  | Raise e => Raise e
  end.

(** Lines 254-256. *)
Definition plain_text (v : pyval) : result Response.t :=
  match py_str v with
  | Ok text => encoded "text/plain;charset=utf-8" text
  | Raise e => Raise e
  end.

(** Line 253: [web.Response(status=st, text=str(m))]; the library encodes
    the text when the response is made. *)
Definition status_text (st : Z) (m : pyval) : result Response.t :=
  match py_str m with
  | Ok text =>
      match str_encode text with
      | Ok _ => Ok (Response_text st text)
      | Raise e => Raise e
      end
  | Raise e => Raise e
  end.

(** Lines 226-256: the response for the value [r] of the handler. *)
Definition coerce (app : Application) (r : pyobj) : result Response.t :=
  match r with
  | StreamResponse res => Ok res
  | Value (PBytes b) =>
      Ok (set_content_type "application/octet-stream" (Response_body b))
  | Value (PStr s) =>
      if startswith s "redirect:" then HTTPFound (drop_chars 9 s)
      else encoded "text/html;charset=utf-8" s
  | Value (PDict d) =>
      let as_json :=
        match json_dumps room (PDict d) with
        | Ok text => encoded "application/json;charset=utf-8" text
        | Raise e => Raise e
        end in
      match dict_get "__template__" d with
      | None => as_json
      | Some PNone => as_json
      | Some template =>
          match __templating__ app template d with
          | Ok text => encoded "text/html;charset=utf-8" text
          | Raise e => Raise e
          end
      end
  | Value (PTuple [t; m]) =>
      match status_code t with
      | Some st => status_text st m
      | None => plain_text (PTuple [t; m])
      end
  | Value v =>
      match status_code v with
      | Some st => Ok (Response_status st)
      | None => plain_text v
      end
  end.

(** [response_factory(app, handler)], applied to a request. *)
Definition response_factory (app : Application)
           (handler : Request.t -> M event pyobj) (request : Request.t)
  : M event Response.t :=
  emit (LogInfo "Response handler...") ;;;
  r <- handler request ;;
  emit (LogInfo newline) ;;;
  lift (coerce app r).

End Coercion.

(* ================================================================== *)
(** * The active-record layer ([orm.py]) *)
(* ================================================================== *)

(** ** execute and select *)

(** A connection of the pool, by the outcome of each call the program makes
    on it: [cursor_execute] gives [cur.rowcount] after
    [await cur.execute(sql, args)], [fetch] the rows of [fetchmany(size)]
    ([Some size]) or [fetchall()] ([None]). *)
Record connection : Type := mk_connection {
  begin : result unit;
  cursor_execute : string -> option (list pyval) -> result Z;
  fetch : option Z -> result (list (dict pyval));
  commit : result unit;
  rollback : result unit
}.

(** The calls on the driver and the log records, in order. *)
Inductive db_event : Type :=
| LogSQL (sql : string)
| LogRows (n : nat)
| Acquire
| Release
| Begin
| CursorOpen
| CursorExecute (sql : string) (args : option (list pyval))
| CursorFetch (size : option Z)
| CursorClose
| Commit
| Rollback.

(** [with ... :] the exit action runs however the body ends. *)
Definition finally {E A : Type} (m : M E A) (ev : E) : M E A :=
  ((fst m ++ [ev])%list, snd m).

(** [try: m except <class>: handler]; [handler e = None] when the clause
    does not match the class of [e]. *)
Definition try_except {E A : Type} (m : M E A) (handler : exn -> option (M E A))
  : M E A :=
  match m with
  | (t, Raise e) =>
      match handler e with
      | Some h => ((t ++ fst h)%list, snd h)
      | None => (t, Raise e)
      end
  | (t, Ok a) => (t, Ok a)
  end.

(** [sql.replace('?', '%s')] *)
Fixpoint replace_placeholders (sql : string) : string :=
  match sql with
  | EmptyString => EmptyString
  | String c sql' =>
      if Ascii.eqb c "?" then String "%" (String "s" (replace_placeholders sql'))
      else String c (replace_placeholders sql')
  end.

Definition pool_missing : exn := PoolNotFoundError "Connection pool is NoneType.".

(** [args or ()] *)
Definition or_empty (args : option (list pyval)) : list pyval :=
  match args with
  | Some a => a
  | None => []
  end.

(** [select(sql, args, size)]; [__pool] is the global pool, [None] before
    [create_pool]. *)
Definition select (__pool : option connection) (sql : string)
           (args : option (list pyval)) (size : option Z)
  : M db_event (list (dict pyval)) :=
  emit (LogSQL sql) ;;;
  match __pool with
  | Some conn =>
      finally
        (emit Acquire ;;;
         rows <- finally
                   (emit CursorOpen ;;;
                    emit (CursorExecute (replace_placeholders sql)
                                        (Some (or_empty args))) ;;;
                    _ <- lift (cursor_execute conn (replace_placeholders sql)
                                              (Some (or_empty args))) ;;
                    let how := match size with
                               | Some 0 => None
                               | Some n => Some n
                               | None => None
                               end in
                    emit (CursorFetch how) ;;;
                    lift (fetch conn how))
                   CursorClose ;;
         emit (LogRows (List.length rows)) ;;;
         ret rows)
        Release
  | None => raise pool_missing
  end.

(** [execute(sql, args, autocommit)] *)
Definition execute (__pool : option connection) (sql : string)
           (args : option (list pyval)) (autocommit : bool) : M db_event Z :=
  emit (LogSQL sql) ;;;
  match __pool with
  | Some conn =>
      finally
        (emit Acquire ;;;
         (if negb autocommit then emit Begin ;;; lift (begin conn)
          else ret tt) ;;;
         try_except
           (affected <- finally
                          (emit CursorOpen ;;;
                           emit (CursorExecute (replace_placeholders sql) args) ;;;
                           lift (cursor_execute conn
                                   (replace_placeholders sql) args))
                          CursorClose ;;
            (if negb autocommit then emit Commit ;;; lift (commit conn)
             else ret tt) ;;;
            ret affected)
           (fun e =>
              match e with
              | SqlExecutionError _ =>
                  Some ((if negb autocommit
                         then emit Rollback ;;; lift (rollback conn)
                         else ret tt) ;;;
                        raise e)
              | _ => None
              end))
        Release
  | None => raise pool_missing
  end.

(** ** Fields *)

Fixpoint create_args_str_loop (num : nat) : list string :=
  match num with
  | O => []
  | S n => "?" :: create_args_str_loop n
  end.

Definition create_args_str (num : nat) : string :=
  join "," (create_args_str_loop num).

Module Field.
Record t : Type := mk {
  name : option string;
  column_type : string;
  primary_key : bool;
  default : pyval
}.
End Field.

Definition StringField (name : option string) (ddl : string)
           (primary_key : bool) (default : pyval) : Field.t :=
  Field.mk name ddl primary_key default.
Definition BooleanField (name : option string) (default : pyval) : Field.t :=
  Field.mk name "boolean" false default.
Definition IntField (name : option string) (primary_key : bool)
           (default : pyval) : Field.t :=
  Field.mk name "bigint" primary_key default.
Definition FloatField (name : option string) (primary_key : bool)
           (default : pyval) : Field.t :=
  Field.mk name "real" primary_key default.
Definition TextField (name : option string) (default : pyval) : Field.t :=
  Field.mk name "text" false default.

(** ** The metaclass *)

(** A class-level attribute: a [Field], or anything else. *)
Inductive attr : Type :=
| AField (f : Field.t)
| AOther (v : pyval).

(** The namespace [attrs] of a class body: the value of [__table__] when the
    body gives one (a [str]), and the other attributes in the order of the
    body. *)
Module Namespace.
Record t : Type := mk {
  table : option string;
  members : dict attr
}.
End Namespace.

(** The attributes the metaclass stores on an entity class. *)
Module Model.
Record t : Type := mk {
  name : string;
  __mappings__ : dict Field.t;
  __table__ : string;
  __primary_key__ : string;
  __fields__ : list string;
  __select__ : string;
  __insert__ : string;
  __update__ : string;
  __delete__ : string;
  attrs : dict attr
}.
End Model.

(** What [ModelMetaClass.__new__] returns: the class built from the
    namespace as it is, or an entity class. *)
Inductive pyclass : Type :=
| PlainClass (name : string) (attrs : Namespace.t)
| EntityClass (m : Model.t).

(** The truth value of a [str] that may be [None]. *)
Definition truthy (s : option string) : bool :=
  match s with
  | None => false
  | Some s => negb (String.eqb s EmptyString)
  end.

Definition or_else (s : option string) (d : string) : string :=
  if truthy s then match s with Some x => x | None => d end else d.

Definition duplicate_pk_msg (table_name k : string) : string :=
  "Table: " ++ table_name ++ ", field: " ++ k ++ ".".

Definition pk_not_found_msg (table_name : string) : string :=
  "Table: " ++ table_name ++ ".".

(** Lines 144-153: the loop over [attrs.items()]. *)
Fixpoint collect_fields (table_name : string) (items : dict attr)
         (mappings : dict Field.t) (primary_key : option string)
         (fields : list string)
  : result (dict Field.t * option string * list string) :=
  match items with
  | [] => Ok (mappings, primary_key, fields)
  | (k, AField v) :: items' =>
      let mappings := dict_set k v mappings in
      if Field.primary_key v then
        if truthy primary_key
        then Raise (DuplicatePrimaryKeyError (duplicate_pk_msg table_name k))
        else collect_fields table_name items' mappings (Some k) fields
      else collect_fields table_name items' mappings primary_key
                          (fields ++ [k])%list
  | (k, AOther _) :: items' =>
      collect_fields table_name items' mappings primary_key fields
  end.

(** [attrs.pop(k)] *)
Fixpoint dict_pop {V : Type} (k : string) (d : dict V) : dict V :=
  match d with
  | [] => []
  | (k', v) :: d' => if String.eqb k' k then d' else (k', v) :: dict_pop k d'
  end.

Definition backtick (s : string) : string := "`" ++ s ++ "`".

(** The [set] items of the update template:
    [mappings.get(f).name or f] for each field. *)
Fixpoint update_columns (mappings : dict Field.t) (fields : list string)
  : result (list string) :=
  match fields with
  | [] => Ok []
  | f :: fields' =>
      match dict_get f mappings with
      | None => Raise (AttributeError "NoneType object has no attribute name")
      | Some fld =>
          match update_columns mappings fields' with
          | Ok cols => Ok ((backtick (or_else (Field.name fld) f) ++ "=?") :: cols)
          | Raise e => Raise e
          end
      end
  end.

(** [ModelMetaClass.__new__(mcs, name, bases, attrs)] *)
Definition ModelMetaClass_new (name : string) (attrs : Namespace.t)
  : result pyclass :=
  if String.eqb name "Model" then Ok (PlainClass name attrs)
  else
    let table_name := or_else (Namespace.table attrs) name in
    match collect_fields table_name (Namespace.members attrs) [] None [] with
    | Raise e => Raise e
    | Ok (mappings, primary_key, fields) =>
        match primary_key with
        | None => Raise (PrimaryKeyNotFoundError (pk_not_found_msg table_name))
        | Some pk =>
            if String.eqb pk EmptyString
            then Raise (PrimaryKeyNotFoundError (pk_not_found_msg table_name))
            else
              let rest := fold_left (fun d k => dict_pop k d)
                                    (dict_keys mappings)
                                    (Namespace.members attrs) in
              let escaped_fields := map backtick fields in
              match update_columns mappings fields with
              | Raise e => Raise e
              | Ok cols =>
                  Ok (EntityClass
                        (Model.mk name mappings table_name pk fields
                           ("select " ++ backtick pk ++ ", "
                              ++ join ", " escaped_fields
                              ++ " from " ++ backtick table_name)
                           ("insert into " ++ backtick table_name ++ " ("
                              ++ join ", " escaped_fields ++ ", "
                              ++ backtick pk ++ ") values ("
                              ++ create_args_str (List.length escaped_fields + 1)
                              ++ ")")
                           ("update " ++ backtick table_name ++ " set "
                              ++ join ", " cols
                              ++ " where " ++ backtick pk ++ "=?")
                           ("delete from " ++ backtick table_name
                              ++ " where " ++ backtick pk ++ "=?")
                           rest))
              end
        end
    end.

(* ================================================================== *)
(** * Registration ([get], [post], [add_route], [add_routes]) *)
(* ================================================================== *)

(** A function object as registration sees it: the function ([__name__] and
    signature, which [functools.wraps] hands on to the wrapper), and the two
    attributes the decorators set; [None] where [getattr] finds none. *)
Record routed : Type := mk_routed {
  wrapped : func;
  __method__ : option string;
  __route__ : option string
}.

(** A function no decorator was applied to. *)
Definition undecorated (f : func) : routed := mk_routed f None None.

(** [@get(path)] *)
Definition get (path : string) (f : routed) : routed :=
  mk_routed (wrapped f) (Some "GET") (Some path).

(** [@post(path)] *)
Definition post (path : string) (f : routed) : routed :=
  mk_routed (wrapped f) (Some "POST") (Some path).

(** An attribute of the module of handlers: a callable, or another object. *)
Inductive member : Type :=
| MCallable (f : routed)
| MOther (v : pyval).

(** What registration leaves behind: log records and the calls on the
    router. *)
Inductive reg_event : Type :=
| RegInfo (text : string)
| AddRoute (method path : string) (handler : RequestHandler).

Section Registration.

(** [str(func)], which holds the address of the function object. *)
Variable func_str : func -> string.

(** [app.router.add_route(method, path, handler)]: whether the router takes
    the method and the path, or raises. *)
Variable router_add_route : string -> string -> result unit.

Definition not_decorated_msg (f : routed) : string :=
  "@get or @post not defined in " ++ func_str (wrapped f) ++ ".".

Definition add_route_msg (method path : string) (f : func) : string :=
  "add route " ++ method ++ " " ++ path ++ " ==> " ++ __name__ f ++ "("
    ++ join ", " (map Param.name (parameters f)) ++ ")".

(** [add_route(app, func)]; the coroutine [asyncio.coroutine] makes of a
    function that is none keeps its name and its signature, and gives what
    the function gives. *)
Definition add_route (app : Application) (f : routed) : M reg_event unit :=
  match __route__ f, __method__ f with
  | Some path, Some method =>
      emit (RegInfo (add_route_msg method path (wrapped f))) ;;;
      handler <- lift (RequestHandler_init app (wrapped f)) ;;
      emit (AddRoute method path handler) ;;;
      lift (router_add_route method path)
  | _, _ => raise (ValueError (not_decorated_msg f))
  end.

(** The loop of [add_routes] over [dir(mod)], the names of the module in
    sorted order with their values. *)
Fixpoint add_routes (app : Application) (module : list (string * member))
  : M reg_event unit :=
  match module with
  | [] => ret tt
  | (attr, fn) :: module' =>
      if startswith attr "_" then add_routes app module'
      else
        match fn with
        | MCallable f =>
            if (truthy (__method__ f) && truthy (__route__ f))%bool
            then add_route app f ;;; add_routes app module'
            else add_routes app module'
        | MOther _ => add_routes app module'
        end
  end.

End Registration.

(* ================================================================== *)
(** * The methods of Model *)
(* ================================================================== *)

(** The log records of the methods beside the calls of [execute]. *)
Inductive orm_event : Type :=
| Db (e : db_event)
| OrmWarning (text : string).

(** A call of [select] or [execute] from a method. *)
Definition db {A : Type} (m : M db_event A) : M orm_event A :=
  (map Db (fst m), snd m).

(** The warnings a method logged. *)
Fixpoint warnings (t : list orm_event) : list string :=
  match t with
  | [] => []
  | OrmWarning text :: t' => text :: warnings t'
  | Db _ :: t' => warnings t'
  end.

Section Instances.

(** What ordinary attribute lookup finds on an instance for a name, before
    [__getattr__] is asked: the methods of [dict] and of [Model] and the
    attributes left on the class; [None] for every other name. *)
Variable class_attr : string -> option pyval.

(** [get_value(self, key)]: [getattr(self, key, None)], where
    [__getattr__] reads the item [key] of the instance, a [dict]. *)
Definition get_value (self : dict pyval) (key : string) : pyval :=
  match class_attr key with
  | Some v => v
  | None =>
      match dict_get key self with
      | Some v => v
      | None => PNone
      end
  end.

Definition update_args (cls : Model.t) (self : dict pyval) : list pyval :=
  (map (get_value self) (Model.__fields__ cls)
   ++ [get_value self (Model.__primary_key__ cls)])%list.

(** [update_(self)] *)
Definition update_ (__pool : option connection) (cls : Model.t)
           (self : dict pyval) : M orm_event unit :=
  affected <- db (execute __pool (Model.__update__ cls)
                          (Some (update_args cls self)) true) ;;
  if negb (affected =? 1)
  then emit (OrmWarning ("failed to update by primary key: affected rows: "
                           ++ str_of_int affected))
  else ret tt.

Definition delete_args (cls : Model.t) (self : dict pyval) : list pyval :=
  [get_value self (Model.__primary_key__ cls)].

(** [delete_(self)] *)
Definition delete_ (__pool : option connection) (cls : Model.t)
           (self : dict pyval) : M orm_event unit :=
  affected <- db (execute __pool (Model.__delete__ cls)
                          (Some (delete_args cls self)) true) ;;
  if negb (affected =? 1)
  then emit (OrmWarning ("failed to delete by primary key: affected rows: "
                           ++ str_of_int affected))
  else ret tt.

End Instances.

(** [find(cls, primary_key)]; [cls( **rows[0])] is the row as an instance. *)
Definition find (__pool : option connection) (cls : Model.t)
           (primary_key : pyval) : M db_event (option (dict pyval)) :=
  rows <- select __pool
                 (Model.__select__ cls ++ " where `" ++ Model.__primary_key__ cls
                    ++ "`=?")
                 (Some [primary_key]) (Some 1) ;;
  match rows with
  | [] => ret None
  | r :: _ => ret (Some r)
  end.

(** The statement of [find_number]. *)
Definition find_number_sql (cls : Model.t) (selected_field : string)
           (where_ : option string) : string :=
  let sql := ["select " ++ selected_field ++ " _num_ from `"
                ++ Model.__table__ cls ++ "`"] in
  let sql := if truthy where_
             then (sql ++ ["where"; or_else where_ EmptyString])%list
             else sql in
  join " " sql.

(** [find_number(cls, selected_field, where, args)]; [where_] is the
    parameter [where]. *)
Definition find_number (__pool : option connection) (cls : Model.t)
           (selected_field : string) (where_ : option string)
           (args : option (list pyval)) : M db_event pyval :=
  rows <- select __pool (find_number_sql cls selected_field where_) args (Some 1) ;;
  match rows with
  | [] => ret PNone
  | r :: _ =>
      match dict_get "_num_" r with
      | Some v => ret v
      | None => raise (OtherError "KeyError")
      end
  end.

(** [find_all(cls, where, args, order_by=..., limit=...)]; [order_by] and
    [limit] are [kwargs.get('order_by', None)] and [kwargs.get('limit', None)],
    [where_] is the parameter [where]. *)
Definition find_all (py_repr : pyval -> result string) (__pool : option connection)
           (cls : Model.t) (where_ : option string) (args : option (list pyval))
           (order_by : option string) (_lmt : pyval)
  : M db_event (list (dict pyval)) :=
  let sql := [Model.__select__ cls] in
  let sql := if truthy where_
             then (sql ++ ["where"; or_else where_ EmptyString])%list
             else sql in
  let args := match args with Some a => a | None => [] end in
  let sql := if truthy order_by
             then (sql ++ ["order by"; or_else order_by EmptyString])%list
             else sql in
  match _lmt with
  | PNone => select __pool (join " " sql) (Some args) None
  | PInt _ | PBool _ =>
      select __pool (join " " ((sql ++ ["limit"]) ++ ["?"]))
             (Some (args ++ [_lmt])%list) None
  | PTuple [a; b] =>
      select __pool (join " " ((sql ++ ["limit"]) ++ ["?, ?"]))
             (Some (args ++ [a; b])%list) None
  | _ =>
      text <- lift (py_str py_repr _lmt) ;;
      raise (ValueError ("Invalid limit value: " ++ text))
  end.

(* ================================================================== *)
(** * Definitions for the statements *)
(* ================================================================== *)

(** ** Signatures *)

Definition is_request (p : Param.t) : bool := String.eqb (Param.name p) "request".

Definition positional (k : param_kind) : bool :=
  match k with
  | POSITIONAL_ONLY | POSITIONAL_OR_KEYWORD => true
  | _ => false
  end.

Definition variadic (k : param_kind) : bool :=
  match k with
  | VAR_POSITIONAL | VAR_KEYWORD => true
  | _ => false
  end.

(** The parameters that follow the first one named [request]. *)
Fixpoint after_request (params : list Param.t) : list Param.t :=
  match params with
  | [] => []
  | p :: params' => if is_request p then params' else after_request params'
  end.

(** A positional parameter follows the request parameter. *)
Definition positional_after_request (params : list Param.t) : bool :=
  existsb (fun q => negb (is_request q) && positional (Param.kind q))%bool
          (after_request params).

(** A named parameter that is not variadic, keyword-only ones included,
    follows the request parameter. *)
Definition named_after_request (params : list Param.t) : bool :=
  existsb (fun q => negb (is_request q) && negb (variadic (Param.kind q)))%bool
          (after_request params).

(** ** The binder *)

(** The handler reads the body or the query (line 116). *)
Definition needs_arguments (rh : RequestHandler) : bool :=
  (_has_var_kwarg rh || _has_named_kwargs rh || nonempty (_required_kwargs rh))%bool.

(** The mapping after the copy of the named arguments, when it is made. *)
Definition filtered (rh : RequestHandler) (kw : dict arg) : dict arg :=
  if (negb (_has_var_kwarg rh) && nonempty (_named_kwargs rh))%bool
  then filter_named (_named_kwargs rh) kw []
  else kw.

(** The mapping the overlay loop ends with. *)
Definition overlay_result (items : list (string * string)) (kw : dict arg)
  : dict arg :=
  fold_left (fun kw kv => dict_set (fst kv) (AVal (PStr (snd kv))) kw) items kw.

(** The warning of the overlay loop for the key [k]. *)
Definition warning_for (k : string) : event := LogWarning (duplicate_msg k).

(** The call arguments, as a function of the mapping read. *)
Definition final_arguments (rh : RequestHandler) (request : Request.t)
           (kw : option (dict arg)) : dict arg :=
  inject_request rh
    match kw with
    | None => dict_map (fun v => AVal (PStr v)) (Request.match_info request)
    | Some kw => overlay_result (Request.match_info request) (filtered rh kw)
    end.

(** [name] is the first of [names] that [kw] lacks. *)
Definition first_missing (names : list string) (kw : dict arg) (name : string)
  : Prop :=
  exists l1 l2,
    names = (l1 ++ name :: l2)%list
    /\ (forall n, In n l1 -> dict_contains n kw = true)
    /\ dict_contains name kw = false.

(** [sub in s] *)
Fixpoint contains (s sub : string) : bool :=
  (String.prefix sub s
   || match s with
      | EmptyString => false
      | String _ s' => contains s' sub
      end)%bool.

(** The mapping an [APIError] is turned into (line 161). *)
Definition error_mapping (error data msg : pyval) : pyval :=
  PDict [("error", error); ("data", data); ("message", msg)].

(** ** The metaclass *)

(** The names of the fields marked primary key, in the order of the body. *)
Fixpoint primary_keys (items : dict attr) : list string :=
  match items with
  | [] => []
  | (k, AField v) :: items' =>
      if Field.primary_key v then k :: primary_keys items' else primary_keys items'
  | (_, AOther _) :: items' => primary_keys items'
  end.

(** The names of the other fields, in the order of the body. *)
Fixpoint plain_fields (items : dict attr) : list string :=
  match items with
  | [] => []
  | (k, AField v) :: items' =>
      if Field.primary_key v then plain_fields items' else k :: plain_fields items'
  | (_, AOther _) :: items' => plain_fields items'
  end.

(** All the fields, added to [mappings]. *)
Fixpoint mappings_of (items : dict attr) (mappings : dict Field.t) : dict Field.t :=
  match items with
  | [] => mappings
  | (k, AField v) :: items' => mappings_of items' (dict_set k v mappings)
  | (_, AOther _) :: items' => mappings_of items' mappings
  end.

(** The column of field [f]: [mappings.get(f).name or f]. *)
Definition column_of (mappings : dict Field.t) (f : string) : string :=
  match dict_get f mappings with
  | Some fld => or_else (Field.name fld) f
  | None => f
  end.

(** ** execute *)

(** [isinstance(e, custom_errors.SqlExecutionError)] *)
Definition is_sql_execution_error (e : exn) : bool :=
  match e with
  | SqlExecutionError _ => true
  | _ => false
  end.

(** ** JSON *)

(** The keys differ from one another, as those of a dict do. *)
Fixpoint distinct (keys : list string) : bool :=
  match keys with
  | [] => true
  | k :: keys' => (negb (existsb (String.eqb k) keys') && distinct keys')%bool
  end.

(** Every character of the text is ASCII. *)
Fixpoint ascii_text (s : string) : bool :=
  match s with
  | EmptyString => true
  | String c s' => (byte_in 0 127 c && ascii_text s')%bool
  end.

(** The text of a finite float as the decoder reads it: the whole of it is
    one number with a fraction or an exponent. *)
Definition float_literal (r : string) : bool :=
  match match_number (fun s => s) r with
  | Some (PFloat t, EmptyString) => String.eqb t r
  | _ => false
  end.

(** A float that is equal to itself and held by its [repr]: an infinity, or
    a finite float whose text reads back as the same float.  Python's [repr]
    gives every float but [nan] such a text. *)
Definition float_shaped (py_float : string -> string) (r : string) : bool :=
  (String.eqb r "inf" || String.eqb r "-inf"
   || float_literal r && String.eqb (py_float r) r)%bool.

(** The values that [json.dumps] writes, UTF-8 encodes, and that
    [json.loads] reads back equal to themselves: [None], booleans, integers
    within the digit limit, floats other than [nan], strings without lone
    surrogates, lists, and dicts of such values under such strings. *)
Fixpoint json_shaped (py_float : string -> string) (v : pyval) : bool :=
  match v with
  | PNone | PBool _ => true
  | PInt z => int_fits (Z.to_int z)
  | PFloat r => float_shaped py_float r
  | PStr s => well_formed_utf8 s
  | PList l => forallb (json_shaped py_float) l
  | PDict d =>
      distinct (dict_keys d)
      && forallb (fun kv => well_formed_utf8 (fst kv)
                            && json_shaped py_float (snd kv)) d
  | PBytes _ | PTuple _ | PObject _ => false
  end%bool.

(** The text ends the digits of a number: it is empty or starts with a
    character that is neither a digit, a point nor an exponent mark. *)
Definition ends_number (rest : string) : bool :=
  match rest with
  | EmptyString => true
  | String c _ =>
      negb (is_digit c || Ascii.eqb c "." || Ascii.eqb c "e" || Ascii.eqb c "E")
  end%bool.

(** The text starts with a character that is neither white space nor a
    closing bracket. *)
Definition starts_value (s : string) : bool :=
  match s with
  | EmptyString => false
  | String c _ => negb (is_ws c) && negb (Ascii.eqb c "]") && negb (Ascii.eqb c "}")
  end%bool.

(** The text is empty or starts with a comma or a closing bracket. *)
Definition ends_value (rest : string) : bool :=
  match rest with
  | EmptyString => true
  | String c _ => Ascii.eqb c "," || Ascii.eqb c "]" || Ascii.eqb c "}"
  end%bool.

(** The two loops of [json_dumps], by name. *)
Fixpoint dumps_items (room : nat) (l : list pyval) : result (list string) :=
  match l with
  | [] => Ok []
  | x :: l' =>
      match json_dumps room x with
      | Ok s => match dumps_items room l' with
                | Ok ss => Ok (s :: ss)
                | Raise e => Raise e
                end
      | Raise e => Raise e
      end
  end.

Fixpoint dumps_members (room : nat) (d : list (string * pyval))
  : result (list string) :=
  match d with
  | [] => Ok []
  | (k, x) :: d' =>
      match json_dumps room x with
      | Ok s => match dumps_members room d' with
                | Ok ss => Ok ((encode_basestring k ++ ": " ++ s) :: ss)
                | Raise e => Raise e
                end
      | Raise e => Raise e
      end
  end.

Definition dumps_array (room : nat) (l : list pyval) : result string :=
  match dumps_items room l with
  | Ok ss => Ok ("[" ++ join ", " ss ++ "]")
  | Raise e => Raise e
  end.

Definition dumps_object (room : nat) (d : list (string * pyval)) : result string :=
  match dumps_members room d with
  | Ok ss => Ok ("{" ++ join ", " ss ++ "}")
  | Raise e => Raise e
  end.

(** The calls the encoder nests for a value: what [json_dumps] needs of its
    [room]. *)
Fixpoint nesting (v : pyval) : nat :=
  match v with
  | PList l | PTuple l => S (list_max (map nesting l))
  | PDict d => S (list_max (map (fun kv => nesting (snd kv)) d))
  | PBytes _ | PObject None => 1
  | PObject (Some d) => S (S (list_max (map (fun kv => nesting (snd kv)) d)))
  | _ => O
  end.

(** The value is read back from its text, whatever follows it. *)
Definition reads_back (py_float : string -> string) (v : pyval) : Prop :=
  json_shaped py_float v = true ->
  forall room text, json_dumps room v = Ok text ->
  forall fuel rest,
    (String.length text <= fuel)%nat ->
    ends_value rest = true ->
    scan_once py_float fuel (text ++ rest) = Some (v, rest).

(** ** Registration, the driver and the statements of a class *)

(** [isinstance(e, APIError)] *)
Definition is_api_error (e : exn) : bool :=
  match e with
  | APIError _ _ _ => true
  | _ => false
  end.

(** The callables [add_routes] hands to [add_route]: public name, and a
    method and a path that are neither [None] nor empty. *)
Fixpoint routes_of (module : list (string * member)) : list routed :=
  match module with
  | [] => []
  | (attr, MCallable f) :: module' =>
      if (negb (startswith attr "_") && truthy (__method__ f)
          && truthy (__route__ f))%bool
      then f :: routes_of module'
      else routes_of module'
  | (_, MOther _) :: module' => routes_of module'
  end.

(** The routes the router was given, by method, path and handler function. *)
Fixpoint added (t : list reg_event) : list (string * string * string) :=
  match t with
  | [] => []
  | AddRoute method path handler :: t' =>
      (method, path, __name__ (_func handler)) :: added t'
  | RegInfo _ :: t' => added t'
  end.

Definition route_of (f : routed) : string * string * string :=
  (match __method__ f with Some m => m | None => EmptyString end,
   match __route__ f with Some p => p | None => EmptyString end,
   __name__ (wrapped f)).

(** The calls on the driver are well bracketed: a cursor is opened on an
    acquired connection only, statements and fetches go to an open cursor,
    transaction calls to an acquired connection, and at the end the cursor
    is closed and the connection released. *)
Fixpoint well_bracketed (t : list db_event) (acquired cursor : bool) : bool :=
  match t with
  | [] => (negb acquired && negb cursor)%bool
  | LogSQL _ :: t' | LogRows _ :: t' => well_bracketed t' acquired cursor
  | Acquire :: t' => (negb acquired && well_bracketed t' true cursor)%bool
  | Release :: t' =>
      (acquired && negb cursor && well_bracketed t' false false)%bool
  | Begin :: t' | Commit :: t' | Rollback :: t' =>
      (acquired && well_bracketed t' acquired cursor)%bool
  | CursorOpen :: t' =>
      (acquired && negb cursor && well_bracketed t' acquired true)%bool
  | CursorExecute _ _ :: t' | CursorFetch _ :: t' =>
      (cursor && well_bracketed t' acquired cursor)%bool
  | CursorClose :: t' => (cursor && well_bracketed t' acquired false)%bool
  end.

(** The number of occurrences of [c] in [s]. *)
Fixpoint count_char (c : ascii) (s : string) : nat :=
  match s with
  | EmptyString => 0
  | String a s' => (if Ascii.eqb a c then 1 else 0) + count_char c s'
  end.

(** The attributes of a class body that are no fields, and the fields. *)
Fixpoint other_attrs (items : dict attr) : dict attr :=
  match items with
  | [] => []
  | (k, AField _) :: items' => other_attrs items'
  | (k, AOther v) :: items' => (k, AOther v) :: other_attrs items'
  end.

Fixpoint field_attrs (items : dict attr) : dict Field.t :=
  match items with
  | [] => []
  | (k, AField f) :: items' => (k, f) :: field_attrs items'
  | (k, AOther _) :: items' => field_attrs items'
  end.

(** [isinstance(l, int)], or a tuple of two. *)
Definition valid_limit (l : pyval) : bool :=
  match l with
  | PInt _ | PBool _ => true
  | PTuple [_; _] => true
  | _ => false
  end.

(** The values a limit adds to the arguments. *)
Definition limit_values (l : pyval) : list pyval :=
  match l with
  | PTuple [a; b] => [a; b]
  | _ => [l]
  end.

(* ================================================================== *)
(** * Sample handlers, requests and classes *)
(* ================================================================== *)

(** An application without templates. *)
Definition sample_app : Application :=
  mk_app (fun _ _ => Raise (OtherError "TemplateNotFound")).

(** A [str] that is right on the lists it is asked for. *)
Definition sample_repr (v : pyval) : result string :=
  match v with
  | PList [PInt 404; PStr "not found"] => Ok "[404, 'not found']"
  | PList [PInt 0; PInt 10] => Ok "[0, 10]"
  | _ => Ok "<object>"
  end.

(** Room for the encoder under a handler of the server: the limit of 1000
    less a stack of a hundred frames. *)
Definition sample_room : nat := 900.

(** A list in a list in a list, [n] times around the empty list. *)
Fixpoint nested_lists (n : nat) : pyval :=
  match n with
  | O => PList []
  | S n' => PList [nested_lists n']
  end.

(** A reading of floats that is right on the texts it is asked for. *)
Definition sample_float (s : string) : string :=
  if String.eqb s "1.50" then "1.5"
  else if String.eqb s "1E2" then "100.0"
  else s.

(** [async def create_comment(id, request, *, content, page='1')] *)
Definition create_comment : func :=
  mk_func "create_comment"
          [Param.mk "id" POSITIONAL_OR_KEYWORD None;
           Param.mk "request" POSITIONAL_OR_KEYWORD None;
           Param.mk "content" KEYWORD_ONLY None;
           Param.mk "page" KEYWORD_ONLY (Some (PStr "1"))]
          (fun _ => Ok (Value (PDict [("ok", PBool true)]))).

Definition create_comment_handler : RequestHandler :=
  mk_handler sample_app create_comment true false true ["content"; "page"] ["content"].

(** A JSON body for [create_comment], at [/comments/7]. *)
Definition comment_request : Request.t :=
  Request.mk "POST" (Some "application/json")
             (Ok (PDict [("content", PStr "hi"); ("id", PStr "1"); ("spam", PNone)]))
             (Ok []) EmptyString [] [("id", "7")].

Definition comment_body : dict arg :=
  [("content", AVal (PStr "hi")); ("id", AVal (PStr "1")); ("spam", AVal PNone)].

(** A POST request without a Content-Type header, and one whose header is
    empty, as a server library that reports the header as it stands has
    it. *)
Definition post_without_content_type : Request.t :=
  Request.mk "POST" (Some default_content_type)
             (Raise (JSONDecodeError "Expecting value")) (Ok [])
             EmptyString [] [("id", "7")].

Definition post_empty_content_type : Request.t :=
  Request.mk "POST" (Some EmptyString)
             (Raise (JSONDecodeError "Expecting value")) (Ok [])
             EmptyString [] [("id", "7")].

Definition post_xml : Request.t :=
  Request.mk "POST" (Some "text/xml") (Raise (JSONDecodeError "Expecting value"))
             (Ok []) EmptyString [] [("id", "7")].

Definition post_json_patch : Request.t :=
  Request.mk "POST" (Some "application/json-patch+json")
             (Ok (PDict [("content", PStr "hi")])) (Ok []) EmptyString []
             [("id", "7")].

(** [async def show( *, request)], routed at [/show/{request}]. *)
Definition show : func :=
  mk_func "show" [Param.mk "request" KEYWORD_ONLY None]
          (fun _ => Ok (Value (PStr "shown"))).

Definition show_handler : RequestHandler :=
  mk_handler sample_app show true false true ["request"] ["request"].

(** [GET /show/b?request=a] *)
Definition show_request : Request.t :=
  Request.mk "GET" None (Raise (JSONDecodeError "Expecting value")) (Ok [])
             "request=a" [("request", ["a"])] [("request", "b")].

(** A GET request without query string and without path parameters. *)
Definition plain_get : Request.t :=
  Request.mk "GET" None (Raise (JSONDecodeError "Expecting value")) (Ok [])
             EmptyString [] [].

(** [async def get_blog( *, id)] *)
Definition get_blog : func :=
  mk_func "get_blog" [Param.mk "id" KEYWORD_ONLY None]
          (fun _ => Ok (Value (PDict [("title", PStr "first")]))).

Definition get_blog_handler : RequestHandler :=
  mk_handler sample_app get_blog false false true ["id"] ["id"].

(** [async def list_comments( *, page, id)] *)
Definition list_comments : func :=
  mk_func "list_comments"
          [Param.mk "page" KEYWORD_ONLY None; Param.mk "id" KEYWORD_ONLY None]
          (fun _ => Ok (Value (PList []))).

Definition list_comments_handler : RequestHandler :=
  mk_handler sample_app list_comments false false true ["page"; "id"] ["page"; "id"].

(** [async def register(request)], refusing the e-mail address. *)
Definition register : func :=
  mk_func "register" [Param.mk "request" POSITIONAL_OR_KEYWORD None]
          (fun _ => Raise (APIValueError (PStr "email") (PStr "Invalid email."))).

Definition register_handler : RequestHandler :=
  mk_handler sample_app register true false false [] [].

Definition register_error_text : string :=
  Eval vm_compute in
    match json_dumps sample_room (error_mapping (PStr "value: invalid") (PStr "email")
                                    (PStr "Invalid email.")) with
    | Ok text => text
    | Raise _ => EmptyString
    end.

(** [async def upload(request)], raising an error that carries the rejected
    bytes. *)
Definition upload : func :=
  mk_func "upload" [Param.mk "request" POSITIONAL_OR_KEYWORD None]
          (fun _ => Raise (APIError (PStr "upload: rejected")
                                    (PBytes ["/"%byte; "*"%byte])
                                    (PStr "not an image"))).

Definition upload_handler : RequestHandler :=
  mk_handler sample_app upload true false false [] [].

Definition blog : list (string * pyval) :=
  [("title", PStr "first"); ("tags", PList [PStr "a"; PInt (-3)]);
   ("draft", PBool false); ("rating", PFloat "4.5"); ("reach", PFloat "1e+22");
   ("author", PDict [("name", PStr "bob"); ("site", PNone)])].

(** The text of a [str] that is one lone surrogate, U+D800. *)
Definition lone_surrogate : string :=
  String (ascii_of_nat 237) (String (ascii_of_nat 160)
    (String (ascii_of_nat 128) EmptyString)).

(** [async def get_blog( *, id)] answering with the blog as a mapping. *)
Definition get_blog_json : func :=
  mk_func "get_blog" [Param.mk "id" KEYWORD_ONLY None] (fun _ => Ok (Value (PDict blog))).

Definition get_blog_json_handler : RequestHandler :=
  mk_handler sample_app get_blog_json false false true ["id"] ["id"].

(** [GET /blog/1] *)
Definition get_blog_request : Request.t :=
  Request.mk "GET" None (Raise (JSONDecodeError "Expecting value")) (Ok [])
             EmptyString [] [("id", "1")].

(** [async def get_avatar( *, id)] answering with the image bytes in a
    mapping. *)
Definition get_avatar : func :=
  mk_func "get_avatar" [Param.mk "id" KEYWORD_ONLY None]
          (fun _ => Ok (Value (PDict [("id", PInt 1);
                                      ("avatar", PBytes ["G"%byte; "I"%byte; "F"%byte])]))).

Definition get_avatar_handler : RequestHandler :=
  mk_handler sample_app get_avatar false false true ["id"] ["id"].

(** [class User(Model)], with [__table__ = 'users']. *)
Definition User_attrs : Namespace.t :=
  Namespace.mk (Some "users")
    [("id", AField (IntField None true (PInt 0)));
     ("name", AField (StringField None "varchar(50)" false PNone));
     ("email", AField (StringField (Some "mail") "varchar(50)" false PNone));
     ("is_admin", AOther (PBool false))].

(** A connection on which the insert violates a unique key. *)
Definition failing_connection : connection :=
  mk_connection (Ok tt) (fun _ _ => Raise (OtherError "pymysql.err.IntegrityError"))
                (fun _ => Ok []) (Ok tt) (Ok tt).

(** ** More handlers, modules, connections and rows *)

(** [async def signout(request)] *)
Definition signout : func :=
  mk_func "signout" [Param.mk "request" POSITIONAL_OR_KEYWORD None]
          (fun _ => Ok (Value (PStr "redirect:/"))).

Definition signout_handler : RequestHandler :=
  mk_handler sample_app signout true false false [] [].

(** [GET /blog?id=3&id=4&page=2] *)
Definition query_request : Request.t :=
  Request.mk "GET" (Some "text/xml") (Raise (JSONDecodeError "Expecting value"))
             (Ok []) "id=3&id=4&page=2" [("id", ["3"; "4"]); ("page", ["2"])] [].

(** [PUT /comments/7], with a JSON body. *)
Definition put_request : Request.t :=
  Request.mk "PUT" (Some "application/json")
             (Ok (PDict [("content", PStr "hi")])) (Ok []) EmptyString []
             [("id", "7")].

Definition broken_json_request : Request.t :=
  Request.mk "POST" (Some "application/json; charset=utf-8")
             (Raise (JSONDecodeError "Expecting value: line 1 column 1 (char 0)"))
             (Ok []) EmptyString [] [("id", "7")].

(** [async def crash(request)], dividing by zero. *)
Definition crash : func :=
  mk_func "crash" [Param.mk "request" POSITIONAL_OR_KEYWORD None]
          (fun _ => Raise (OtherError "ZeroDivisionError")).

Definition crash_handler : RequestHandler :=
  mk_handler sample_app crash true false false [] [].

(** [async def delete_blog(request)], refusing a user who is no admin. *)
Definition delete_blog : func :=
  mk_func "delete_blog" [Param.mk "request" POSITIONAL_OR_KEYWORD None]
          (fun _ => Raise (APIPermissionError (PStr "admin only"))).

Definition delete_blog_handler : RequestHandler :=
  mk_handler sample_app delete_blog true false false [] [].

(** A router that takes every route, and one that wants a leading slash. *)
Definition any_router (method path : string) : result unit := Ok tt.

Definition strict_router (method path : string) : result unit :=
  if startswith path "/" then Ok tt
  else Raise (ValueError "path should be started with /").

Definition sample_func_str (f : func) : string := "<function " ++ __name__ f ++ ">".

(** A module of handlers as [dir] lists it. *)
Definition handlers_module : list (string * member) :=
  [ ("COOKIE_NAME", MOther (PStr "session"));
    ("_check_admin", MCallable (get "/hidden" (undecorated signout)));
    ("create_comment",
       MCallable (post "/api/blogs/{id}/comments" (undecorated create_comment)));
    ("get_blog", MCallable (get "/blog/{id}" (undecorated get_blog)));
    ("next_id", MCallable (undecorated crash));
    ("signout", MCallable (get "/signout" (undecorated signout))) ].

(** [def broken(request, page)], decorated with [@get('/broken')]. *)
Definition broken : func :=
  mk_func "broken" [Param.mk "request" POSITIONAL_OR_KEYWORD None;
                    Param.mk "page" POSITIONAL_OR_KEYWORD None]
          (fun _ => Ok (Value PNone)).

Definition broken_module : list (string * member) :=
  [ ("archive", MCallable (get "/archive" (undecorated signout)));
    ("broken", MCallable (get "/broken" (undecorated broken)));
    ("signout", MCallable (get "/signout" (undecorated signout))) ].

(** A connection that takes every call and reports one affected row; one
    that finds no row; one on which no transaction can be started. *)
Definition sample_connection : connection :=
  mk_connection (Ok tt) (fun _ _ => Ok 1)
                (fun _ => Ok [[("id", PInt 1); ("name", PStr "ann");
                               ("email", PStr "ann@example.com")]])
                (Ok tt) (Ok tt).

Definition empty_connection : connection :=
  mk_connection (Ok tt) (fun _ _ => Ok 0) (fun _ => Ok []) (Ok tt) (Ok tt).

Definition lost_connection : connection :=
  mk_connection (Raise (OtherError "pymysql.err.OperationalError"))
                (fun _ _ => Ok 1) (fun _ => Ok []) (Ok tt) (Ok tt).

(** The class [User] of the sample, as the metaclass builds it. *)
Definition User : Model.t :=
  Model.mk "User"
    [("id", IntField None true (PInt 0));
     ("name", StringField None "varchar(50)" false PNone);
     ("email", StringField (Some "mail") "varchar(50)" false PNone)]
    "users" "id" ["name"; "email"]
    "select `id`, `name`, `email` from `users`"
    "insert into `users` (`name`, `email`, `id`) values (?,?,?)"
    "update `users` set `name`=?, `mail`=? where `id`=?"
    "delete from `users` where `id`=?"
    [("is_admin", AOther (PBool false))].

Definition no_class_attr (key : string) : option pyval := None.

Definition ann : dict pyval :=
  [("id", PInt 1); ("name", PStr "ann"); ("email", PStr "ann@example.com")].

(* ================================================================== *)
(** * Facts about dictionaries and the effect monad *)
(* ================================================================== *)

Module DictFacts.
Section Facts.
Context {V : Type}.
Implicit Types (d : dict V) (k : string) (v : V).

Lemma get_set_same k v d : dict_get k (dict_set k v d) = Some v.
Proof.
induction d as [|[k' v'] d IH]; simpl.
- now rewrite String.eqb_refl.
- destruct (String.eqb k' k) eqn:E; simpl; rewrite E; auto.
Qed.

Lemma get_set_other k k' v d :
k <> k' -> dict_get k' (dict_set k v d) = dict_get k' d.
Proof.
intros Hne. induction d as [|[k0 v0] d IH]; simpl.
- destruct (String.eqb_spec k k'); [contradiction | reflexivity].
- destruct (String.eqb_spec k0 k) as [->|Hk]; simpl.
  + destruct (String.eqb_spec k k'); [contradiction | reflexivity].
  + destruct (String.eqb_spec k0 k'); auto.
Qed.

Lemma get_set k k' v d :
dict_get k' (dict_set k v d)
= if String.eqb k k' then Some v else dict_get k' d.
Proof.
destruct (String.eqb_spec k k') as [->|Hne].
- apply get_set_same.
- now apply get_set_other.
Qed.

Lemma contains_set k k' v d :
dict_contains k' (dict_set k v d)
= (String.eqb k k' || dict_contains k' d)%bool.
Proof.
unfold dict_contains. rewrite get_set.
destruct (String.eqb k k'); reflexivity.
Qed.

Lemma get_none_keys k d : dict_get k d = None <-> ~ In k (dict_keys d).
Proof.
induction d as [|[k' v'] d IH]; simpl.
- tauto.
- destruct (String.eqb_spec k' k) as [->|Hne].
  + split; [discriminate | intros H; exfalso; apply H; now left].
  + rewrite IH. split; intros H; [intros [?|?]; [contradiction | auto] | tauto].
Qed.

Lemma contains_keys k d : dict_contains k d = true <-> In k (dict_keys d).
Proof.
unfold dict_contains. pose proof (get_none_keys k d) as H.
destruct (dict_get k d).
- split; auto. intros _.
  destruct (in_dec string_dec k (dict_keys d)) as [Hin|Hn]; auto.
  apply H in Hn. discriminate.
- split; [discriminate | intros Hin]. exfalso. now apply (proj1 H).
Qed.

Lemma contains_false_keys k d : dict_contains k d = false <-> ~ In k (dict_keys d).
Proof.
rewrite <- contains_keys. destruct (dict_contains k d); split; congruence.
Qed.

Lemma get_in_nodup k v d :
NoDup (dict_keys d) -> In (k, v) d -> dict_get k d = Some v.
Proof.
induction d as [|[k' v'] d IH]; simpl; [tauto|].
intros Hnd [Heq|Hin].
- inversion Heq; subst. now rewrite String.eqb_refl.
- inversion Hnd as [|? ? Hnotin Hnd']; subst.
  destruct (String.eqb_spec k' k) as [->|Hne]; auto.
  exfalso. apply Hnotin. change (In (fst (k, v)) (map fst d)).
  now apply in_map.
Qed.

Lemma keys_map {W : Type} (f : V -> W) d : dict_keys (dict_map f d) = dict_keys d.
Proof.
unfold dict_keys, dict_map. rewrite map_map. reflexivity.
Qed.

Lemma get_map {W : Type} (f : V -> W) k d :
dict_get k (dict_map f d) = option_map f (dict_get k d).
Proof.
induction d as [|[k' v'] d IH]; simpl; auto.
destruct (String.eqb k' k); auto.
Qed.

End Facts.
End DictFacts.

Module MFacts.
Section Facts.
Context {E A B : Type}.

Lemma outcome_bind (m : M E A) (f : A -> M E B) :
outcome (bind m f)
= match outcome m with
  | Ok a => outcome (f a)
  | Raise e => Raise e
  end.
Proof.
destruct m as [t [a|e]]; simpl; auto.
destruct (f a); reflexivity.
Qed.

Lemma trace_bind (m : M E A) (f : A -> M E B) :
trace (bind m f)
= match outcome m with
  | Ok a => (trace m ++ trace (f a))%list
  | Raise e => trace m
  end.
Proof.
destruct m as [t [a|e]]; simpl; auto.
destruct (f a); reflexivity.
Qed.

Lemma bind_ret (a : A) (f : A -> M E B) : bind (ret a) f = f a.
Proof.
unfold bind, ret. destruct (f a); reflexivity.
Qed.

Lemma surjective (m : M E A) : m = (trace m, outcome m).
Proof. now destruct m. Qed.

End Facts.
End MFacts.

(* ================================================================== *)
(** * Signature inspection *)
(* ================================================================== *)

Lemma required_in_named (params : list Param.t) (name : string) :
  In name (get_required_kwargs_loop params) ->
  In name (get_named_kwargs_loop params).
Proof.
  induction params as [|p params IH]; simpl; auto.
  destruct (kind_eqb (Param.kind p) KEYWORD_ONLY); simpl; auto.
  destruct (is_empty (Param.default p)); simpl; intuition.
Qed.

Lemma filter_named_get (names : list string) (kw acc : dict arg) (k : string) :
  dict_get k (filter_named names kw acc)
  = if existsb (String.eqb k) names
    then match dict_get k kw with
         | Some v => Some v
         | None => dict_get k acc
         end
    else dict_get k acc.
Proof.
  revert acc. induction names as [|n names IH]; intros acc; simpl; auto.
  destruct (dict_get n kw) as [v|] eqn:Hn; rewrite IH.
  - rewrite DictFacts.get_set.
    destruct (String.eqb_spec k n) as [->|Hne]; simpl.
    + rewrite Hn, String.eqb_refl. now destruct (existsb _ names).
    + destruct (String.eqb_spec n k); [congruence|]. reflexivity.
  - destruct (String.eqb_spec k n) as [->|Hne]; simpl; auto.
    rewrite Hn. now destruct (existsb _ names).
Qed.

Lemma existsb_eqb_In (k : string) (names : list string) :
  existsb (String.eqb k) names = true <-> In k names.
Proof.
  rewrite existsb_exists. split.
  - intros [x [Hin Heq]]. apply String.eqb_eq in Heq. now subst.
  - intros Hin. exists k. split; auto. apply String.eqb_refl.
Qed.

(** C10.  The required names computed at registration are among the named
    (keyword-only) ones, so the copy of the named arguments keeps, with its
    value, every required argument that the body or the query supplied. *)
Theorem required_kwargs_kept (app : Application) (f : func) (rh : RequestHandler) :
  RequestHandler_init app f = Ok rh ->
  incl (_required_kwargs rh) (_named_kwargs rh)
  /\ forall (kw : dict arg) (name : string) (v : arg),
       In name (_required_kwargs rh) ->
       dict_get name kw = Some v ->
       dict_get name (filter_named (_named_kwargs rh) kw []) = Some v.
Proof.
  unfold RequestHandler_init. destruct (has_request_arg f); [|discriminate].
  intros H; inversion H; subst; clear H; simpl.
  assert (Hincl : incl (get_required_kwargs f) (get_named_kwargs f)).
  { intros n. apply required_in_named. }
  split; auto.
  intros kw name v Hin Hget.
  rewrite filter_named_get, Hget.
  apply Hincl, existsb_eqb_In in Hin. now rewrite Hin.
Qed.

Lemma required_kwargs_kept_witness :
  incl ["content"] ["content"; "page"]
  /\ dict_get "content"
       (filter_named ["content"; "page"]
          [("spam", AVal PNone); ("content", AVal (PStr "hi"))] [])
     = Some (AVal (PStr "hi")).
Proof.
  pose proof (required_kwargs_kept sample_app create_comment
                create_comment_handler eq_refl) as [Hincl Hkept].
  split.
  - exact Hincl.
  - apply (Hkept [("spam", AVal PNone); ("content", AVal (PStr "hi"))]
                 "content" (AVal (PStr "hi"))).
    + simpl; auto.
    + reflexivity.
Defined.

(** ** The position of the request parameter *)

Lemma has_request_arg_loop_found (fname : string) (params : list Param.t) :
  has_request_arg_loop fname params true
  = if existsb (fun q => negb (is_request q) && positional (Param.kind q))%bool params
    then Raise (ValueError (request_position_msg fname))
    else Ok true.
Proof.
  induction params as [|p params IH]; simpl; auto.
  change (String.eqb (Param.name p) "request") with (is_request p).
  destruct (is_request p); simpl; auto.
  destruct (Param.kind p); simpl; auto.
Qed.

Lemma has_request_arg_loop_not_found (fname : string) (params : list Param.t) :
  has_request_arg_loop fname params false
  = if positional_after_request params
    then Raise (ValueError (request_position_msg fname))
    else Ok (existsb is_request params).
Proof.
  unfold positional_after_request.
  induction params as [|p params IH]; simpl; auto.
  change (String.eqb (Param.name p) "request") with (is_request p).
  destruct (is_request p); simpl.
  - apply has_request_arg_loop_found.
  - exact IH.
Qed.

(** C7, as amended.  Registration raises [ValueError] exactly when a
    positional parameter (positional-only or positional-or-keyword) follows
    the parameter named [request]; a keyword-only or variadic parameter may
    follow it.  Otherwise registration succeeds and records whether some
    parameter is named [request], with the other four results of the
    inspection. *)
Theorem registration_request_position (app : Application) (f : func) :
  RequestHandler_init app f
  = if positional_after_request (parameters f)
    then Raise (ValueError (request_position_msg (__name__ f)))
    else Ok (mk_handler app f (existsb is_request (parameters f))
                        (has_var_kwarg f) (has_named_kwargs f)
                        (get_named_kwargs f) (get_required_kwargs f)).
Proof.
  unfold RequestHandler_init, has_request_arg.
  rewrite has_request_arg_loop_not_found.
  now destruct (positional_after_request (parameters f)).
Qed.

(** The sample handlers are the ones registration builds. *)
Lemma sample_handlers_registered :
  RequestHandler_init sample_app create_comment = Ok create_comment_handler
  /\ RequestHandler_init sample_app show = Ok show_handler
  /\ RequestHandler_init sample_app get_blog = Ok get_blog_handler
  /\ RequestHandler_init sample_app list_comments = Ok list_comments_handler
  /\ RequestHandler_init sample_app register = Ok register_handler
  /\ RequestHandler_init sample_app upload = Ok upload_handler
  /\ RequestHandler_init sample_app get_blog_json = Ok get_blog_json_handler
  /\ RequestHandler_init sample_app get_avatar = Ok get_avatar_handler.
Proof. repeat split. Qed.

(** C7, as stated, fails: in [create_comment(id, request, *, content,
    page='1')] the keyword-only parameter [content], which is named and not
    variadic, follows [request], and registration succeeds. *)
Lemma registration_accepts_keyword_only_after_request :
  named_after_request (parameters create_comment) = true
  /\ RequestHandler_init sample_app create_comment = Ok create_comment_handler.
Proof. split; reflexivity. Qed.

(* ================================================================== *)
(** * Response coercion: status codes *)
(* ================================================================== *)

Lemma outcome_response_factory (py_repr : pyval -> result string) (room : nat)
        (app : Application)
      (handler : Request.t -> M event pyobj) (request : Request.t) :
  outcome (response_factory py_repr room app handler request)
  = match outcome (handler request) with
    | Ok r => coerce py_repr room app r
    | Raise e => Raise e
    end.
Proof.
  unfold response_factory.
  rewrite MFacts.outcome_bind; simpl.
  rewrite MFacts.outcome_bind.
  destruct (outcome (handler request)); auto.
Qed.

Lemma status_code_in_range (n : Z) :
  100 <= n < 600 -> status_code (PInt n) = Some n.
Proof.
  intros [H1 H2]. simpl.
  apply Z.leb_le in H1. apply Z.ltb_lt in H2. now rewrite H1, H2.
Qed.

(** C2, as amended.  An [int] in [100, 600) becomes a response with that
    status and no body; a two-element tuple whose first element is such an
    [int] becomes a response with that status and the [str] of the second
    element as its body, when [str] gives a text that UTF-8 encodes; when
    [str] raises (as it does for an integer beyond the digit limit) or the
    text holds a lone surrogate, the exception leaves the middleware.  So
    [(404, "not found")] gives status 404 and the body text [not found]. *)
Theorem status_coercion (py_repr : pyval -> result string) (room : nat)
        (app : Application) :
  (forall n : Z, 100 <= n < 600 ->
     coerce py_repr room app (Value (PInt n))
     = Ok (Response.mk n None "application/octet-stream" None None))
  /\ (forall (t : Z) (m : pyval), 100 <= t < 600 ->
        coerce py_repr room app (Value (PTuple [PInt t; m]))
        = match py_str py_repr m with
          | Ok text =>
              if well_formed_utf8 text
              then Ok (Response.mk t (Some (encode_utf8 text))
                                   "text/plain" (Some "utf-8") None)
              else Raise (OtherError "UnicodeEncodeError")
          | Raise e => Raise e
          end)
  /\ coerce py_repr room app (Value (PTuple [PInt 404; PStr "not found"]))
     = Ok (Response.mk 404 (Some (encode_utf8 "not found"))
                       "text/plain" (Some "utf-8") None).
Proof.
  split; [|split].
  - intros n Hn. unfold coerce. now rewrite (status_code_in_range n Hn).
  - intros t m Ht. unfold coerce. rewrite (status_code_in_range t Ht).
    unfold status_text, str_encode.
    destruct (py_str py_repr m) as [text|e]; [|reflexivity].
    now destruct (well_formed_utf8 text).
  - reflexivity.
Qed.

Lemma status_coercion_witness :
  coerce sample_repr sample_room sample_app (Value (PInt 204))
  = Ok (Response.mk 204 None "application/octet-stream" None None)
  /\ coerce sample_repr sample_room sample_app (Value (PTuple [PInt 500; PInt 7]))
     = Ok (Response.mk 500 (Some (encode_utf8 "7")) "text/plain" (Some "utf-8") None).
Proof.
  destruct (status_coercion sample_repr sample_room sample_app) as [Hint [Htuple _]].
  split.
  - apply Hint. lia.
  - rewrite (Htuple 500 (PInt 7)) by lia. reflexivity.
Defined.

(** C2, as stated, fails: the list [[404, "not found"]] is a two-element
    sequence whose first element is an [int] in the range, and its response
    has status 200 and the [str] of the list as plain text. *)
Lemma list_is_not_a_status_pair :
  coerce sample_repr sample_room sample_app (Value (PList [PInt 404; PStr "not found"]))
  = Ok (Response.mk 200 (Some (encode_utf8 "[404, 'not found']"))
                    "text/plain;charset=utf-8" None None).
Proof. reflexivity. Qed.

(* ================================================================== *)
(** * The argument binder *)
(* ================================================================== *)

(** Case analysis on an innermost scrutinee of the goal. *)
Ltac case_inner :=
  match goal with
  | |- context [match ?x with _ => _ end] =>
      lazymatch x with
      | context [match _ with _ => _ end] => fail
      | _ => destruct x
      end
  end.

Lemma read_post_trace (request : Request.t) : trace (read_post request) = [].
Proof.
  unfold read_post, bind, lift, ret, trace.
  repeat (case_inner; simpl; try reflexivity).
Qed.

Lemma read_query_trace (request : Request.t) (kw : option (dict arg)) :
  trace (read_query request kw) = [].
Proof.
  unfold read_query, bind, lift, ret, trace.
  repeat (case_inner; simpl; try reflexivity).
Qed.

Lemma read_arguments_trace (rh : RequestHandler) (request : Request.t) :
  trace (read_arguments rh request) = [].
Proof.
  unfold read_arguments.
  destruct (_ || _ || _)%bool; [|reflexivity].
  rewrite MFacts.trace_bind.
  assert (Hposted :
            trace (if String.eqb (Request.method request) "POST"
                   then read_post request else ret (Continue None)) = []).
  { destruct (String.eqb _ _); [apply read_post_trace | reflexivity]. }
  rewrite Hposted.
  destruct (outcome _) as [[kw|r]|e]; simpl; auto.
  destruct (String.eqb (Request.method request) "GET");
    [apply read_query_trace | reflexivity].
Qed.

Lemma overlay_outcome (items : list (string * string)) (kw : dict arg) :
  outcome (overlay items kw) = Ok (overlay_result items kw).
Proof.
  revert kw. induction items as [|[k v] items IH]; intros kw; simpl; auto.
  rewrite MFacts.outcome_bind.
  destruct (dict_contains k kw); simpl; apply IH.
Qed.

Lemma overlay_trace (items : list (string * string)) (kw : dict arg) :
  NoDup (dict_keys items) ->
  trace (overlay items kw)
  = map warning_for (filter (fun k => dict_contains k kw) (dict_keys items)).
Proof.
  revert kw. induction items as [|[k v] items IH]; intros kw Hnd; simpl; auto.
  inversion Hnd as [|? ? Hnotin Hnd']; subst.
  rewrite MFacts.trace_bind.
  assert (Hrest : trace (overlay items (dict_set k (AVal (PStr v)) kw))
                  = map warning_for
                        (filter (fun k' => dict_contains k' kw) (dict_keys items))).
  { rewrite (IH _ Hnd'). f_equal. apply filter_ext_in.
    intros k' Hin. rewrite DictFacts.contains_set.
    destruct (String.eqb_spec k k') as [->|Hne]; [contradiction | reflexivity]. }
  destruct (dict_contains k kw); simpl; now rewrite Hrest.
Qed.

Lemma overlay_get_other (items : list (string * string)) (kw : dict arg) (k : string) :
  ~ In k (dict_keys items) ->
  dict_get k (overlay_result items kw) = dict_get k kw.
Proof.
  revert kw. induction items as [|[k' v'] items IH]; intros kw Hnot; simpl; auto.
  simpl in Hnot. rewrite IH by tauto.
  apply DictFacts.get_set_other. tauto.
Qed.

Lemma overlay_get (items : list (string * string)) (kw : dict arg) (k v : string) :
  NoDup (dict_keys items) -> In (k, v) items ->
  dict_get k (overlay_result items kw) = Some (AVal (PStr v)).
Proof.
  revert kw. induction items as [|[k' v'] items IH]; intros kw Hnd Hin; simpl.
  - destruct Hin.
  - inversion Hnd as [|? ? Hnotin Hnd']; subst. destruct Hin as [Heq|Hin].
    + inversion Heq; subst. rewrite overlay_get_other by assumption.
      apply DictFacts.get_set_same.
    + now apply IH.
Qed.

Lemma overlay_all_warnings (items : list (string * string)) (kw : dict arg) :
  Forall (fun ev => exists text, ev = LogWarning text) (trace (overlay items kw)).
Proof.
  revert kw. induction items as [|[k v] items IH]; intros kw; simpl.
  - constructor.
  - rewrite MFacts.trace_bind.
    destruct (dict_contains k kw); simpl.
    + constructor; [eexists; reflexivity | apply IH].
    + apply IH.
Qed.

Lemma call_arguments_outcome (rh : RequestHandler) (request : Request.t)
      (kw : option (dict arg)) :
  outcome (call_arguments rh request kw) = Ok (final_arguments rh request kw).
Proof.
  unfold call_arguments, final_arguments, merge_arguments, filtered.
  rewrite MFacts.outcome_bind.
  destruct kw as [kw|]; simpl; auto.
  now rewrite overlay_outcome.
Qed.

Lemma call_arguments_trace (rh : RequestHandler) (request : Request.t)
      (kw : option (dict arg)) :
  trace (call_arguments rh request kw)
  = match kw with
    | None => []
    | Some kw => trace (overlay (Request.match_info request) (filtered rh kw))
    end.
Proof.
  unfold call_arguments, merge_arguments, filtered.
  rewrite MFacts.trace_bind.
  destruct kw as [kw|]; simpl; auto.
  rewrite overlay_outcome. simpl. apply List.app_nil_r.
Qed.

Lemma inject_request_get (rh : RequestHandler) (kw : dict arg) (k : string) :
  (k = "request" -> _has_request_arg rh = false) ->
  dict_get k (inject_request rh kw) = dict_get k kw.
Proof.
  intros Hk. unfold inject_request.
  destruct (_has_request_arg rh) eqn:Hreq; auto.
  apply DictFacts.get_set_other. intros Heq. symmetry in Heq.
  specialize (Hk Heq). discriminate.
Qed.

(** C1, as amended.  When the binder read a mapping [kw] from the body or
    the query: if the handler has no [**kw] parameter and has named
    parameters, the mapping is cut down to exactly the named parameters that
    [kw] holds; every path parameter is then written over the result, with
    one warning for each path parameter whose name the mapping already held;
    and in the call arguments each path parameter has its path value, save
    under the key [request] when the handler takes the request object, which
    is stored there afterwards. *)
Theorem path_parameters_override (rh : RequestHandler) (request : Request.t)
        (kw : dict arg) :
  NoDup (dict_keys (Request.match_info request)) ->
  (_has_var_kwarg rh = false -> _named_kwargs rh <> [] ->
   forall k, dict_get k (filtered rh kw)
             = if existsb (String.eqb k) (_named_kwargs rh)
               then dict_get k kw else None)
  /\ exists final,
       outcome (call_arguments rh request (Some kw)) = Ok final
       /\ (forall k v, In (k, v) (Request.match_info request) ->
                       (k = "request" -> _has_request_arg rh = false) ->
                       dict_get k final = Some (AVal (PStr v)))
       /\ (forall k, ~ In k (dict_keys (Request.match_info request)) ->
                     (k = "request" -> _has_request_arg rh = false) ->
                     dict_get k final = dict_get k (filtered rh kw))
       /\ (_has_request_arg rh = true -> dict_get "request" final = Some ARequest)
       /\ trace (call_arguments rh request (Some kw))
          = map warning_for
                (filter (fun k => dict_contains k (filtered rh kw))
                        (dict_keys (Request.match_info request))).
Proof.
  intros Hnd. split.
  - intros Hvar Hnamed k. unfold filtered. rewrite Hvar.
    destruct (_named_kwargs rh) as [|n names] eqn:E; [congruence|].
    cbn [negb andb nonempty]. rewrite filter_named_get.
    destruct (existsb _ _); auto. now destruct (dict_get k kw).
  - exists (final_arguments rh request (Some kw)).
    split; [apply call_arguments_outcome|].
    unfold final_arguments. repeat split.
    + intros k v Hin Hk. rewrite inject_request_get by assumption.
      now apply overlay_get.
    + intros k Hnot Hk. rewrite inject_request_get by assumption.
      now apply overlay_get_other.
    + intros Hreq. unfold inject_request. rewrite Hreq.
      apply DictFacts.get_set_same.
    + rewrite call_arguments_trace. now apply overlay_trace.
Qed.

Lemma path_parameters_override_witness :
  (exists final,
     outcome (call_arguments create_comment_handler comment_request
                             (Some comment_body)) = Ok final
     /\ dict_get "id" final = Some (AVal (PStr "7")))
  /\ dict_get "spam" (filtered create_comment_handler comment_body) = None.
Proof.
  assert (Hnd : NoDup (dict_keys (Request.match_info comment_request))).
  { simpl. constructor; [simpl; tauto | constructor]. }
  destruct (path_parameters_override create_comment_handler comment_request
              comment_body Hnd)
    as [Hfilter [final [Hout [Hpath _]]]].
  split.
  - exists final. split; [exact Hout|].
    apply (Hpath "id" "7"); [simpl; auto | discriminate].
  - rewrite (Hfilter eq_refl); [reflexivity | discriminate].
Defined.

(** C1, as stated, fails at the key [request]: the query and the path both
    give it, the warning is logged and the path value written, and then the
    request object replaces it in the call arguments. *)
Lemma request_object_overrides_path_parameter :
  RequestHandler_init sample_app show = Ok show_handler
  /\ read_arguments show_handler show_request
     = ([], Ok (Continue (Some [("request", AVal (PStr "a"))])))
  /\ merge_arguments show_handler show_request (Some [("request", AVal (PStr "a"))])
     = ([warning_for "request"], Ok [("request", AVal (PStr "b"))])
  /\ call_arguments show_handler show_request (Some [("request", AVal (PStr "a"))])
     = ([warning_for "request"], Ok [("request", ARequest)]).
Proof. repeat split. Qed.

(** ** Content negotiation *)

Lemma read_arguments_of_post (rh : RequestHandler) (request : Request.t)
      (p : flow (option (dict arg))) :
  needs_arguments rh = true ->
  Request.method request = "POST" ->
  read_post request = ([], Ok p) ->
  read_arguments rh request = ([], Ok p).
Proof.
  unfold needs_arguments, read_arguments. intros -> -> ->.
  destruct p; reflexivity.
Qed.

Lemma call_of_return (rh : RequestHandler) (request : Request.t) (r : pyobj) :
  read_arguments rh request = ([], Ok (Return r)) ->
  RequestHandler_call rh request = ([], Ok r).
Proof.
  unfold RequestHandler_call. now intros ->.
Qed.

(** C3, as amended.  For a POST request to a handler that reads arguments:
    when the request reports an empty content type the answer is 400 with
    the text [Missing Content-Type.]; when the lower-cased content type
    starts with [application/json], a parsed body that is not a mapping
    gives 400 and a mapping becomes the arguments read; when it starts with
    [application/x-www-form-urlencoded] or [multipart/form-data], the form
    fields become the arguments read; a content type with none of these
    prefixes gives 400 with the text [Unsupported Content-Type: ] followed by
    the content type (or [UnicodeEncodeError], when that text holds a lone
    surrogate).  A request without a Content-Type header is of the last
    kind: the server library reports [application/octet-stream] for it. *)
Theorem content_negotiation (rh : RequestHandler) (request : Request.t) :
  needs_arguments rh = true ->
  Request.method request = "POST" ->
  (missing_content_type (Request.content_type request) = true ->
   RequestHandler_call rh request
   = ([], Ok (StreamResponse (Response_text 400 "Missing Content-Type."))))
  /\ (Request.content_type request = Some default_content_type ->
      RequestHandler_call rh request
      = ([], Ok (StreamResponse
                   (Response_text 400
                      "Unsupported Content-Type: application/octet-stream"))))
  /\ forall content_type,
       Request.content_type request = Some content_type ->
       content_type <> EmptyString ->
       (startswith (lower content_type) "application/json" = true ->
        (forall v, Request.json request = Ok v ->
                   (forall d, v <> PDict d) ->
                   RequestHandler_call rh request
                   = ([], Ok (StreamResponse
                                (Response_text 400 "JSON body must be object."))))
        /\ (forall d, Request.json request = Ok (PDict d) ->
                      read_arguments rh request
                      = ([], Ok (Continue (Some (dict_map AVal d))))))
       /\ (startswith (lower content_type) "application/json" = false ->
           (startswith (lower content_type) "application/x-www-form-urlencoded"
            || startswith (lower content_type) "multipart/form-data")%bool = true ->
           forall params, Request.post request = Ok params ->
                          read_arguments rh request
                          = ([], Ok (Continue (Some (dict_map AVal params)))))
       /\ (startswith (lower content_type) "application/json" = false ->
           startswith (lower content_type) "application/x-www-form-urlencoded" = false ->
           startswith (lower content_type) "multipart/form-data" = false ->
           RequestHandler_call rh request
           = ([], if well_formed_utf8 ("Unsupported Content-Type: " ++ content_type)
                  then Ok (StreamResponse
                             (Response_text 400
                                ("Unsupported Content-Type: " ++ content_type)))
                  else Raise (OtherError "UnicodeEncodeError"))).
Proof.
  intros Hneeds Hpost.
  assert (Hunsupported :
            forall content_type,
              Request.content_type request = Some content_type ->
              String.eqb content_type EmptyString = false ->
              startswith (lower content_type) "application/json" = false ->
              startswith (lower content_type) "application/x-www-form-urlencoded"
              = false ->
              startswith (lower content_type) "multipart/form-data" = false ->
              RequestHandler_call rh request
              = ([], if well_formed_utf8 ("Unsupported Content-Type: " ++ content_type)
                     then Ok (StreamResponse
                                (Response_text 400
                                   ("Unsupported Content-Type: " ++ content_type)))
                     else Raise (OtherError "UnicodeEncodeError"))).
  { intros content_type Hct Hnonempty Hjson Hform Hmulti.
    unfold RequestHandler_call, read_arguments. unfold needs_arguments in Hneeds.
    rewrite Hneeds, Hpost. simpl String.eqb. cbv iota.
    unfold read_post. rewrite Hct, Hnonempty, Hjson, Hform, Hmulti.
    unfold str_encode, bad_request, HTTPBadRequest.
    now destruct (well_formed_utf8 _). }
  split; [|split].
  - intros Hmissing. apply call_of_return.
    apply read_arguments_of_post; auto.
    unfold read_post. destruct (Request.content_type request) as [c|]; auto.
    simpl in Hmissing. now rewrite Hmissing.
  - intros Hct. now rewrite (Hunsupported default_content_type Hct).
  - intros content_type Hct Hne.
    assert (Hnonempty : String.eqb content_type EmptyString = false).
    { now apply String.eqb_neq. }
    split; [|split].
    + intros Hjson. split.
      * intros v Hv Hnotdict. apply call_of_return.
        apply read_arguments_of_post; auto.
        unfold read_post. rewrite Hct, Hnonempty, Hjson, Hv.
        destruct v; try reflexivity. now elim (Hnotdict d).
      * intros d Hd. apply read_arguments_of_post; auto.
        unfold read_post. now rewrite Hct, Hnonempty, Hjson, Hd.
    + intros Hjson Hform params Hparams. apply read_arguments_of_post; auto.
      unfold read_post. now rewrite Hct, Hnonempty, Hjson, Hform, Hparams.
    + intros Hjson Hform Hmulti. now apply Hunsupported.
Qed.

Lemma content_negotiation_witness :
  RequestHandler_call create_comment_handler post_without_content_type
  = ([], Ok (StreamResponse
               (Response_text 400
                  "Unsupported Content-Type: application/octet-stream")))
  /\ RequestHandler_call create_comment_handler post_empty_content_type
     = ([], Ok (StreamResponse (Response_text 400 "Missing Content-Type."))).
Proof.
  split.
  - apply (content_negotiation create_comment_handler post_without_content_type);
      reflexivity.
  - apply (content_negotiation create_comment_handler post_empty_content_type);
      reflexivity.
Defined.

(** C3, as stated, fails: [application/json-patch+json] is none of the three
    content types, yet its body is read as JSON and the handler is called,
    because the content type is matched by prefix. *)
Lemma json_prefix_is_accepted :
  String.eqb "application/json-patch+json" "application/json" = false
  /\ String.eqb "application/json-patch+json" "application/x-www-form-urlencoded" = false
  /\ String.eqb "application/json-patch+json" "multipart/form-data" = false
  /\ RequestHandler_call create_comment_handler post_json_patch
     = ([LogCallArgs [("content", AVal (PStr "hi")); ("id", AVal (PStr "7"));
                      ("request", ARequest)];
         Invoke [("content", AVal (PStr "hi")); ("id", AVal (PStr "7"));
                 ("request", ARequest)]],
        Ok (Value (PDict [("ok", PBool true)]))).
Proof. repeat split. Qed.

(** ** Required arguments *)

Lemma missing_argument_first (names : list string) (kw : dict arg) (name : string) :
  first_missing names kw name -> missing_argument names kw = Some name.
Proof.
  intros (l1 & l2 & -> & Hbefore & Hname).
  induction l1 as [|n l1 IH]; simpl.
  - now rewrite Hname.
  - rewrite (Hbefore n) by (simpl; auto).
    apply IH. intros n' Hin. apply Hbefore. simpl; auto.
Qed.

Lemma first_missing_only (names : list string) (kw : dict arg) (name : string) :
  In name names ->
  (forall n, In n names -> n <> name -> dict_contains n kw = true) ->
  dict_contains name kw = false ->
  first_missing names kw name.
Proof.
  intros Hin Hothers Hname.
  induction names as [|n names IH]; [destruct Hin|].
  destruct (string_dec n name) as [->|Hne].
  - exists [], names. repeat split; auto; intros ? [].
  - destruct Hin as [Heq|Hin]; [contradiction|].
    destruct IH as (l1 & l2 & -> & Hbefore & _); auto.
    { intros n' Hn' Hne'. apply Hothers; simpl; auto. }
    exists (n :: l1), l2. repeat split; auto.
    intros n' [<-|Hn']; auto. apply Hothers; simpl; auto.
Qed.

Lemma final_arguments_lacks (rh : RequestHandler) (request : Request.t)
      (kw0 : option (dict arg)) (name : string) :
  (name = "request" -> _has_request_arg rh = false) ->
  ~ In name (dict_keys (Request.match_info request)) ->
  (forall d, kw0 = Some d -> ~ In name (dict_keys d)) ->
  dict_contains name (final_arguments rh request kw0) = false.
Proof.
  intros Hreq Hpath Hbody. unfold dict_contains, final_arguments.
  rewrite inject_request_get by assumption.
  apply DictFacts.get_none_keys in Hpath.
  destruct kw0 as [d|].
  - rewrite overlay_get_other by (now apply DictFacts.get_none_keys).
    specialize (Hbody d eq_refl). apply DictFacts.get_none_keys in Hbody.
    unfold filtered. destruct (_ && _)%bool.
    + rewrite filter_named_get, Hbody. now destruct (existsb _ _).
    + now rewrite Hbody.
  - rewrite DictFacts.get_map, Hpath. reflexivity.
Qed.

Lemma call_missing (rh : RequestHandler) (request : Request.t)
      (kw0 : option (dict arg)) (name : string) :
  outcome (read_arguments rh request) = Ok (Continue kw0) ->
  missing_argument (_required_kwargs rh) (final_arguments rh request kw0)
  = Some name ->
  RequestHandler_call rh request
  = (trace (call_arguments rh request kw0),
     Ok (StreamResponse (Response_text 400 ("Missing argument: " ++ name)))).
Proof.
  intros Hread Hmissing.
  rewrite (MFacts.surjective (RequestHandler_call rh request)).
  unfold RequestHandler_call.
  rewrite MFacts.trace_bind, MFacts.outcome_bind, Hread, read_arguments_trace.
  rewrite MFacts.trace_bind, MFacts.outcome_bind, call_arguments_outcome, Hmissing.
  simpl. now rewrite List.app_nil_r.
Qed.

(** C4, as amended.  Once the call arguments [kw] are built, if a required
    name is absent the handler is not called and the response is 400 with
    the text [Missing argument: ] followed by the first required name, in
    the order of the signature, that [kw] lacks.  So a handler that requires
    [id] and gets every other required argument, called with no path
    parameter and no body or query field named [id], answers 400 with
    [Missing argument: id]. *)
Theorem missing_required_argument (rh : RequestHandler) (request : Request.t)
        (kw0 : option (dict arg)) :
  outcome (read_arguments rh request) = Ok (Continue kw0) ->
  exists kw,
    outcome (call_arguments rh request kw0) = Ok kw
    /\ (forall name,
          first_missing (_required_kwargs rh) kw name ->
          outcome (RequestHandler_call rh request)
          = Ok (StreamResponse (Response_text 400 ("Missing argument: " ++ name)))
          /\ forall kw', ~ In (Invoke kw') (trace (RequestHandler_call rh request)))
    /\ (forall name,
          In name (_required_kwargs rh) ->
          (forall n, In n (_required_kwargs rh) -> n <> name ->
                     dict_contains n kw = true) ->
          (name = "request" -> _has_request_arg rh = false) ->
          ~ In name (dict_keys (Request.match_info request)) ->
          (forall d, kw0 = Some d -> ~ In name (dict_keys d)) ->
          outcome (RequestHandler_call rh request)
          = Ok (StreamResponse (Response_text 400 ("Missing argument: " ++ name)))).
Proof.
  intros Hread. exists (final_arguments rh request kw0).
  split; [apply call_arguments_outcome|]. split.
  - intros name Hfirst. apply missing_argument_first in Hfirst.
    rewrite (call_missing rh request kw0 name Hread Hfirst). split; auto.
    intros kw' Hin. simpl in Hin. rewrite call_arguments_trace in Hin.
    destruct kw0 as [d|]; [|destruct Hin].
    pose proof (overlay_all_warnings (Request.match_info request) (filtered rh d))
      as Hall.
    rewrite Forall_forall in Hall. destruct (Hall _ Hin) as [text Htext].
    discriminate.
  - intros name Hin Hothers Hreq Hpath Hbody.
    assert (Hfirst : first_missing (_required_kwargs rh)
                                   (final_arguments rh request kw0) name).
    { apply first_missing_only; auto. now apply final_arguments_lacks. }
    apply missing_argument_first in Hfirst.
    now rewrite (call_missing rh request kw0 name Hread Hfirst).
Qed.

Lemma missing_required_argument_witness :
  outcome (RequestHandler_call get_blog_handler plain_get)
  = Ok (StreamResponse (Response_text 400 "Missing argument: id")).
Proof.
  destruct (missing_required_argument get_blog_handler plain_get None eq_refl)
    as [kw [_ [_ Hid]]].
  apply (Hid "id").
  - simpl; auto.
  - intros n [<-|[]] Hne. now elim Hne.
  - discriminate.
  - simpl; tauto.
  - discriminate.
Defined.

(** C4, as stated, fails: the handler requires [id], the request has no path
    parameter and no query field named [id], and the text of the 400
    response names [page], the first name that is absent. *)
Lemma first_missing_name_is_reported :
  RequestHandler_init sample_app list_comments = Ok list_comments_handler
  /\ RequestHandler_call list_comments_handler plain_get
     = ([], Ok (StreamResponse (Response_text 400 "Missing argument: page")))
  /\ contains "Missing argument: page" "Missing argument: id" = false.
Proof. repeat split. Qed.

(** ** Application errors *)

Lemma call_invoked (rh : RequestHandler) (request : Request.t)
      (kw0 : option (dict arg)) (kw : dict arg) :
  outcome (read_arguments rh request) = Ok (Continue kw0) ->
  outcome (call_arguments rh request kw0) = Ok kw ->
  missing_argument (_required_kwargs rh) kw = None ->
  outcome (RequestHandler_call rh request) = outcome (invoke rh kw).
Proof.
  intros Hread Hkw Hmissing. unfold RequestHandler_call.
  rewrite MFacts.outcome_bind, Hread, MFacts.outcome_bind, Hkw, Hmissing.
  reflexivity.
Qed.

(** C5, as amended.  When the handler, called with the arguments built for
    the request, raises [APIError], the error is caught and the handler
    result is the mapping of its [error], [data] and [msg] under the keys
    [error], [data] and [message]; when these three values can be
    serialized and the serialized text holds no lone surrogate, the response
    has status 200, the content type [application/json;charset=utf-8] and
    the serialized mapping as its body; when the text holds a lone
    surrogate, encoding it raises [UnicodeEncodeError]. *)
Theorem api_error_response (py_repr : pyval -> result string) (room : nat)
        (app : Application)
        (rh : RequestHandler) (request : Request.t)
        (kw0 : option (dict arg)) (kw : dict arg)
        (error data msg : pyval) (text : string) :
  outcome (read_arguments rh request) = Ok (Continue kw0) ->
  outcome (call_arguments rh request kw0) = Ok kw ->
  missing_argument (_required_kwargs rh) kw = None ->
  call (_func rh) kw = Raise (APIError error data msg) ->
  json_dumps room (error_mapping error data msg) = Ok text ->
  outcome (RequestHandler_call rh request) = Ok (Value (error_mapping error data msg))
  /\ outcome (response_factory py_repr room app (RequestHandler_call rh) request)
     = if well_formed_utf8 text
       then Ok (Response.mk 200 (Some (encode_utf8 text))
                            "application/json;charset=utf-8" None None)
       else Raise (OtherError "UnicodeEncodeError").
Proof.
  intros Hread Hkw Hmissing Hcall Hdumps.
  assert (Hout : outcome (RequestHandler_call rh request)
                 = Ok (Value (error_mapping error data msg))).
  { rewrite (call_invoked rh request kw0 kw Hread Hkw Hmissing).
    unfold invoke. rewrite !MFacts.outcome_bind. simpl. now rewrite Hcall. }
  split; auto.
  rewrite outcome_response_factory, Hout.
  unfold error_mapping in *. unfold coerce. cbn [dict_get String.eqb Ascii.eqb Bool.eqb].
  rewrite Hdumps. unfold encoded, str_encode.
  now destruct (well_formed_utf8 text).
Qed.

Lemma api_error_response_witness :
  outcome (response_factory sample_repr sample_room sample_app
             (RequestHandler_call register_handler) plain_get)
  = Ok (Response.mk 200 (Some (encode_utf8 register_error_text))
                    "application/json;charset=utf-8" None None).
Proof.
  exact (proj2 (api_error_response sample_repr sample_room sample_app register_handler
                  plain_get None [("request", ARequest)]
                  (PStr "value: invalid") (PStr "email") (PStr "Invalid email.")
                  register_error_text eq_refl eq_refl eq_refl eq_refl eq_refl)).
Defined.

(** C5, as stated, fails: the [data] of this [APIError] is a [bytes] object,
    the serialization of the mapping raises, and the request ends with that
    exception instead of a response with status 200. *)
Lemma api_error_with_bytes_is_not_answered :
  RequestHandler_init sample_app upload = Ok upload_handler
  /\ outcome (RequestHandler_call upload_handler plain_get)
     = Ok (Value (error_mapping (PStr "upload: rejected")
                                (PBytes ["/"%byte; "*"%byte])
                                (PStr "not an image")))
  /\ outcome (response_factory sample_repr sample_room sample_app
                (RequestHandler_call upload_handler) plain_get)
     = Raise (AttributeError no_dict_msg).
Proof. repeat split. Qed.

(* ================================================================== *)
(** * The metaclass: primary keys and SQL templates *)
(* ================================================================== *)

Lemma collect_fields_found (table_name : string) (items : dict attr)
      (mappings : dict Field.t) (pk : string) (fields : list string) :
  pk <> EmptyString ->
  collect_fields table_name items mappings (Some pk) fields
  = match primary_keys items with
    | [] => Ok (mappings_of items mappings, Some pk,
                (fields ++ plain_fields items)%list)
    | k :: _ => Raise (DuplicatePrimaryKeyError (duplicate_pk_msg table_name k))
    end.
Proof.
  intros Hpk. apply String.eqb_neq in Hpk.
  revert mappings fields.
  induction items as [|[k [v|o]] items IH]; intros mappings fields; simpl.
  - now rewrite List.app_nil_r.
  - destruct (Field.primary_key v).
    + now rewrite Hpk.
    + rewrite IH, <- List.app_assoc. reflexivity.
  - apply IH.
Qed.

Lemma collect_fields_none (table_name : string) (items : dict attr)
      (mappings : dict Field.t) (fields : list string) :
  Forall (fun kv => fst kv <> EmptyString) items ->
  collect_fields table_name items mappings None fields
  = match primary_keys items with
    | [] => Ok (mappings_of items mappings, None,
                (fields ++ plain_fields items)%list)
    | [pk] => Ok (mappings_of items mappings, Some pk,
                  (fields ++ plain_fields items)%list)
    | _ :: k :: _ => Raise (DuplicatePrimaryKeyError (duplicate_pk_msg table_name k))
    end.
Proof.
  revert mappings fields.
  induction items as [|[k [v|o]] items IH]; intros mappings fields Hnames; simpl.
  - now rewrite List.app_nil_r.
  - inversion Hnames as [|? ? Hk Hrest]; subst. simpl in Hk.
    destruct (Field.primary_key v).
    + rewrite collect_fields_found by exact Hk.
      now destruct (primary_keys items).
    + rewrite IH, <- List.app_assoc by assumption. reflexivity.
  - inversion Hnames; subst. now apply IH.
Qed.

Lemma mappings_of_keeps (items : dict attr) (mappings : dict Field.t) (f : string) :
  dict_contains f mappings = true ->
  dict_contains f (mappings_of items mappings) = true.
Proof.
  revert mappings. induction items as [|[k [v|o]] items IH]; intros mappings H;
    simpl; auto.
  apply IH. rewrite DictFacts.contains_set, H. apply orb_true_r.
Qed.

Lemma mappings_of_plain (items : dict attr) (mappings : dict Field.t) (f : string) :
  In f (plain_fields items) ->
  dict_contains f (mappings_of items mappings) = true.
Proof.
  revert mappings. induction items as [|[k [v|o]] items IH]; intros mappings H.
  - destruct H.
  - simpl in *. destruct (Field.primary_key v); auto.
    destruct H as [->|H]; auto.
    apply mappings_of_keeps. rewrite DictFacts.contains_set.
    now rewrite String.eqb_refl.
  - simpl in *. auto.
Qed.

Lemma update_columns_ok (mappings : dict Field.t) (fields : list string) :
  (forall f, In f fields -> dict_contains f mappings = true) ->
  update_columns mappings fields
  = Ok (map (fun f => backtick (column_of mappings f) ++ "=?") fields).
Proof.
  induction fields as [|f fields IH]; intros H; simpl; auto.
  assert (Hf : dict_contains f mappings = true) by (apply H; simpl; auto).
  unfold dict_contains in Hf. unfold column_of at 1.
  destruct (dict_get f mappings) as [fld|]; [|discriminate].
  rewrite IH; auto. intros f' Hin. apply H. simpl; auto.
Qed.

(** C8, as amended.  For a class that is not named [Model] (the name by
    which the metaclass knows the base class), with attribute names that are
    not empty: without a field marked primary key the definition raises
    [PrimaryKeyNotFoundError]; with two or more it raises
    [DuplicatePrimaryKeyError] at the second; with exactly one the class is
    created with its primary key, its other fields and the four SQL
    templates. *)
Theorem primary_key_count (name : string) (attrs : Namespace.t) :
  name <> "Model" ->
  Forall (fun kv => fst kv <> EmptyString) (Namespace.members attrs) ->
  let table := or_else (Namespace.table attrs) name in
  let fields := plain_fields (Namespace.members attrs) in
  match primary_keys (Namespace.members attrs) with
  | [] =>
      ModelMetaClass_new name attrs
      = Raise (PrimaryKeyNotFoundError (pk_not_found_msg table))
  | [pk] =>
      exists m,
        ModelMetaClass_new name attrs = Ok (EntityClass m)
        /\ Model.__table__ m = table
        /\ Model.__primary_key__ m = pk
        /\ Model.__fields__ m = fields
        /\ Model.__select__ m
           = "select " ++ backtick pk ++ ", " ++ join ", " (map backtick fields)
               ++ " from " ++ backtick table
        /\ Model.__insert__ m
           = "insert into " ++ backtick table ++ " ("
               ++ join ", " (map backtick fields) ++ ", " ++ backtick pk
               ++ ") values (" ++ create_args_str (List.length fields + 1) ++ ")"
        /\ Model.__update__ m
           = "update " ++ backtick table ++ " set "
               ++ join ", " (map (fun f => backtick (column_of (Model.__mappings__ m) f)
                                             ++ "=?") fields)
               ++ " where " ++ backtick pk ++ "=?"
        /\ Model.__delete__ m
           = "delete from " ++ backtick table ++ " where " ++ backtick pk ++ "=?"
  | _ :: k :: _ =>
      ModelMetaClass_new name attrs
      = Raise (DuplicatePrimaryKeyError (duplicate_pk_msg table k))
  end.
Proof.
  intros Hname Hnames table fields. subst table fields.
  apply String.eqb_neq in Hname.
  unfold ModelMetaClass_new. rewrite Hname.
  rewrite (collect_fields_none _ _ _ _ Hnames). simpl.
  destruct (primary_keys (Namespace.members attrs)) as [|pk [|k rest]] eqn:Hpks;
    auto.
  assert (Hpk : pk <> EmptyString).
  { clear - Hnames Hpks. revert Hpks.
    induction (Namespace.members attrs) as [|[k [v|o]] items IH]; intros Hpks;
      simpl in Hpks; try discriminate; inversion Hnames; subst; auto.
    destruct (Field.primary_key v); auto.
    inversion Hpks; subst. assumption. }
  apply String.eqb_neq in Hpk. rewrite Hpk.
  rewrite update_columns_ok by (intros f Hf; now apply mappings_of_plain).
  eexists. split; [reflexivity|]. simpl.
  rewrite List.length_map. repeat split; reflexivity.
Qed.

Lemma primary_key_count_witness :
  exists m,
    ModelMetaClass_new "User" User_attrs = Ok (EntityClass m)
    /\ Model.__table__ m = "users"
    /\ Model.__primary_key__ m = "id"
    /\ Model.__fields__ m = ["name"; "email"]
    /\ Model.__select__ m = "select `id`, `name`, `email` from `users`"
    /\ Model.__insert__ m
       = "insert into `users` (`name`, `email`, `id`) values (?,?,?)"
    /\ Model.__update__ m = "update `users` set `name`=?, `mail`=? where `id`=?"
    /\ Model.__delete__ m = "delete from `users` where `id`=?".
Proof.
  assert (Hname : "User" <> "Model") by discriminate.
  assert (Hnames : Forall (fun kv : string * attr => fst kv <> EmptyString)
                          (Namespace.members User_attrs)).
  { repeat constructor; discriminate. }
  pose proof (primary_key_count "User" User_attrs Hname Hnames) as H.
  simpl in H. destruct H as [m [Hm H]].
  exists m. split; [exact Hm|].
  inversion Hm; subst m; clear Hm. repeat split; reflexivity.
Defined.

(** C8, as stated, fails: an entity class that is itself named [Model] is
    created as it stands, without a primary key and without templates. *)
Lemma class_named_Model_is_not_checked :
  primary_keys [("name", AField (StringField None "varchar(50)" false PNone))] = []
  /\ ModelMetaClass_new "Model"
       (Namespace.mk (Some "car_models")
          [("name", AField (StringField None "varchar(50)" false PNone))])
     = Ok (PlainClass "Model"
             (Namespace.mk (Some "car_models")
                [("name", AField (StringField None "varchar(50)" false PNone))])).
Proof. split; reflexivity. Qed.

(* ================================================================== *)
(** * execute and select *)
(* ================================================================== *)

Lemma execute_without_pool (sql : string) (args : option (list pyval))
      (autocommit : bool) :
  execute None sql args autocommit = ([LogSQL sql], Raise pool_missing).
Proof. reflexivity. Qed.

Lemma select_without_pool (sql : string) (args : option (list pyval))
      (size : option Z) :
  select None sql args size = ([LogSQL sql], Raise pool_missing).
Proof. reflexivity. Qed.

Lemma execute_commits (conn : connection) (sql : string)
      (args : option (list pyval)) (affected : Z) :
  begin conn = Ok tt ->
  cursor_execute conn (replace_placeholders sql) args = Ok affected ->
  commit conn = Ok tt ->
  execute (Some conn) sql args false
  = ([LogSQL sql; Acquire; Begin; CursorOpen;
      CursorExecute (replace_placeholders sql) args; CursorClose; Commit; Release],
     Ok affected).
Proof.
  intros Hbegin Hexec Hcommit.
  unfold execute, finally, try_except, bind, emit, lift, ret. simpl.
  rewrite Hbegin. simpl. rewrite Hexec. simpl. rewrite Hcommit. reflexivity.
Qed.

Lemma execute_rolls_back (conn : connection) (sql : string)
      (args : option (list pyval)) (msg : string) :
  begin conn = Ok tt ->
  cursor_execute conn (replace_placeholders sql) args
  = Raise (SqlExecutionError msg) ->
  rollback conn = Ok tt ->
  execute (Some conn) sql args false
  = ([LogSQL sql; Acquire; Begin; CursorOpen;
      CursorExecute (replace_placeholders sql) args; CursorClose; Rollback; Release],
     Raise (SqlExecutionError msg)).
Proof.
  intros Hbegin Hexec Hrollback.
  unfold execute, finally, try_except, bind, emit, lift, ret. simpl.
  rewrite Hbegin. simpl. rewrite Hexec. simpl. rewrite Hrollback. reflexivity.
Qed.

(** C9, at the failing input.  When the statement fails with an exception
    that is not the [SqlExecutionError] of [custom_errors.py], as every error
    of the driver is, [execute] with [autocommit] false begins the
    transaction, runs the statement, and lets the exception through without
    a rollback. *)
Theorem driver_error_is_not_rolled_back (conn : connection) (sql : string)
        (args : option (list pyval)) (e : exn) :
  begin conn = Ok tt ->
  cursor_execute conn (replace_placeholders sql) args = Raise e ->
  is_sql_execution_error e = false ->
  execute (Some conn) sql args false
  = ([LogSQL sql; Acquire; Begin; CursorOpen;
      CursorExecute (replace_placeholders sql) args; CursorClose; Release],
     Raise e).
Proof.
  intros Hbegin Hexec He.
  unfold execute, finally, try_except, bind, emit, lift, ret. simpl.
  rewrite Hbegin. simpl. rewrite Hexec. simpl.
  destruct e; try discriminate; reflexivity.
Qed.

Lemma driver_error_is_not_rolled_back_witness :
  execute (Some failing_connection)
          "insert into `users` (`name`, `id`) values (?,?)"
          (Some [PStr "bob"; PInt 1]) false
  = ([LogSQL "insert into `users` (`name`, `id`) values (?,?)"; Acquire; Begin;
      CursorOpen;
      CursorExecute "insert into `users` (`name`, `id`) values (%s,%s)"
                    (Some [PStr "bob"; PInt 1]);
      CursorClose; Release],
     Raise (OtherError "pymysql.err.IntegrityError")).
Proof.
  apply (driver_error_is_not_rolled_back failing_connection
           "insert into `users` (`name`, `id`) values (?,?)"
           (Some [PStr "bob"; PInt 1])
           (OtherError "pymysql.err.IntegrityError"));
    reflexivity.
Defined.

(* ================================================================== *)
(** * JSON: what json.dumps writes, json.loads reads back *)
(* ================================================================== *)

Module StringFacts.

Lemma append_assoc (a b c : string) : ((a ++ b) ++ c = a ++ (b ++ c))%string.
Proof. induction a as [|x a IH]; simpl; [reflexivity | now rewrite IH]. Qed.

Lemma append_nil_r (a : string) : (a ++ EmptyString = a)%string.
Proof. induction a as [|x a IH]; simpl; [reflexivity | now rewrite IH]. Qed.

Lemma length_append (a b : string) :
  String.length (a ++ b) = (String.length a + String.length b)%nat.
Proof. induction a as [|x a IH]; simpl; [reflexivity | now rewrite IH]. Qed.

End StringFacts.

Module Utf8Facts.

Lemma well_formed_append_bounded (b : string) (n : nat) :
  forall a, (String.length a <= n)%nat -> well_formed_utf8 a = true ->
            well_formed_utf8 (a ++ b) = well_formed_utf8 b.
Proof.
  induction n as [|n IH]; intros a Hlen Ha.
  - destruct a; [reflexivity | simpl in Hlen; lia].
  - destruct a as [|c1 a]; [reflexivity|].
    simpl in Hlen. simpl in Ha. simpl.
    destruct (byte_in 0 127 c1). { apply IH; [lia | exact Ha]. }
    destruct a as [|c2 a]; [discriminate|].
    simpl in Hlen. simpl.
    destruct (byte_in 194 223 c1).
    { apply andb_true_iff in Ha as [Hc Ha]. rewrite Hc. apply IH; [lia | exact Ha]. }
    destruct a as [|c3 a]; [discriminate|].
    simpl in Hlen. simpl.
    destruct (three_bytes c1 c2).
    { apply andb_true_iff in Ha as [Hc Ha]. rewrite Hc. apply IH; [lia | exact Ha]. }
    destruct a as [|c4 a]; [discriminate|].
    simpl in Hlen. simpl.
    apply andb_true_iff in Ha as [Hc Ha]. rewrite Hc. apply IH; [lia | exact Ha].
Qed.

Lemma well_formed_append (a b : string) :
  well_formed_utf8 a = true -> well_formed_utf8 (a ++ b) = well_formed_utf8 b.
Proof. apply (well_formed_append_bounded b (String.length a)). lia. Qed.

Lemma ascii_well_formed (s : string) :
  ascii_text s = true -> well_formed_utf8 s = true.
Proof.
  induction s as [|c s IH]; simpl; auto.
  intros H. apply andb_true_iff in H as [Hc Hs]. rewrite Hc. auto.
Qed.

Lemma ascii_text_append (a b : string) :
  ascii_text (a ++ b) = (ascii_text a && ascii_text b)%bool.
Proof.
  induction a as [|c a IH]; simpl; auto. rewrite IH. now rewrite andb_assoc.
Qed.

Lemma escape_char_ascii (c : ascii) :
  byte_in 0 127 c = true -> ascii_text (escape_char c) = true.
Proof.
  destruct c as [[] [] [] [] [] [] [] []]; intros H; try discriminate H; reflexivity.
Qed.

Lemma escape_char_high (c : ascii) :
  byte_in 0 127 c = false -> escape_char c = String c EmptyString.
Proof.
  destruct c as [[] [] [] [] [] [] [] []]; intros H; try discriminate H; reflexivity.
Qed.

Lemma continuation_high (c : ascii) :
  continuation c = true -> byte_in 0 127 c = false.
Proof.
  unfold continuation, byte_in. intros H.
  apply andb_true_iff in H as [H _]. apply N.leb_le in H.
  apply andb_false_iff. right. apply N.leb_gt. lia.
Qed.

Lemma three_bytes_high (c1 c2 : ascii) :
  three_bytes c1 c2 = true -> byte_in 0 127 c2 = false.
Proof.
  unfold three_bytes, continuation, byte_in. intros H.
  apply andb_false_iff. right. apply N.leb_gt.
  repeat (apply orb_true_iff in H as [H|H]);
    apply andb_true_iff in H as [_ H]; apply andb_true_iff in H as [H _];
    apply N.leb_le in H; lia.
Qed.

Lemma four_bytes_high (c1 c2 : ascii) :
  four_bytes c1 c2 = true -> byte_in 0 127 c2 = false.
Proof.
  unfold four_bytes, continuation, byte_in. intros H.
  apply andb_false_iff. right. apply N.leb_gt.
  repeat (apply orb_true_iff in H as [H|H]);
    apply andb_true_iff in H as [_ H]; apply andb_true_iff in H as [H _];
    apply N.leb_le in H; lia.
Qed.

Lemma escape_chars_high (c : ascii) (s : string) :
  byte_in 0 127 c = false ->
  escape_chars (String c s) = String c (escape_chars s).
Proof. intros H. simpl. now rewrite (escape_char_high c H). Qed.

(** Escaping keeps a text well formed: only ASCII characters are
    replaced, by ASCII text. *)
Lemma escape_chars_well_formed_bounded (n : nat) :
  forall s, (String.length s <= n)%nat -> well_formed_utf8 s = true ->
            well_formed_utf8 (escape_chars s) = true.
Proof.
  induction n as [|n IH]; intros s Hlen Hs.
  - destruct s; [reflexivity | simpl in Hlen; lia].
  - destruct s as [|c1 s]; [reflexivity|].
    simpl in Hlen. simpl in Hs.
    destruct (byte_in 0 127 c1) eqn:H1.
    { simpl. rewrite well_formed_append
        by now apply ascii_well_formed, escape_char_ascii.
      apply IH; [lia | exact Hs]. }
    rewrite (escape_chars_high c1 s H1).
    destruct s as [|c2 s]; [discriminate|]. simpl in Hlen.
    destruct (byte_in 194 223 c1) eqn:H2.
    { apply andb_true_iff in Hs as [Hc Hs].
      rewrite (escape_chars_high c2 s (continuation_high c2 Hc)).
      simpl. rewrite H1, H2, Hc. apply IH; [lia | exact Hs]. }
    destruct s as [|c3 s]; [discriminate|]. simpl in Hlen.
    destruct (three_bytes c1 c2) eqn:H3.
    { apply andb_true_iff in Hs as [Hc Hs].
      rewrite (escape_chars_high c2 _ (three_bytes_high c1 c2 H3)).
      rewrite (escape_chars_high c3 s (continuation_high c3 Hc)).
      simpl. rewrite H1, H2, H3, Hc. apply IH; [lia | exact Hs]. }
    destruct s as [|c4 s]; [discriminate|]. simpl in Hlen.
    apply andb_true_iff in Hs as [Hc Hs].
    apply andb_true_iff in Hc as [Hc Hc4].
    apply andb_true_iff in Hc as [H4 Hc3].
    rewrite (escape_chars_high c2 _ (four_bytes_high c1 c2 H4)).
    rewrite (escape_chars_high c3 _ (continuation_high c3 Hc3)).
    rewrite (escape_chars_high c4 s (continuation_high c4 Hc4)).
    simpl. rewrite H1, H2, H3, H4, Hc3, Hc4. apply IH; [lia | exact Hs].
Qed.

Lemma escape_chars_well_formed (s : string) :
  well_formed_utf8 s = true -> well_formed_utf8 (escape_chars s) = true.
Proof. apply (escape_chars_well_formed_bounded (String.length s)). lia. Qed.

Lemma encode_basestring_well_formed (s : string) :
  well_formed_utf8 s = true -> well_formed_utf8 (encode_basestring s) = true.
Proof.
  intros Hs. unfold encode_basestring.
  change (String dquote (escape_chars s ++ String dquote EmptyString))
    with (String dquote EmptyString ++ (escape_chars s ++ String dquote EmptyString)).
  rewrite well_formed_append by reflexivity.
  now rewrite well_formed_append by now apply escape_chars_well_formed.
Qed.

Lemma join_well_formed (sep : string) (l : list string) :
  well_formed_utf8 sep = true ->
  Forall (fun s => well_formed_utf8 s = true) l ->
  well_formed_utf8 (join sep l) = true.
Proof.
  intros Hsep Hl. induction Hl as [|x l Hx Hl IH]; [reflexivity|].
  destruct l as [|y l]; [exact Hx|].
  change (join sep (x :: y :: l)) with (x ++ sep ++ join sep (y :: l)).
  now rewrite !well_formed_append.
Qed.

End Utf8Facts.

(** Induction on values, through the lists and dicts they hold. *)
Lemma pyval_nested_ind (P : pyval -> Prop) :
  P PNone ->
  (forall b, P (PBool b)) ->
  (forall z, P (PInt z)) ->
  (forall r, P (PFloat r)) ->
  (forall s, P (PStr s)) ->
  (forall b, P (PBytes b)) ->
  (forall l, Forall P l -> P (PList l)) ->
  (forall l, Forall P l -> P (PTuple l)) ->
  (forall d, Forall (fun kv => P (snd kv)) d -> P (PDict d)) ->
  (forall o, match o with
             | Some d => Forall (fun kv => P (snd kv)) d
             | None => True
             end -> P (PObject o)) ->
  forall v, P v.
Proof.
  intros HNone HBool HInt HFloat HStr HBytes HList HTuple HDict HObject.
  fix IH 1. intros v.
  destruct v as [|b|z|r|s|b|l|l|d|[d|]].
  - exact HNone.
  - apply HBool.
  - apply HInt.
  - apply HFloat.
  - apply HStr.
  - apply HBytes.
  - apply HList. induction l as [|x l IHl]; constructor; [apply IH | exact IHl].
  - apply HTuple. induction l as [|x l IHl]; constructor; [apply IH | exact IHl].
  - apply HDict. induction d as [|[k x] d IHd]; constructor; [apply IH | exact IHd].
  - apply HObject.
    induction d as [|[k x] d IHd]; constructor; [apply IH | exact IHd].
  - apply HObject. exact I.
Qed.

Module JsonFacts.

Section Reading.

Variable py_float : string -> string.

(** ** Strings *)

Lemma scanstring_escape_char (c : ascii) (tail : string) :
  scanstring (escape_char c ++ tail)
  = prepend (String c EmptyString) (scanstring tail).
Proof.
  destruct c as [[] [] [] [] [] [] [] []]; reflexivity.
Qed.

Lemma scanstring_escape_chars (s rest : string) :
  scanstring (escape_chars s ++ String dquote rest) = Some (s, rest).
Proof.
  induction s as [|c s IH]; simpl.
  - reflexivity.
  - rewrite StringFacts.append_assoc, scanstring_escape_char, IH. reflexivity.
Qed.

Lemma encode_basestring_append (s rest : string) :
  (encode_basestring s ++ rest
   = String dquote (escape_chars s ++ String dquote rest))%string.
Proof.
  unfold encode_basestring. simpl. now rewrite StringFacts.append_assoc.
Qed.

(** ** Integers *)

Lemma ends_number_frac_or_exp (rest : string) :
  ends_number rest = true -> frac_or_exp rest = false.
Proof.
  destruct rest as [|c [|d r]]; simpl; auto.
  destruct (Ascii.eqb c "."), (Ascii.eqb c "e"), (Ascii.eqb c "E");
    rewrite ?orb_true_r; simpl; try discriminate; auto.
Qed.

Lemma take_digits_string_of_uint (d : uint) (rest : string) :
  ends_number rest = true ->
  take_digits (NilEmpty.string_of_uint d ++ rest) = (d, rest).
Proof.
  intros Hrest. induction d; simpl; try (rewrite IHd; reflexivity).
  destruct rest as [|c r]; simpl; auto.
  simpl in Hrest. unfold is_digit in Hrest.
  destruct (digit_of c); [discriminate | reflexivity].
Qed.

Lemma unorm_to_uint (p : positive) : unorm (Pos.to_uint p) = Pos.to_uint p.
Proof.
  rewrite <- (DecimalPos.Unsigned.to_of (Pos.to_uint p)).
  now rewrite DecimalPos.Unsigned.of_to.
Qed.

(** The digits of a positive number do not start with a zero. *)
Lemma to_uint_head (p : positive) :
  match Pos.to_uint p with
  | Nil | D0 _ => False
  | _ => True
  end.
Proof.
  pose proof (unorm_to_uint p) as Hnorm.
  pose proof (DecimalPos.Unsigned.to_uint_nonnil p) as Hnil.
  pose proof (DecimalPos.Unsigned.to_uint_nonzero p) as Hzero.
  destruct (Pos.to_uint p) as [|u| | | | | | | | |]; auto.
  destruct (uint_eq_dec u Nil) as [->|Hu]; [apply Hzero; reflexivity|].
  pose proof (nb_digits_unorm u Hu) as Hle.
  rewrite unorm_D0 in Hnorm. rewrite Hnorm in Hle. simpl in Hle. lia.
Qed.

Lemma match_integer_to_uint (p : positive) (rest : string) :
  ends_number rest = true ->
  match_integer (NilEmpty.string_of_uint (Pos.to_uint p) ++ rest)
  = Some (Pos.to_uint p, rest).
Proof.
  intros Hrest. pose proof (to_uint_head p) as Hhead.
  pose proof (take_digits_string_of_uint (Pos.to_uint p) rest Hrest) as Htake.
  destruct (Pos.to_uint p) as [|u|u|u|u|u|u|u|u|u|u]; try contradiction;
    simpl in *; unfold match_integer; simpl; now rewrite Htake.
Qed.

Lemma string_of_uint_to_uint (p : positive) :
  NilZero.string_of_uint (Pos.to_uint p) = NilEmpty.string_of_uint (Pos.to_uint p).
Proof.
  pose proof (DecimalPos.Unsigned.to_uint_nonnil p).
  now destruct (Pos.to_uint p).
Qed.

Lemma match_signed_str_of_int (z : Z) (rest : string) :
  ends_number rest = true ->
  match_signed (str_of_int z ++ rest) = Some (Z.to_int z, rest).
Proof.
  intros Hrest. unfold str_of_int. destruct z as [|p|p]; simpl.
  - reflexivity.
  - rewrite string_of_uint_to_uint.
    pose proof (match_integer_to_uint p rest Hrest) as Hint.
    pose proof (to_uint_head p) as Hhead.
    unfold match_signed.
    destruct (NilEmpty.string_of_uint (Pos.to_uint p) ++ rest)%string as [|c s] eqn:E.
    + simpl in Hint. discriminate.
    + assert (Hminus : Ascii.eqb c "-" = false).
      { destruct (Pos.to_uint p); try contradiction; simpl in E; inversion E;
          reflexivity. }
      now rewrite Hminus, Hint.
  - rewrite string_of_uint_to_uint.
    now rewrite (match_integer_to_uint p rest Hrest).
Qed.

Lemma match_number_str_of_int (z : Z) (rest : string) :
  int_fits (Z.to_int z) = true ->
  ends_number rest = true ->
  match_number py_float (str_of_int z ++ rest) = Some (PInt z, rest).
Proof.
  intros Hfits Hrest. unfold match_number.
  rewrite (match_signed_str_of_int z rest Hrest).
  rewrite (ends_number_frac_or_exp rest Hrest), Hfits.
  now rewrite DecimalZ.of_to.
Qed.

(** ** Floats *)

Lemma ends_number_digit (rest : string) :
  ends_number rest = true ->
  match rest with
  | EmptyString => True
  | String c _ => is_digit c = false /\ Ascii.eqb c "." = false
                  /\ Ascii.eqb c "e" = false /\ Ascii.eqb c "E" = false
  end.
Proof.
  destruct rest as [|c r]; simpl; auto.
  intros H. apply negb_true_iff in H.
  repeat (apply orb_false_iff in H as [H ?]). auto.
Qed.

Lemma span_digits_append (s rest ds r : string) :
  ends_number rest = true ->
  span_digits s = (ds, r) ->
  span_digits (s ++ rest) = (ds, r ++ rest).
Proof.
  intros Hrest. revert ds r.
  induction s as [|c s IH]; intros ds r H; simpl in *.
  - inversion H; subst. simpl.
    apply ends_number_digit in Hrest.
    destruct rest as [|c r]; [reflexivity|].
    destruct Hrest as [Hd _]. simpl. now rewrite Hd.
  - destruct (is_digit c).
    + destruct (span_digits s) as [ds' r'] eqn:E.
      inversion H; subst. now rewrite (IH ds' r eq_refl).
    + inversion H; subst. reflexivity.
Qed.

Lemma take_digits_append (s rest : string) (d : uint) (c : ascii) (r : string) :
  take_digits s = (d, String c r) ->
  take_digits (s ++ rest) = (d, String c r ++ rest).
Proof.
  revert d.
  induction s as [|c0 s IH]; intros d H; simpl in *.
  - inversion H.
  - destruct (digit_of c0) as [dc|].
    + destruct (take_digits s) as [d' r'] eqn:E.
      inversion H; subst. now rewrite (IH d' eq_refl).
    + inversion H; subst. reflexivity.
Qed.

Lemma match_integer_append (s rest : string) (d : uint) (c : ascii) (r : string) :
  match_integer s = Some (d, String c r) ->
  match_integer (s ++ rest) = Some (d, String c r ++ rest).
Proof.
  unfold match_integer. destruct s as [|c0 s]; [discriminate|]. cbn [String.append].
  destruct (Ascii.eqb c0 "0").
  - intros H. inversion H; subst. reflexivity.
  - destruct (is_digit c0); [|discriminate].
    intros H.
    assert (H' : take_digits (String c0 s) = (d, String c r)) by congruence.
    change (String c0 (s ++ rest)) with (String c0 s ++ rest).
    now rewrite (take_digits_append _ rest d c r H').
Qed.

Lemma match_signed_append (s rest : string) (i : Decimal.int) (c : ascii)
      (r : string) :
  match_signed s = Some (i, String c r) ->
  match_signed (s ++ rest) = Some (i, String c r ++ rest).
Proof.
  unfold match_signed. destruct s as [|c0 s]; [discriminate|]. cbn [String.append].
  destruct (Ascii.eqb c0 "-").
  - destruct (match_integer s) as [[d r']|] eqn:E; [|discriminate].
    intros H. inversion H; subst.
    now rewrite (match_integer_append s rest d c r E).
  - destruct (match_integer (String c0 s)) as [[d r']|] eqn:E; [|discriminate].
    intros H. inversion H; subst.
    change (String c0 (s ++ rest)) with (String c0 s ++ rest).
    now rewrite (match_integer_append _ rest d c r E).
Qed.

Lemma frac_or_exp_append (s rest : string) :
  frac_or_exp s = true -> frac_or_exp (s ++ rest) = true.
Proof.
  destruct s as [|c [|d [|d' r]]]; simpl; try discriminate; auto.
  destruct (Ascii.eqb c "."); auto.
  destruct (Ascii.eqb c "e" || Ascii.eqb c "E")%bool; auto.
  destruct (Ascii.eqb d "+" || Ascii.eqb d "-")%bool; auto. discriminate.
Qed.

Lemma match_frac_append (s rest frac r : string) :
  ends_number rest = true ->
  frac_or_exp s = true ->
  match_frac s = (frac, r) ->
  match_frac (s ++ rest) = (frac, r ++ rest).
Proof.
  intros Hrest Hfoe. unfold match_frac.
  destruct s as [|c [|d s]]; try discriminate Hfoe.
  cbn [String.append]. simpl in Hfoe.
  destruct (Ascii.eqb c "." && is_digit d)%bool eqn:Hc.
  - destruct (span_digits (String d s)) as [ds r'] eqn:E.
    intros H. inversion H; subst.
    change (String d (s ++ rest)) with (String d s ++ rest).
    now rewrite (span_digits_append _ rest ds r Hrest E).
  - intros H. inversion H; subst. reflexivity.
Qed.

Lemma match_exp_append (s rest exp r : string) :
  ends_number rest = true ->
  match_exp s = (exp, r) ->
  (s = EmptyString \/ exp <> EmptyString) ->
  match_exp (s ++ rest) = (exp, r ++ rest).
Proof.
  intros Hrest H Hcase.
  destruct s as [|c s].
  - simpl in *. inversion H; subst. simpl.
    apply ends_number_digit in Hrest.
    destruct rest as [|c [|d rest]]; try reflexivity.
    destruct Hrest as (_ & _ & He & HE). unfold match_exp. now rewrite He, HE.
  - destruct Hcase as [Hcase|Hexp]; [discriminate|].
    unfold match_exp in *.
    destruct s as [|d s]; [inversion H; subst; now elim Hexp|].
    cbn [String.append].
    destruct (Ascii.eqb c "e" || Ascii.eqb c "E")%bool;
      [|inversion H; subst; now elim Hexp].
    destruct (Ascii.eqb d "+" || Ascii.eqb d "-")%bool.
    + destruct s as [|d' s]; [inversion H; subst; now elim Hexp|].
      cbn [String.append].
      destruct (is_digit d') eqn:Hd; [|inversion H; subst; now elim Hexp].
      destruct (span_digits (String d' s)) as [ds r'] eqn:E.
      inversion H; subst.
      change (String d' (s ++ rest)) with (String d' s ++ rest).
      now rewrite (span_digits_append _ rest ds r Hrest E).
    + destruct (is_digit d) eqn:Hd; [|inversion H; subst; now elim Hexp].
      destruct (span_digits (String d s)) as [ds r'] eqn:E.
      inversion H; subst.
      change (String d (s ++ rest)) with (String d s ++ rest).
      now rewrite (span_digits_append _ rest ds r Hrest E).
Qed.

Lemma frac_or_exp_head (s : string) :
  frac_or_exp s = true -> exists c r, s = String c r.
Proof. destruct s as [|c r]; [discriminate | eauto]. Qed.

(** When the fraction does not match where a fraction or an exponent does,
    the exponent matches. *)
Lemma match_exp_after_frac (s : string) :
  frac_or_exp s = true ->
  fst (match_frac s) = EmptyString ->
  fst (match_exp s) <> EmptyString.
Proof.
  unfold frac_or_exp, match_frac, match_exp.
  destruct s as [|c [|d s]]; try discriminate.
  destruct (Ascii.eqb c ".") eqn:Hc; cbn [andb].
  - intros Hd. rewrite Hd. destruct (span_digits (String d s)). discriminate.
  - destruct (Ascii.eqb c "e" || Ascii.eqb c "E")%bool; [|discriminate].
    destruct (Ascii.eqb d "+" || Ascii.eqb d "-")%bool.
    + destruct s as [|d' s]; [discriminate|]. intros Hd _. rewrite Hd.
      destruct (span_digits (String d' s)). discriminate.
    + intros Hd _. rewrite Hd. destruct (span_digits (String d s)). discriminate.
Qed.

Lemma float_literal_inv (r : string) :
  float_literal r = true ->
  exists i r1 frac r2 exp,
    match_signed r = Some (i, r1)
    /\ frac_or_exp r1 = true
    /\ match_frac r1 = (frac, r2)
    /\ match_exp r2 = (exp, EmptyString)
    /\ (NilZero.string_of_int i ++ frac ++ exp)%string = r.
Proof.
  unfold float_literal, match_number.
  destruct (match_signed r) as [[i r1]|]; [|discriminate].
  destruct (frac_or_exp r1) eqn:Hfoe.
  - destruct (match_frac r1) as [frac r2] eqn:Hfrac.
    destruct (match_exp r2) as [exp r3] eqn:Hexp.
    destruct r3; [|discriminate].
    intros H. apply String.eqb_eq in H.
    exists i, r1, frac, r2, exp. auto.
  - destruct (int_fits i); discriminate.
Qed.

(** A float literal is read whole whatever ends the number after it. *)
Lemma match_number_float (r rest : string) :
  float_literal r = true ->
  ends_number rest = true ->
  match_number py_float (r ++ rest) = Some (PFloat (py_float r), rest).
Proof.
  intros Hr Hrest.
  destruct (float_literal_inv r Hr) as (i & r1 & frac & r2 & exp
                                        & Hsigned & Hfoe & Hfrac & Hexp & Htext).
  destruct (frac_or_exp_head r1 Hfoe) as (c & r1' & ->).
  unfold match_number.
  rewrite (match_signed_append r rest i c r1' Hsigned).
  rewrite (frac_or_exp_append _ rest Hfoe).
  rewrite (match_frac_append _ rest frac r2 Hrest Hfoe Hfrac).
  assert (Hcase : r2 = EmptyString \/ exp <> EmptyString).
  { destruct (string_dec frac EmptyString) as [Hf|Hf].
    - right. pose proof (match_exp_after_frac _ Hfoe) as H.
      rewrite Hfrac in H. specialize (H Hf).
      assert (Hr2 : r2 = String c r1').
      { unfold match_frac in Hfrac. subst frac.
        destruct r1' as [|d s]; [now inversion Hfrac|].
        destruct (Ascii.eqb c "." && is_digit d)%bool.
        - destruct (span_digits (String d s)). inversion Hfrac.
        - now inversion Hfrac. }
      rewrite <- Hr2, Hexp in H. exact H.
    - destruct r2 as [|c2 r2']; [now left|]. right.
      intros He. subst exp.
      unfold match_exp in Hexp.
      destruct r2' as [|d s]; [inversion Hexp|].
      destruct (Ascii.eqb c2 "e" || Ascii.eqb c2 "E")%bool; [|inversion Hexp].
      destruct (Ascii.eqb d "+" || Ascii.eqb d "-")%bool.
      + destruct s as [|d' s]; [inversion Hexp|].
        destruct (is_digit d'); [|inversion Hexp].
        destruct (span_digits (String d' s)). inversion Hexp.
      + destruct (is_digit d); [|inversion Hexp].
        destruct (span_digits (String d s)). inversion Hexp. }
  rewrite (match_exp_append r2 rest exp EmptyString Hrest Hexp Hcase).
  simpl. now rewrite Htext.
Qed.

(** ** Where a value starts and ends *)

Lemma ends_value_number (rest : string) :
  ends_value rest = true -> ends_number rest = true.
Proof.
  destruct rest as [|c r]; simpl; auto.
  destruct c as [[] [] [] [] [] [] [] []]; simpl; auto.
Qed.

Lemma ends_value_skip_ws (rest : string) :
  ends_value rest = true -> skip_ws rest = rest.
Proof.
  destruct rest as [|c r]; simpl; auto.
  destruct c as [[] [] [] [] [] [] [] []]; simpl; auto; discriminate.
Qed.

Lemma starts_value_skip_ws (s : string) :
  starts_value s = true -> skip_ws s = s.
Proof.
  destruct s as [|c r]; simpl; [discriminate|].
  destruct (is_ws c); [discriminate | reflexivity].
Qed.

Lemma starts_value_append (s t : string) :
  starts_value s = true -> starts_value (s ++ t) = true.
Proof. destruct s; simpl; [discriminate | auto]. Qed.

(** ** The loops of json.dumps *)

Lemma json_dumps_list (room : nat) (l : list pyval) :
  json_dumps (S room) (PList l) = dumps_array room l.
Proof.
  unfold dumps_array. simpl.
  match goal with
  | |- match ?F room l with _ => _ end = _ =>
      assert (H : forall l', F room l' = dumps_items room l')
  end.
  { clear. induction l' as [|x l' IH]; simpl; [reflexivity | now rewrite IH]. }
  now rewrite H.
Qed.

Lemma json_dumps_tuple (room : nat) (l : list pyval) :
  json_dumps (S room) (PTuple l) = dumps_array room l.
Proof. exact (json_dumps_list room l). Qed.

Lemma json_dumps_dict (room : nat) (d : list (string * pyval)) :
  json_dumps (S room) (PDict d) = dumps_object room d.
Proof.
  unfold dumps_object. simpl.
  match goal with
  | |- match ?F room d with _ => _ end = _ =>
      assert (H : forall d', F room d' = dumps_members room d')
  end.
  { clear. induction d' as [|[k x] d' IH]; simpl; [reflexivity | now rewrite IH]. }
  now rewrite H.
Qed.

(** ** The first character of a serialized value *)

Lemma str_of_int_head (z : Z) :
  exists c s, str_of_int z = String c s
              /\ (is_digit c || Ascii.eqb c "-")%bool = true.
Proof.
  unfold str_of_int. destruct z as [|p|p]; simpl.
  - exists "0"%char, EmptyString. split; reflexivity.
  - rewrite string_of_uint_to_uint.
    pose proof (DecimalPos.Unsigned.to_uint_nonnil p) as Hnil.
    destruct (Pos.to_uint p); try contradiction; simpl;
      eexists; eexists; (split; [reflexivity | reflexivity]).
  - exists "-"%char. eexists. split; reflexivity.
Qed.

Lemma number_head_starts (c : ascii) (s : string) :
  (is_digit c || Ascii.eqb c "-")%bool = true -> starts_value (String c s) = true.
Proof.
  destruct c as [[] [] [] [] [] [] [] []]; simpl; auto; discriminate.
Qed.

Lemma float_literal_head (r : string) :
  float_literal r = true ->
  exists c s, r = String c s
              /\ (is_digit c || Ascii.eqb c "-")%bool = true
              /\ float_json r = r.
Proof.
  intros Hr.
  destruct (float_literal_inv r Hr) as (i & r1 & frac & r2 & exp & Hsigned & _).
  unfold match_signed in Hsigned.
  destruct r as [|c s]; [discriminate|].
  exists c, s. split; [reflexivity|].
  destruct (Ascii.eqb c "-") eqn:Hminus.
  - split; [now rewrite orb_true_r|].
    apply Ascii.eqb_eq in Hminus. subst c.
    destruct (match_integer s) as [[d r']|] eqn:E; [|discriminate].
    unfold match_integer in E. destruct s as [|d0 s]; [discriminate|].
    unfold float_json.
    destruct d0 as [[] [] [] [] [] [] [] []]; try discriminate E; reflexivity.
  - destruct (match_integer (String c s)) as [[d r']|] eqn:E; [|discriminate].
    unfold match_integer in E. unfold float_json.
    destruct c as [[] [] [] [] [] [] [] []]; try discriminate E;
      split; reflexivity.
Qed.

Lemma float_shaped_starts (r : string) :
  float_shaped py_float r = true -> starts_value (float_json r) = true.
Proof.
  unfold float_shaped. intros H.
  apply orb_true_iff in H as [H|H]; [apply orb_true_iff in H as [H|H]|].
  - apply String.eqb_eq in H. now subst r.
  - apply String.eqb_eq in H. now subst r.
  - apply andb_true_iff in H as [H _].
    destruct (float_literal_head r H) as (c & s & Hr & Hc & ->).
    subst r. now apply number_head_starts.
Qed.

Lemma json_dumps_starts (room : nat) (v : pyval) (text : string) :
  json_shaped py_float v = true ->
  json_dumps room v = Ok text -> starts_value text = true.
Proof.
  destruct v as [|[]|z|r|s|b|l|l|d|[d|]]; intros Hshaped;
    try discriminate Hshaped;
    try (simpl; intros H; inversion H; reflexivity).
  - simpl. unfold int_str. destruct (int_fits (Z.to_int z)); [|discriminate].
    intros H. inversion H; subst.
    destruct (str_of_int_head z) as (c & s & -> & Hc).
    now apply number_head_starts.
  - simpl. intros H. inversion H; subst. now apply float_shaped_starts.
  - destruct room as [|room]; [discriminate|].
    rewrite json_dumps_list. unfold dumps_array.
    destruct (dumps_items room l); intros H; inversion H; reflexivity.
  - destruct room as [|room]; [discriminate|].
    rewrite json_dumps_dict. unfold dumps_object.
    destruct (dumps_members room d); intros H; inversion H; reflexivity.
Qed.

(** ** The equations of the scanner *)

Lemma scan_once_string (fuel : nat) (s : string) :
  scan_once py_float (S fuel) (String dquote s)
  = match scanstring s with
    | Some (str, r) => Some (PStr str, r)
    | None => None
    end.
Proof. reflexivity. Qed.

Lemma scan_once_array (fuel : nat) (s : string) :
  scan_once py_float (S fuel) (String "[" s)
  = match skip_ws s with
    | String c1 s1 =>
        if Ascii.eqb c1 "]" then Some (PList [], s1)
        else match scan_items py_float fuel (String c1 s1) [] with
             | Some (values, r) => Some (PList values, r)
             | None => None
             end
    | EmptyString => None
    end.
Proof. reflexivity. Qed.

Lemma scan_once_object (fuel : nat) (s : string) :
  scan_once py_float (S fuel) (String "{" s)
  = match skip_ws s with
    | String c1 s1 =>
        if Ascii.eqb c1 "}" then Some (PDict [], s1)
        else if Ascii.eqb c1 dquote then
          match scan_members py_float fuel s1 [] with
          | Some (pairs, r) => Some (PDict (dict_of_pairs pairs), r)
          | None => None
          end
        else None
    | EmptyString => None
    end.
Proof. reflexivity. Qed.

Lemma scan_once_number (fuel : nat) (c : ascii) (s : string) :
  (is_digit c || Ascii.eqb c "-")%bool = true ->
  scan_once py_float (S fuel) (String c s)
  = match match_number py_float (String c s) with
    | Some r => Some r
    | None => match_constant (String c s)
    end.
Proof.
  destruct c as [[] [] [] [] [] [] [] []]; simpl; try discriminate; reflexivity.
Qed.

Lemma scan_items_step (fuel : nat) (s : string) (acc : list pyval) :
  scan_items py_float (S fuel) s acc
  = match scan_once py_float fuel s with
    | None => None
    | Some (v, r) =>
        match skip_ws r with
        | String c r' =>
            if Ascii.eqb c "]" then Some (List.rev (v :: acc), r')
            else if Ascii.eqb c "," then scan_items py_float fuel (skip_ws r') (v :: acc)
            else None
        | EmptyString => None
        end
    end.
Proof. reflexivity. Qed.

Lemma scan_members_step (fuel : nat) (s : string) (acc : list (string * pyval)) :
  scan_members py_float (S fuel) s acc
  = match scanstring s with
    | None => None
    | Some (key, r) =>
        match skip_ws r with
        | String c r1 =>
            if Ascii.eqb c ":" then
              match scan_once py_float fuel (skip_ws r1) with
              | None => None
              | Some (v, r2) =>
                  match skip_ws r2 with
                  | String c2 r3 =>
                      if Ascii.eqb c2 "}" then Some (List.rev ((key, v) :: acc), r3)
                      else if Ascii.eqb c2 "," then
                        match skip_ws r3 with
                        | String c3 r4 =>
                            if Ascii.eqb c3 dquote
                            then scan_members py_float fuel r4 ((key, v) :: acc)
                            else None
                        | EmptyString => None
                        end
                      else None
                  | EmptyString => None
                  end
              end
            else None
        | EmptyString => None
        end
    end.
Proof. reflexivity. Qed.

(** ** dict(pairs) on distinct keys *)

Lemma dict_set_fresh {V : Type} (k : string) (v : V) (acc : dict V) :
  existsb (String.eqb k) (dict_keys acc) = false ->
  dict_set k v acc = (acc ++ [(k, v)])%list.
Proof.
  induction acc as [|[k' v'] acc IH]; simpl; auto.
  rewrite (String.eqb_sym k k'). destruct (String.eqb k' k); simpl; [discriminate|].
  intros H. now rewrite IH.
Qed.

Lemma dict_of_pairs_fresh {V : Type} (d acc : dict V) :
  distinct (dict_keys d) = true ->
  (forall k, In k (dict_keys d) -> existsb (String.eqb k) (dict_keys acc) = false) ->
  fold_left (fun d kv => dict_set (fst kv) (snd kv) d) d acc = (acc ++ d)%list.
Proof.
  revert acc. induction d as [|[k v] d IH]; intros acc Hd Hacc; simpl.
  - now rewrite List.app_nil_r.
  - simpl in Hd. apply andb_true_iff in Hd as [Hk Hd].
    apply negb_true_iff in Hk.
    rewrite dict_set_fresh by (apply Hacc; simpl; auto).
    rewrite IH; auto.
    + now rewrite <- List.app_assoc.
    + intros k' Hin.
      assert (Hex : existsb (String.eqb k') (dict_keys acc) = false).
      { apply Hacc. simpl; auto. }
      unfold dict_keys in *. rewrite map_app, existsb_app, Hex. simpl.
      destruct (String.eqb_spec k' k) as [->|Hne]; auto.
      exfalso. apply existsb_eqb_In in Hin. congruence.
Qed.

Lemma dict_of_pairs_distinct {V : Type} (d : dict V) :
  distinct (dict_keys d) = true -> dict_of_pairs d = d.
Proof.
  intros Hd. unfold dict_of_pairs. now rewrite dict_of_pairs_fresh.
Qed.

(** ** Reading back what was written *)

#[local] Arguments join : simpl never.

Lemma join_one (sep a : string) : join sep [a] = a.
Proof. reflexivity. Qed.

Lemma join_nil (sep : string) : join sep [] = EmptyString.
Proof. reflexivity. Qed.

Lemma join_cons (sep a b : string) (l : list string) :
  join sep (a :: b :: l) = (a ++ sep ++ join sep (b :: l))%string.
Proof. reflexivity. Qed.

Lemma join_starts (sep a : string) (l : list string) :
  starts_value a = true -> starts_value (join sep (a :: l)) = true.
Proof.
  intros Ha. destruct l as [|b l]; auto.
  rewrite join_cons. now apply starts_value_append.
Qed.

Lemma dumps_items_starts (room : nat) (l : list pyval) (ss : list string) :
  forallb (json_shaped py_float) l = true ->
  dumps_items room l = Ok ss -> l <> [] -> starts_value (join ", " ss) = true.
Proof.
  destruct l as [|x l]; [congruence|]. simpl.
  intros Hshaped. apply andb_true_iff in Hshaped as [Hsx _].
  destruct (json_dumps room x) as [s|] eqn:Hx; [|discriminate].
  destruct (dumps_items room l) as [ss'|]; [|discriminate].
  intros H _. inversion H; subst. apply join_starts.
  now apply (json_dumps_starts room x).
Qed.

Lemma scan_items_reads_back (room : nat) (l : list pyval) :
  Forall (reads_back py_float) l ->
  forallb (json_shaped py_float) l = true ->
  l <> [] ->
  forall ss, dumps_items room l = Ok ss ->
  forall fuel acc rest,
    (String.length (join ", " ss) < fuel)%nat ->
    scan_items py_float fuel (join ", " ss ++ String "]" rest) acc
    = Some ((List.rev acc ++ l)%list, rest).
Proof.
  induction l as [|x l IH]; [congruence|].
  intros Hall Hshaped _ ss Hss fuel acc rest Hfuel.
  inversion Hall as [|? ? Hx Hl]; subst.
  simpl in Hshaped. apply andb_true_iff in Hshaped as [Hsx Hsl].
  simpl in Hss.
  destruct (json_dumps room x) as [s|] eqn:Hdx; [|discriminate].
  destruct (dumps_items room l) as [ss'|] eqn:Hdl; [|discriminate].
  injection Hss as Hss; subst ss.
  destruct fuel as [|fuel]; [lia|].
  rewrite scan_items_step.
  destruct l as [|y l].
  - simpl in Hdl. injection Hdl as Hdl; subst ss'. rewrite join_one in *.
    rewrite (Hx Hsx room s Hdx fuel (String "]" rest)) by (auto; lia).
    simpl. reflexivity.
  - assert (Hss' : exists s2 ss2, ss' = s2 :: ss2).
    { simpl in Hdl. destruct (json_dumps room y); [|discriminate].
      destruct (dumps_items room l); [|discriminate]. inversion Hdl. eauto. }
    destruct Hss' as (s2 & ss2 & ->).
    rewrite join_cons in *.
    rewrite !StringFacts.length_append in Hfuel. simpl in Hfuel.
    rewrite !StringFacts.append_assoc.
    rewrite (Hx Hsx room s Hdx fuel) by (auto; lia).
    simpl.
    rewrite starts_value_skip_ws
      by (apply starts_value_append; now apply (dumps_items_starts room (y :: l))).
    rewrite (IH Hl Hsl) with (ss := s2 :: ss2) by (auto; try discriminate; lia).
    simpl. now rewrite <- List.app_assoc.
Qed.

Lemma dumps_members_cons (room : nat) (k : string) (x : pyval)
      (d : list (string * pyval)) :
  dumps_members room ((k, x) :: d)
  = match json_dumps room x with
    | Ok s => match dumps_members room d with
              | Ok ss => Ok ((encode_basestring k ++ ": " ++ s)%string :: ss)
              | Raise e => Raise e
              end
    | Raise e => Raise e
    end.
Proof. reflexivity. Qed.

Ltac len_simpl H :=
  repeat (progress (simpl in H; rewrite ?StringFacts.length_append in H)).

Lemma member_append (k s rest : string) :
  ((encode_basestring k ++ ": " ++ s) ++ rest)%string
  = String dquote
      (escape_chars k ++ String dquote (String ":" (String " " (s ++ rest)))).
Proof.
  unfold encode_basestring. simpl. now rewrite !StringFacts.append_assoc.
Qed.

Lemma dumps_members_quote (room : nat) (d : list (string * pyval))
      (ss : list string) (rest : string) :
  dumps_members room d = Ok ss -> d <> [] ->
  exists tail, (join ", " ss ++ rest)%string = String dquote tail.
Proof.
  destruct d as [|[k x] d]; [congruence|]. simpl.
  destruct (json_dumps room x) as [s|]; [|discriminate].
  destruct (dumps_members room d) as [ss'|]; [|discriminate].
  intros H _. inversion H; subst.
  destruct ss' as [|m ss']; [rewrite join_one|rewrite join_cons]; simpl; eauto.
Qed.

Lemma scan_members_reads_back (room : nat) (d : list (string * pyval)) :
  Forall (fun kv => reads_back py_float (snd kv)) d ->
  forallb (fun kv => json_shaped py_float (snd kv)) d = true ->
  d <> [] ->
  forall ss, dumps_members room d = Ok ss ->
  forall fuel acc rest,
    (String.length (join ", " ss) < fuel)%nat ->
    exists tail,
      (join ", " ss ++ String "}" rest)%string = String dquote tail
      /\ scan_members py_float fuel tail acc = Some ((List.rev acc ++ d)%list, rest).
Proof.
  induction d as [|[k x] d IH]; [congruence|].
  intros Hall Hshaped _ ss Hss fuel acc rest Hfuel.
  inversion Hall as [|? ? Hx Hd]; subst. simpl in Hx.
  simpl in Hshaped. apply andb_true_iff in Hshaped as [Hsx Hsd].
  rewrite dumps_members_cons in Hss.
  destruct (json_dumps room x) as [s|] eqn:Hdx; [|discriminate].
  destruct (dumps_members room d) as [ss'|] eqn:Hdd; [|discriminate].
  injection Hss as Hss; subst ss.
  pose proof (json_dumps_starts room x s Hsx Hdx) as Hstart.
  destruct fuel as [|fuel]; [lia|].
  destruct d as [|[k2 y] d].
  - simpl in Hdd. injection Hdd as Hdd; subst ss'. rewrite join_one in *.
    assert (Hlen : (String.length s <= fuel)%nat) by (len_simpl Hfuel; lia).
    eexists. split; [apply (member_append k s (String "}" rest))|].
    rewrite scan_members_step, scanstring_escape_chars. simpl.
    rewrite starts_value_skip_ws by now apply starts_value_append.
    rewrite (Hx Hsx room s Hdx fuel (String "}" rest)) by auto.
    simpl. reflexivity.
  - assert (Hss' : exists s2 ss2, ss' = s2 :: ss2).
    { simpl in Hdd. destruct (json_dumps room y); [|discriminate].
      destruct (dumps_members room d); [|discriminate]. inversion Hdd. eauto. }
    destruct Hss' as (s2 & ss2 & ->).
    rewrite join_cons in *.
    assert (Hlen : (String.length s <= fuel)%nat) by (len_simpl Hfuel; lia).
    assert (Hlen' : (String.length (join ", " (s2 :: ss2)) < fuel)%nat)
      by (len_simpl Hfuel; lia).
    destruct (IH Hd Hsd ltac:(discriminate) (s2 :: ss2) eq_refl fuel
                 ((k, x) :: acc) rest Hlen')
      as (tail & Htail & Hscan).
    rewrite StringFacts.append_assoc.
    eexists. split; [apply member_append|].
    rewrite scan_members_step, scanstring_escape_chars. simpl.
    rewrite starts_value_skip_ws by now apply starts_value_append.
    rewrite (Hx Hsx room s Hdx fuel) by auto.
    simpl. rewrite Htail. simpl. rewrite Hscan.
    simpl. now rewrite <- List.app_assoc.
Qed.

Lemma startswith_empty (s : string) : startswith s EmptyString = true.
Proof. now destruct s. Qed.

Lemma forallb_values (d : list (string * pyval)) :
  forallb (fun kv => well_formed_utf8 (fst kv) && json_shaped py_float (snd kv))%bool d
  = true ->
  forallb (fun kv => json_shaped py_float (snd kv)) d = true.
Proof.
  induction d as [|kv d IH]; simpl; auto.
  intros H. apply andb_true_iff in H as [H Hd].
  apply andb_true_iff in H as [_ H]. now rewrite H, IH.
Qed.

Lemma scan_once_constant (fuel : nat) (name repr rest : string) :
  match_constant (name ++ rest) = Some (PFloat repr, rest) ->
  match name with String c _ => Ascii.eqb c "I" || Ascii.eqb c "-" | _ => false end
  = true ->
  match_number py_float (name ++ rest) = None ->
  scan_once py_float (S fuel) (name ++ rest) = Some (PFloat repr, rest).
Proof.
  destruct name as [|c name]; [discriminate|].
  intros Hconstant Hc Hnumber.
  cbn [String.append] in *.
  assert (Hscan : scan_once py_float (S fuel) (String c (name ++ rest))
                  = match match_number py_float (String c (name ++ rest)) with
                    | Some r => Some r
                    | None => match_constant (String c (name ++ rest))
                    end).
  { apply orb_true_iff in Hc as [Hc|Hc]; apply Ascii.eqb_eq in Hc; subst c;
      reflexivity. }
  now rewrite Hscan, Hnumber, Hconstant.
Qed.

(** Every value of the JSON shape is read back from its serialization. *)
Lemma json_reads_back (v : pyval) : reads_back py_float v.
Proof.
  induction v using pyval_nested_ind; unfold reads_back;
    intros Hshaped room text Hdumps fuel rest Hfuel Hrest.
  - simpl in Hdumps. inversion Hdumps; subst. simpl in Hfuel.
    destruct fuel; [lia|]. simpl. now rewrite startswith_empty.
  - destruct b; simpl in Hdumps; inversion Hdumps; subst; simpl in Hfuel;
      (destruct fuel; [lia|]); simpl; now rewrite startswith_empty.
  - simpl in Hshaped. simpl in Hdumps. unfold int_str in Hdumps.
    rewrite Hshaped in Hdumps. inversion Hdumps; subst.
    destruct (str_of_int_head z) as (c & s & Hz & Hc).
    assert (Hnum := match_number_str_of_int z rest Hshaped
                      (ends_value_number rest Hrest)).
    rewrite Hz in *. simpl in Hfuel. destruct fuel; [lia|].
    cbn [String.append] in *. now rewrite scan_once_number, Hnum.
  - simpl in Hdumps. inversion Hdumps; subst text; clear Hdumps.
    simpl in Hshaped. unfold float_shaped in Hshaped.
    apply orb_true_iff in Hshaped as [Hshaped|Hshaped];
      [apply orb_true_iff in Hshaped as [Hshaped|Hshaped]|].
    + apply String.eqb_eq in Hshaped. subst r.
      destruct fuel; [simpl in Hfuel; lia|].
      apply (scan_once_constant fuel "Infinity" "inf" rest); try reflexivity.
      unfold match_constant. simpl. now rewrite startswith_empty.
    + apply String.eqb_eq in Hshaped. subst r.
      destruct fuel; [simpl in Hfuel; lia|].
      apply (scan_once_constant fuel "-Infinity" "-inf" rest); try reflexivity.
      unfold match_constant. simpl. now rewrite startswith_empty.
    + apply andb_true_iff in Hshaped as [Hliteral Hrepr].
      apply String.eqb_eq in Hrepr.
      destruct (float_literal_head r Hliteral) as (c & s & Hr & Hc & Hjson).
      rewrite Hjson in *.
      assert (Hnum := match_number_float r rest Hliteral
                        (ends_value_number rest Hrest)).
      rewrite Hrepr in Hnum. rewrite Hr in *. simpl in Hfuel.
      destruct fuel; [lia|].
      cbn [String.append] in *. now rewrite scan_once_number, Hnum.
  - simpl in Hdumps. inversion Hdumps; subst.
    rewrite encode_basestring_append.
    destruct fuel; [simpl in Hfuel; lia|].
    now rewrite scan_once_string, scanstring_escape_chars.
  - discriminate.
  - destruct room as [|room]; [discriminate|].
    rewrite json_dumps_list in Hdumps. unfold dumps_array in Hdumps.
    destruct (dumps_items room l) as [ss|] eqn:Hitems; [|discriminate].
    inversion Hdumps; subst text; clear Hdumps.
    simpl in Hfuel. rewrite StringFacts.length_append in Hfuel. simpl in Hfuel.
    destruct fuel as [|fuel]; [lia|].
    simpl String.append. rewrite StringFacts.append_assoc. simpl String.append.
    rewrite scan_once_array.
    destruct l as [|x l].
    + simpl in Hitems. inversion Hitems; subst. rewrite join_nil. reflexivity.
    + pose proof (dumps_items_starts room (x :: l) ss Hshaped Hitems) as Hstart.
      assert (Hs : starts_value (join ", " ss ++ String "]" rest) = true).
      { apply starts_value_append, Hstart. discriminate. }
      rewrite (starts_value_skip_ws _ Hs).
      pose proof (scan_items_reads_back room (x :: l) H Hshaped) as Hscan.
      specialize (Hscan ltac:(discriminate) ss Hitems fuel [] rest ltac:(lia)).
      destruct (join ", " ss ++ String "]" rest)%string as [|c1 s1] eqn:E;
        [discriminate|].
      simpl in Hs. apply andb_true_iff in Hs as [Hs _].
      apply andb_true_iff in Hs as [_ Hs]. apply negb_true_iff in Hs.
      rewrite Hs, Hscan. reflexivity.
  - discriminate.
  - simpl in Hshaped. apply andb_true_iff in Hshaped as [Hkeys Hshaped].
    apply forallb_values in Hshaped.
    destruct room as [|room]; [discriminate|].
    rewrite json_dumps_dict in Hdumps. unfold dumps_object in Hdumps.
    destruct (dumps_members room d) as [ss|] eqn:Hmembers; [|discriminate].
    inversion Hdumps; subst text; clear Hdumps.
    simpl in Hfuel. rewrite StringFacts.length_append in Hfuel. simpl in Hfuel.
    destruct fuel as [|fuel]; [lia|].
    simpl String.append. rewrite StringFacts.append_assoc. simpl String.append.
    rewrite scan_once_object.
    destruct d as [|kx d].
    + simpl in Hmembers. inversion Hmembers; subst. rewrite join_nil. reflexivity.
    + destruct (scan_members_reads_back room (kx :: d) H Hshaped ltac:(discriminate)
                  ss Hmembers fuel [] rest ltac:(lia))
        as (tail & Htail & Hscan).
      rewrite Htail. simpl. rewrite Hscan. simpl.
      now rewrite (dict_of_pairs_distinct (kx :: d) Hkeys).
  - discriminate.
Qed.

(** [json.loads(json.dumps(v)) == v] for a value of the JSON shape. *)
Lemma loads_dumps (room : nat) (v : pyval) (text : string) :
  json_shaped py_float v = true -> json_dumps room v = Ok text ->
  json_loads py_float text = Some v.
Proof.
  intros Hshaped Hdumps. unfold json_loads.
  rewrite (starts_value_skip_ws text (json_dumps_starts room v text Hshaped Hdumps)).
  pose proof (json_reads_back v Hshaped room text Hdumps (S (String.length text))
                EmptyString ltac:(lia) eq_refl) as H.
  rewrite StringFacts.append_nil_r in H. now rewrite H.
Qed.

(** A value of the JSON shape is serialized when the encoder has room for
    its nesting. *)
Lemma dumps_total (v : pyval) :
  json_shaped py_float v = true ->
  forall room, (nesting v <= room)%nat -> exists text, json_dumps room v = Ok text.
Proof.
  induction v using pyval_nested_ind; intros Hshaped room Hroom;
    try discriminate; try (simpl; eauto; fail).
  - destruct b; simpl; eauto.
  - simpl in *. unfold int_str. rewrite Hshaped. eauto.
  - destruct room as [|room]; [simpl in Hroom; lia|].
    rewrite json_dumps_list. unfold dumps_array.
    assert (Hitems : exists ss, dumps_items room l = Ok ss).
    { simpl in Hshaped, Hroom. apply le_S_n in Hroom.
      induction H as [|x l Hx Hl IH]; simpl; eauto.
      simpl in Hshaped, Hroom. apply andb_true_iff in Hshaped as [Hsx Hsl].
      destruct (Hx Hsx room ltac:(lia)) as [s ->].
      destruct (IH Hsl ltac:(lia)) as [ss ->]. eauto. }
    destruct Hitems as [ss ->]. eauto.
  - destruct room as [|room]; [simpl in Hroom; lia|].
    rewrite json_dumps_dict. unfold dumps_object.
    assert (Hmembers : exists ss, dumps_members room d = Ok ss).
    { simpl in Hshaped, Hroom. apply le_S_n in Hroom.
      apply andb_true_iff in Hshaped as [_ Hshaped].
      apply forallb_values in Hshaped.
      induction H as [|[k x] d Hx Hd IH]; simpl; eauto.
      simpl in Hshaped, Hx, Hroom. apply andb_true_iff in Hshaped as [Hsx Hsd].
      destruct (Hx Hsx room ltac:(lia)) as [s ->].
      destruct (IH Hsd ltac:(lia)) as [ss ->]. eauto. }
    destruct Hmembers as [ss ->]. eauto.
Qed.

Lemma ascii_text_uint (d : uint) : ascii_text (NilEmpty.string_of_uint d) = true.
Proof. induction d; simpl; auto. Qed.

Lemma ascii_text_int (i : Decimal.int) :
  ascii_text (NilZero.string_of_int i) = true.
Proof.
  destruct i as [d|d]; simpl.
  - destruct d; try apply (ascii_text_uint (_ d)); reflexivity.
  - destruct d; try apply (ascii_text_uint (_ d)); reflexivity.
Qed.

Lemma ascii_text_span_digits (s ds r : string) :
  span_digits s = (ds, r) -> ascii_text ds = true.
Proof.
  revert ds r. induction s as [|c s IH]; intros ds r H; simpl in H.
  - now inversion H.
  - destruct (is_digit c) eqn:Hc.
    + destruct (span_digits s) as [ds' r'] eqn:E. inversion H; subst.
      simpl. rewrite (IH ds' r eq_refl), andb_true_r.
      destruct c as [[] [] [] [] [] [] [] []]; try discriminate Hc; reflexivity.
    + now inversion H.
Qed.

Lemma ascii_text_match_frac (s frac r : string) :
  match_frac s = (frac, r) -> ascii_text frac = true.
Proof.
  unfold match_frac. destruct s as [|c [|d s]]; try (intros H; now inversion H).
  destruct (Ascii.eqb c "." && is_digit d)%bool eqn:Hc;
    [|intros H; now inversion H].
  destruct (span_digits (String d s)) as [ds r'] eqn:E.
  intros H. inversion H; subst.
  apply andb_true_iff in Hc as [Hc _]. apply Ascii.eqb_eq in Hc. subst c.
  simpl. now apply (ascii_text_span_digits _ _ _ E).
Qed.

Lemma ascii_text_match_exp (s exp r : string) :
  match_exp s = (exp, r) -> ascii_text exp = true.
Proof.
  unfold match_exp. destruct s as [|c [|d s]]; try (intros H; now inversion H).
  destruct (Ascii.eqb c "e" || Ascii.eqb c "E")%bool eqn:Hc;
    [|intros H; now inversion H].
  assert (Hascii : byte_in 0 127 c = true).
  { apply orb_true_iff in Hc as [Hc|Hc]; apply Ascii.eqb_eq in Hc; now subst c. }
  destruct (Ascii.eqb d "+" || Ascii.eqb d "-")%bool eqn:Hd.
  - destruct s as [|d' s]; [intros H; now inversion H|].
    destruct (is_digit d'); [|intros H; now inversion H].
    destruct (span_digits (String d' s)) as [ds r'] eqn:E.
    intros H. inversion H; subst.
    simpl. rewrite Hascii, (ascii_text_span_digits _ _ _ E), andb_true_r.
    apply orb_true_iff in Hd as [Hd|Hd]; apply Ascii.eqb_eq in Hd; now subst d.
  - destruct (is_digit d); [|intros H; now inversion H].
    destruct (span_digits (String d s)) as [ds r'] eqn:E.
    intros H. inversion H; subst.
    simpl. now rewrite Hascii, (ascii_text_span_digits _ _ _ E).
Qed.

Lemma float_literal_ascii (r : string) :
  float_literal r = true -> ascii_text r = true.
Proof.
  intros Hr.
  destruct (float_literal_inv r Hr) as (i & r1 & frac & r2 & exp
                                        & _ & _ & Hfrac & Hexp & <-).
  rewrite !Utf8Facts.ascii_text_append, ascii_text_int.
  now rewrite (ascii_text_match_frac _ _ _ Hfrac), (ascii_text_match_exp _ _ _ Hexp).
Qed.

Lemma str_of_int_ascii (z : Z) : ascii_text (str_of_int z) = true.
Proof. apply ascii_text_int. Qed.

(** What [json.dumps] writes for a value of the JSON shape is well-formed
    UTF-8: [str.encode] takes it. *)
Lemma dumps_well_formed (v : pyval) :
  json_shaped py_float v = true ->
  forall room text, json_dumps room v = Ok text -> well_formed_utf8 text = true.
Proof.
  induction v using pyval_nested_ind; intros Hshaped room text Hdumps;
    try discriminate Hshaped.
  - simpl in Hdumps. now inversion Hdumps.
  - destruct b; simpl in Hdumps; now inversion Hdumps.
  - simpl in Hdumps. unfold int_str in Hdumps.
    destruct (int_fits (Z.to_int z)); inversion Hdumps; subst.
    apply Utf8Facts.ascii_well_formed, str_of_int_ascii.
  - simpl in Hdumps. inversion Hdumps; subst text.
    simpl in Hshaped. unfold float_shaped in Hshaped.
    apply orb_true_iff in Hshaped as [Hshaped|Hshaped];
      [apply orb_true_iff in Hshaped as [Hshaped|Hshaped]|].
    + apply String.eqb_eq in Hshaped. now subst r.
    + apply String.eqb_eq in Hshaped. now subst r.
    + apply andb_true_iff in Hshaped as [Hliteral _].
      destruct (float_literal_head r Hliteral) as (c & s & _ & _ & ->).
      now apply Utf8Facts.ascii_well_formed, float_literal_ascii.
  - simpl in Hdumps. inversion Hdumps; subst.
    now apply Utf8Facts.encode_basestring_well_formed.
  - destruct room as [|room]; [discriminate|].
    rewrite json_dumps_list in Hdumps. unfold dumps_array in Hdumps.
    destruct (dumps_items room l) as [ss|] eqn:Hitems; [|discriminate].
    inversion Hdumps; subst text; clear Hdumps.
    assert (Hss : Forall (fun s => well_formed_utf8 s = true) ss).
    { simpl in Hshaped. revert ss Hitems.
      induction H as [|x l Hx Hl IH]; intros ss Hitems; simpl in Hitems.
      - inversion Hitems. constructor.
      - simpl in Hshaped. apply andb_true_iff in Hshaped as [Hsx Hsl].
        destruct (json_dumps room x) as [s|] eqn:Hdx; [|discriminate].
        destruct (dumps_items room l) as [ss'|]; [|discriminate].
        inversion Hitems; subst. constructor; eauto. }
    change (well_formed_utf8 (join ", " ss ++ "]") = true).
    now rewrite Utf8Facts.well_formed_append
      by now apply Utf8Facts.join_well_formed.
  - destruct room as [|room]; [discriminate|].
    rewrite json_dumps_dict in Hdumps. unfold dumps_object in Hdumps.
    destruct (dumps_members room d) as [ss|] eqn:Hmembers; [|discriminate].
    inversion Hdumps; subst text; clear Hdumps.
    assert (Hss : Forall (fun s => well_formed_utf8 s = true) ss).
    { simpl in Hshaped. apply andb_true_iff in Hshaped as [_ Hshaped].
      revert ss Hmembers.
      induction H as [|[k x] d Hx Hd IH]; intros ss Hmembers; simpl in Hmembers.
      - inversion Hmembers. constructor.
      - simpl in Hshaped, Hx. apply andb_true_iff in Hshaped as [Hkx Hsd].
        apply andb_true_iff in Hkx as [Hk Hsx].
        destruct (json_dumps room x) as [s|] eqn:Hdx; [|discriminate].
        destruct (dumps_members room d) as [ss'|]; [|discriminate].
        inversion Hmembers; subst. constructor; eauto.
        change (well_formed_utf8
                  ((escape_chars k ++ String dquote EmptyString)
                     ++ String ":" (String " " s)) = true).
        rewrite Utf8Facts.well_formed_append.
        + change (well_formed_utf8 s = true). eauto.
        + now rewrite Utf8Facts.well_formed_append
            by now apply Utf8Facts.escape_chars_well_formed. }
    change (well_formed_utf8 (join ", " ss ++ "}") = true).
    now rewrite Utf8Facts.well_formed_append
      by now apply Utf8Facts.join_well_formed.
Qed.

End Reading.

End JsonFacts.

(* ================================================================== *)
(** * Response coercion: mappings *)
(* ================================================================== *)

(** C6, as amended.  For a returned mapping without the key [__template__]
    that has the JSON shape (keys and strings without lone surrogates;
    [None], booleans, integers within the digit limit of [str], floats other
    than [nan], strings, lists and such mappings as values) and is nested no
    deeper than the recursion limit leaves room for, the response has status
    200, the content type [application/json;charset=utf-8], and a body that
    is the UTF-8 of a text [json.loads] reads back as the mapping itself; so
    does the response to a request whose handler returned it. *)
Theorem json_round_trip (py_float : string -> string)
        (py_repr : pyval -> result string) (room : nat) (app : Application)
        (d : list (string * pyval)) :
  json_shaped py_float (PDict d) = true ->
  (nesting (PDict d) <= room)%nat ->
  dict_get "__template__" d = None ->
  exists text,
    json_dumps room (PDict d) = Ok text
    /\ coerce py_repr room app (Value (PDict d))
       = Ok (Response.mk 200 (Some (encode_utf8 text))
                         "application/json;charset=utf-8" None None)
    /\ bytes_decode (encode_utf8 text) = Ok text
    /\ json_loads py_float text = Some (PDict d)
    /\ forall (rh : RequestHandler) (request : Request.t),
         outcome (RequestHandler_call rh request) = Ok (Value (PDict d)) ->
         outcome (response_factory py_repr room app (RequestHandler_call rh) request)
         = Ok (Response.mk 200 (Some (encode_utf8 text))
                           "application/json;charset=utf-8" None None).
Proof.
  intros Hshaped Hroom Htemplate.
  destruct (JsonFacts.dumps_total py_float (PDict d) Hshaped room Hroom)
    as [text Hdumps].
  pose proof (JsonFacts.dumps_well_formed py_float (PDict d) Hshaped room text
                Hdumps) as Hwf.
  assert (Hcoerce : coerce py_repr room app (Value (PDict d))
                    = Ok (Response.mk 200 (Some (encode_utf8 text))
                                      "application/json;charset=utf-8" None None)).
  { unfold coerce. rewrite Htemplate, Hdumps. unfold encoded, str_encode.
    now rewrite Hwf. }
  exists text. split; [exact Hdumps|]. split; [exact Hcoerce|].
  split; [|split].
  - unfold bytes_decode, decode_utf8, encode_utf8.
    now rewrite string_of_list_byte_of_string, Hwf.
  - now apply (JsonFacts.loads_dumps py_float room).
  - intros rh request Hout. now rewrite outcome_response_factory, Hout.
Qed.

Lemma json_round_trip_witness :
  exists text,
    outcome (response_factory sample_repr sample_room sample_app
               (RequestHandler_call get_blog_json_handler) get_blog_request)
    = Ok (Response.mk 200 (Some (encode_utf8 text))
                      "application/json;charset=utf-8" None None)
    /\ bytes_decode (encode_utf8 text) = Ok text
    /\ json_loads sample_float text = Some (PDict blog).
Proof.
  assert (Hroom : (nesting (PDict blog) <= sample_room)%nat).
  { apply Nat.leb_le. reflexivity. }
  destruct (json_round_trip sample_float sample_repr sample_room sample_app blog
                            eq_refl Hroom eq_refl)
    as [text [_ [_ [Hdecode [Hloads Hserve]]]]].
  exists text. split; [|split].
  - apply Hserve. reflexivity.
  - exact Hdecode.
  - exact Hloads.
Defined.

(** C6, as stated, fails: this mapping has no key [__template__], and
    serializing its [bytes] value raises, so there is no response whose body
    could be read back. *)
Lemma mapping_with_bytes_is_not_serialized :
  RequestHandler_init sample_app get_avatar = Ok get_avatar_handler
  /\ dict_get "__template__"
       [("id", PInt 1); ("avatar", PBytes ["G"%byte; "I"%byte; "F"%byte])] = None
  /\ outcome (RequestHandler_call get_avatar_handler get_blog_request)
     = Ok (Value (PDict [("id", PInt 1);
                         ("avatar", PBytes ["G"%byte; "I"%byte; "F"%byte])]))
  /\ outcome (response_factory sample_repr sample_room sample_app
                (RequestHandler_call get_avatar_handler) get_blog_request)
     = Raise (AttributeError no_dict_msg).
Proof. repeat split. Qed.

(** What the serialization does to values outside the JSON shape: a tuple
    comes back as a list, an object as the mapping of its attributes. *)
Example tuple_comes_back_as_list :
  match json_dumps sample_room (PDict [("size", PTuple [PInt 1; PInt 2])]) with
  | Ok text => json_loads sample_float text
  | Raise _ => None
  end
  = Some (PDict [("size", PList [PInt 1; PInt 2])]).
Proof. reflexivity. Qed.

Example object_comes_back_as_mapping :
  match json_dumps sample_room
                   (PDict [("user", PObject (Some [("name", PStr "bob")]))]) with
  | Ok text => json_loads sample_float text
  | Raise _ => None
  end
  = Some (PDict [("user", PDict [("name", PStr "bob")])]).
Proof. reflexivity. Qed.

(** What the encoding does to a text outside UTF-8, and the serialization
    to an integer beyond the digit limit: this mapping is serialized, and
    encoding the text raises; that one is not serialized. *)
Example lone_surrogate_is_not_encoded :
  json_dumps sample_room (PDict [("name", PStr lone_surrogate)])
  = Ok ("{" ++ encode_basestring "name" ++ ": " ++ encode_basestring lone_surrogate
            ++ "}")
  /\ coerce sample_repr sample_room sample_app (Value (PDict [("name", PStr lone_surrogate)]))
     = Raise (OtherError "UnicodeEncodeError").
Proof. split; reflexivity. Qed.

Example long_integer_is_not_serialized :
  coerce sample_repr sample_room sample_app (Value (PDict [("n", PInt (10 ^ 4300))]))
  = Raise (ValueError int_limit_msg).
Proof. vm_compute. reflexivity. Qed.

(** What the serialization does to a value nested deeper than the recursion
    limit leaves room for: a thousand lists around a list are not
    serialized, whatever the stack, and two lists in a mapping are not when
    there is room for two calls. *)
Example deep_nesting_is_not_serialized :
  coerce sample_repr 1000 sample_app (Value (PDict [("tree", nested_lists 1000)]))
  = Raise recursion_error
  /\ coerce sample_repr 2 sample_app (Value (PDict [("tree", PList [PList []])]))
     = Raise recursion_error
  /\ coerce sample_repr 3 sample_app (Value (PDict [("tree", PList [PList []])]))
     = Ok (Response.mk 200 (Some (encode_utf8 ("{" ++ encode_basestring "tree" ++ ": [[]]}")))
                       "application/json;charset=utf-8" None None).
Proof. repeat split; vm_compute; reflexivity. Qed.

(* ================================================================== *)
(** * More of the binder *)
(* ================================================================== *)

Lemma needs_arguments_false (rh : RequestHandler) :
  needs_arguments rh = false ->
  _has_var_kwarg rh = false /\ _has_named_kwargs rh = false
  /\ _required_kwargs rh = [].
Proof.
  unfold needs_arguments. intros H.
  apply orb_false_iff in H as [H Hreq]. apply orb_false_iff in H as [Hvar Hnamed].
  repeat split; auto. now destruct (_required_kwargs rh).
Qed.

(** X1.  A handler without named parameters, without [**kw] and without
    required names never has the body or the query read: whatever the
    method, the content type, the body and the query string are, it is
    called with the path parameters, and the request object when it takes
    it. *)
Theorem path_only_handler (rh : RequestHandler) (request : Request.t) :
  needs_arguments rh = false ->
  RequestHandler_call rh request
  = invoke rh (inject_request rh
                 (dict_map (fun v => AVal (PStr v)) (Request.match_info request))).
Proof.
  intros Hneeds.
  destruct (needs_arguments_false rh Hneeds) as (Hvar & Hnamed & Hreq).
  unfold RequestHandler_call, read_arguments, call_arguments, merge_arguments.
  rewrite Hvar, Hnamed, Hreq. simpl orb. cbv iota.
  rewrite !MFacts.bind_ret. simpl missing_argument. cbv iota. reflexivity.
Qed.

Lemma path_only_handler_witness :
  RequestHandler_call signout_handler post_xml
  = invoke signout_handler [("id", AVal (PStr "7")); ("request", ARequest)].
Proof.
  apply (path_only_handler signout_handler post_xml). reflexivity.
Defined.

Lemma query_loop_fresh (items : list (string * list string)) (acc : dict arg) :
  NoDup (map fst items) ->
  Forall (fun kv => snd kv <> []) items ->
  (forall k, In k (map fst items) -> existsb (String.eqb k) (dict_keys acc) = false) ->
  query_loop items acc
  = Ok (acc ++ map (fun kv => (fst kv, AVal (PStr (hd EmptyString (snd kv))))) items)%list.
Proof.
  revert acc. induction items as [|[k v] items IH]; intros acc Hnd Hne Hacc; simpl.
  - now rewrite List.app_nil_r.
  - inversion Hnd as [|? ? Hnotin Hnd']; subst.
    inversion Hne as [|? ? Hv Hne']; subst. simpl in Hv.
    destruct v as [|v0 vs]; [congruence|].
    rewrite JsonFacts.dict_set_fresh by (apply Hacc; simpl; auto).
    rewrite IH; auto.
    + simpl. now rewrite <- List.app_assoc.
    + intros k' Hin.
      assert (Hex : existsb (String.eqb k') (dict_keys acc) = false).
      { apply Hacc. simpl; auto. }
      unfold dict_keys in *. rewrite map_app, existsb_app, Hex. simpl.
      destruct (String.eqb_spec k' k) as [->|Hneq]; auto. contradiction.
Qed.

(** X2.  For a GET request with a query string, to a handler that reads
    arguments, the mapping read has exactly the keys of the parsed query, in
    their order, each with the first of its values; the content type and the
    body play no part. *)
Theorem query_arguments (rh : RequestHandler) (request : Request.t) :
  needs_arguments rh = true ->
  Request.method request = "GET" ->
  Request.query_string request <> EmptyString ->
  NoDup (map fst (Request.parse_qs request)) ->
  Forall (fun kv => snd kv <> []) (Request.parse_qs request) ->
  exists kw,
    read_arguments rh request = ([], Ok (Continue (Some kw)))
    /\ dict_keys kw = map fst (Request.parse_qs request)
    /\ forall k v vs, In (k, v :: vs) (Request.parse_qs request) ->
                      dict_get k kw = Some (AVal (PStr v)).
Proof.
  intros Hneeds Hget Hqs Hnd Hne.
  apply String.eqb_neq in Hqs.
  pose proof (query_loop_fresh (Request.parse_qs request) [] Hnd Hne
                               (fun _ _ => eq_refl)) as Hloop.
  simpl in Hloop.
  eexists. split; [|split].
  - unfold read_arguments. unfold needs_arguments in Hneeds.
    rewrite Hneeds, Hget. simpl.
    unfold read_query. rewrite Hqs, Hloop. reflexivity.
  - unfold dict_keys. rewrite map_map. reflexivity.
  - intros k v vs Hin. apply DictFacts.get_in_nodup.
    + unfold dict_keys. rewrite map_map. exact Hnd.
    + apply (in_map (fun kv => (fst kv, AVal (PStr (hd EmptyString (snd kv))))))
        in Hin.
      exact Hin.
Qed.

Lemma query_arguments_witness :
  exists kw,
    read_arguments get_blog_handler query_request = ([], Ok (Continue (Some kw)))
    /\ dict_keys kw = ["id"; "page"]
    /\ dict_get "id" kw = Some (AVal (PStr "3")).
Proof.
  assert (Hnd : NoDup (map fst (Request.parse_qs query_request))).
  { simpl. repeat constructor; simpl; intuition discriminate. }
  assert (Hne : Forall (fun kv : string * list string => snd kv <> [])
                       (Request.parse_qs query_request)).
  { repeat constructor; discriminate. }
  assert (Hqs : Request.query_string query_request <> EmptyString) by discriminate.
  destruct (query_arguments get_blog_handler query_request eq_refl eq_refl
              Hqs Hnd Hne) as [kw [Hread [Hkeys Hget]]].
  exists kw. repeat split; auto.
  apply (Hget "id" "3" ["4"]). simpl; auto.
Defined.

(** X3.  For a request whose method is neither POST nor GET, and for a GET
    request without query string, nothing is read even by a handler that
    reads arguments: the call arguments are the path parameters, and the
    request object when the handler takes it. *)
Theorem nothing_read (rh : RequestHandler) (request : Request.t) :
  String.eqb (Request.method request) "POST" = false ->
  String.eqb (Request.method request) "GET" = false
  \/ Request.query_string request = EmptyString ->
  read_arguments rh request = ([], Ok (Continue None))
  /\ call_arguments rh request None
     = ([], Ok (inject_request rh (dict_map (fun v => AVal (PStr v))
                                            (Request.match_info request)))).
Proof.
  intros Hpost Hget. split; [|reflexivity].
  unfold read_arguments. destruct (_ || _ || _)%bool; [|reflexivity].
  rewrite Hpost, MFacts.bind_ret.
  destruct Hget as [Hget|Hqs].
  - now rewrite Hget.
  - destruct (String.eqb _ "GET"); [|reflexivity].
    unfold read_query. now rewrite Hqs.
Qed.

Lemma nothing_read_witness :
  read_arguments create_comment_handler put_request = ([], Ok (Continue None))
  /\ call_arguments create_comment_handler put_request None
     = ([], Ok [("id", AVal (PStr "7")); ("request", ARequest)]).
Proof.
  apply (nothing_read create_comment_handler put_request).
  - reflexivity.
  - left. reflexivity.
Defined.

(** X4.  When the body of a POST request with a JSON content type cannot be
    parsed, the exception of the parser is not turned into a 400 response:
    the handler is not called and the exception leaves the middleware. *)
Theorem malformed_json_propagates (py_repr : pyval -> result string) (room : nat)
        (app : Application)
        (rh : RequestHandler) (request : Request.t) (content_type : string)
        (e : exn) :
  needs_arguments rh = true ->
  Request.method request = "POST" ->
  Request.content_type request = Some content_type ->
  startswith (lower content_type) "application/json" = true ->
  Request.json request = Raise e ->
  RequestHandler_call rh request = ([], Raise e)
  /\ response_factory py_repr room app (RequestHandler_call rh) request
     = ([LogInfo "Response handler..."], Raise e).
Proof.
  intros Hneeds Hpost Hct Hjson Hbody.
  assert (Hne : String.eqb content_type EmptyString = false).
  { destruct content_type; [discriminate | reflexivity]. }
  assert (Hcall : RequestHandler_call rh request = ([], Raise e)).
  { unfold RequestHandler_call, read_arguments. unfold needs_arguments in Hneeds.
    rewrite Hneeds, Hpost. simpl String.eqb. cbv iota.
    unfold read_post. rewrite Hct, Hne, Hjson, Hbody. reflexivity. }
  split; auto.
  unfold response_factory. now rewrite Hcall.
Qed.

Lemma malformed_json_propagates_witness :
  response_factory sample_repr sample_room sample_app
                   (RequestHandler_call create_comment_handler) broken_json_request
  = ([LogInfo "Response handler..."],
     Raise (JSONDecodeError "Expecting value: line 1 column 1 (char 0)")).
Proof.
  apply (malformed_json_propagates sample_repr sample_room sample_app create_comment_handler
           broken_json_request "application/json; charset=utf-8");
    reflexivity.
Defined.

(* ================================================================== *)
(** * More of the handler boundary and the coercer *)
(* ================================================================== *)

(** X5.  Only [APIError] is caught where the handler is called: any other
    exception of the handler leaves [__call__] and the response middleware
    as it is, and no response is built. *)
Theorem other_exceptions_propagate (py_repr : pyval -> result string) (room : nat)
        (app : Application)
        (rh : RequestHandler) (request : Request.t)
        (kw0 : option (dict arg)) (kw : dict arg) (e : exn) :
  outcome (read_arguments rh request) = Ok (Continue kw0) ->
  outcome (call_arguments rh request kw0) = Ok kw ->
  missing_argument (_required_kwargs rh) kw = None ->
  call (_func rh) kw = Raise e ->
  is_api_error e = false ->
  outcome (RequestHandler_call rh request) = Raise e
  /\ outcome (response_factory py_repr room app (RequestHandler_call rh) request)
     = Raise e.
Proof.
  intros Hread Hkw Hmissing Hcall He.
  assert (Hout : outcome (RequestHandler_call rh request) = Raise e).
  { rewrite (call_invoked rh request kw0 kw Hread Hkw Hmissing).
    unfold invoke. rewrite !MFacts.outcome_bind. simpl. rewrite Hcall.
    destruct e; try reflexivity. discriminate. }
  split; auto. now rewrite outcome_response_factory, Hout.
Qed.

Lemma other_exceptions_propagate_witness :
  outcome (response_factory sample_repr sample_room sample_app
             (RequestHandler_call crash_handler) plain_get)
  = Raise (OtherError "ZeroDivisionError").
Proof.
  apply (other_exceptions_propagate sample_repr sample_room sample_app crash_handler plain_get
           None [("request", ARequest)] (OtherError "ZeroDivisionError"));
    reflexivity.
Defined.

(** X6.  An [APIError] whose code, data and message have the JSON shape
    (as those of [APIValueError], [APIResourceNotFoundError] and
    [APIPermissionError] have when they are raised with strings that hold
    no lone surrogate) and are nested less deep than the recursion limit
    leaves room for always gets a response: status 200, JSON content type,
    and a body that is the UTF-8 of a text [json.loads] reads back as the
    mapping of the three values. *)
Theorem api_error_body_reads_back (py_float : string -> string)
        (py_repr : pyval -> result string) (room : nat) (app : Application)
        (rh : RequestHandler) (request : Request.t)
        (kw0 : option (dict arg)) (kw : dict arg) (error data msg : pyval) :
  outcome (read_arguments rh request) = Ok (Continue kw0) ->
  outcome (call_arguments rh request kw0) = Ok kw ->
  missing_argument (_required_kwargs rh) kw = None ->
  call (_func rh) kw = Raise (APIError error data msg) ->
  json_shaped py_float error = true ->
  json_shaped py_float data = true ->
  json_shaped py_float msg = true ->
  (nesting error < room)%nat ->
  (nesting data < room)%nat ->
  (nesting msg < room)%nat ->
  exists text,
    outcome (response_factory py_repr room app (RequestHandler_call rh) request)
    = Ok (Response.mk 200 (Some (encode_utf8 text))
                      "application/json;charset=utf-8" None None)
    /\ bytes_decode (encode_utf8 text) = Ok text
    /\ json_loads py_float text
       = Some (PDict [("error", error); ("data", data); ("message", msg)]).
Proof.
  intros Hread Hkw Hmissing Hcall Herror Hdata Hmsg Hroom_error Hroom_data
         Hroom_msg.
  assert (Hshaped : json_shaped py_float
                      (PDict [("error", error); ("data", data); ("message", msg)])
                    = true).
  { simpl. now rewrite Herror, Hdata, Hmsg. }
  assert (Hroom : (nesting (PDict [("error", error); ("data", data);
                                   ("message", msg)]) <= room)%nat).
  { simpl. lia. }
  destruct (JsonFacts.dumps_total py_float _ Hshaped room Hroom) as [text Hdumps].
  pose proof (JsonFacts.dumps_well_formed py_float _ Hshaped room text Hdumps)
    as Hwf.
  exists text. split; [|split].
  - rewrite outcome_response_factory.
    rewrite (call_invoked rh request kw0 kw Hread Hkw Hmissing).
    unfold invoke. rewrite !MFacts.outcome_bind. simpl. rewrite Hcall. simpl outcome.
    cbv iota. unfold coerce. cbn [dict_get String.eqb Ascii.eqb Bool.eqb].
    rewrite Hdumps. unfold encoded, str_encode. now rewrite Hwf.
  - unfold bytes_decode, decode_utf8, encode_utf8.
    now rewrite string_of_list_byte_of_string, Hwf.
  - now apply (JsonFacts.loads_dumps py_float room).
Qed.

Lemma api_error_body_reads_back_witness :
  exists text,
    outcome (response_factory sample_repr sample_room sample_app
               (RequestHandler_call delete_blog_handler) plain_get)
    = Ok (Response.mk 200 (Some (encode_utf8 text))
                      "application/json;charset=utf-8" None None)
    /\ bytes_decode (encode_utf8 text) = Ok text
    /\ json_loads sample_float text
       = Some (PDict [("error", PStr "permission: forbidden");
                      ("data", PStr "permission"); ("message", PStr "admin only")]).
Proof.
  apply (api_error_body_reads_back sample_float sample_repr sample_room sample_app
           delete_blog_handler plain_get None [("request", ARequest)]);
    try reflexivity; unfold sample_room; simpl; lia.
Defined.

(** X7.  Whatever value a handler returns, a response built for it by the
    middleware has a status from 100 to 599: 200, 302 for a redirect, or the
    status the handler gave. *)
Theorem coerced_status_in_range (py_repr : pyval -> result string) (room : nat)
        (app : Application) (v : pyval) (res : Response.t) :
  coerce py_repr room app (Value v) = Ok res ->
  100 <= Response.status res < 600.
Proof.
  assert (Hcode : forall w st, status_code w = Some st -> 100 <= st < 600).
  { intros w st. destruct w; simpl; try discriminate.
    destruct (100 <=? z) eqn:H1; destruct (z <? 600) eqn:H2; simpl;
      try discriminate.
    intros H; inversion H; subst. apply Z.leb_le in H1. apply Z.ltb_lt in H2. lia. }
  assert (Hencoded : forall ct text r,
             encoded ct text = Ok r -> 100 <= Response.status r < 600).
  { unfold encoded. intros ct text r H.
    destruct (str_encode text); inversion H; simpl; lia. }
  assert (Hplain : forall w r,
             plain_text py_repr w = Ok r -> 100 <= Response.status r < 600).
  { unfold plain_text. intros w r H.
    destruct (py_str py_repr w); [now apply (Hencoded _ _ _ H) | discriminate]. }
  assert (Hother : forall w r,
             match status_code w with
             | Some st => Ok (Response_status st)
             | None => plain_text py_repr w
             end = Ok r -> 100 <= Response.status r < 600).
  { intros w r. destruct (status_code w) as [st|] eqn:Hst.
    - intros H; inversion H; simpl. now apply (Hcode w).
    - apply Hplain. }
  unfold coerce.
  destruct v as [|b|z|r|s|b|l|l|d|o]; try apply Hother.
  - destruct (startswith s "redirect:").
    + unfold HTTPFound. destruct (String.eqb _ _); intros H; inversion H; simpl; lia.
    + apply Hencoded.
  - intros H; inversion H; simpl; lia.
  - destruct l as [|t [|m [|x l]]]; try apply Hother.
    destruct (status_code t) as [st|] eqn:Hst; [|apply Hplain].
    unfold status_text. destruct (py_str py_repr m) as [text|e]; [|discriminate].
    destruct (str_encode text); intros H; inversion H; simpl.
    now apply (Hcode t).
  - assert (Hjson : forall r,
               match json_dumps room (PDict d) with
               | Ok text => encoded "application/json;charset=utf-8" text
               | Raise e => Raise e
               end = Ok r -> 100 <= Response.status r < 600).
    { intros r. destruct (json_dumps room (PDict d)); [apply Hencoded | discriminate]. }
    destruct (dict_get "__template__" d) as [[] |]; try apply Hjson;
      destruct (__templating__ app _ d); try discriminate; apply Hencoded.
Qed.

Lemma coerced_status_in_range_witness :
  100 <= Response.status (Response_text 404 "not found") < 600.
Proof.
  apply (coerced_status_in_range sample_repr sample_room sample_app
           (PTuple [PInt 404; PStr "not found"])).
  reflexivity.
Defined.

Lemma startswith_append (p s : string) : startswith (p ++ s) p = true.
Proof.
  unfold startswith. induction p as [|c p IH]; simpl.
  - now destruct s.
  - destruct (ascii_dec c c); [exact IH | congruence].
Qed.

Lemma drop_chars_append (p s : string) : drop_chars (String.length p) (p ++ s) = s.
Proof. induction p as [|c p IH]; simpl; auto. Qed.

(** X8.  A returned string that starts with [redirect:] becomes a redirect
    (302) to the rest of the string, and raises when the rest is empty; any
    other string becomes an HTML response with status 200, or raises
    [UnicodeEncodeError] when it holds a lone surrogate. *)
Theorem redirect_coercion (py_repr : pyval -> result string) (room : nat)
        (app : Application) :
  (forall loc, loc <> EmptyString ->
     coerce py_repr room app (Value (PStr ("redirect:" ++ loc)))
     = Ok (Response.mk 302 (Some (encode_utf8 "302: Found")) "text/plain"
                       (Some "utf-8") (Some loc)))
  /\ coerce py_repr room app (Value (PStr "redirect:"))
     = Raise (ValueError "HTTP redirects need a location to redirect to.")
  /\ (forall s, startswith s "redirect:" = false ->
        coerce py_repr room app (Value (PStr s))
        = if well_formed_utf8 s
          then Ok (Response.mk 200 (Some (encode_utf8 s)) "text/html;charset=utf-8"
                               None None)
          else Raise (OtherError "UnicodeEncodeError")).
Proof.
  split; [|split].
  - intros loc Hloc. unfold coerce.
    rewrite (startswith_append "redirect:" loc).
    change 9%nat with (String.length "redirect:").
    rewrite drop_chars_append. unfold HTTPFound.
    apply String.eqb_neq in Hloc. now rewrite Hloc.
  - reflexivity.
  - intros s Hs. unfold coerce, encoded, str_encode. rewrite Hs.
    now destruct (well_formed_utf8 s).
Qed.

Lemma redirect_coercion_witness :
  coerce sample_repr sample_room sample_app (Value (PStr "redirect:/login"))
  = Ok (Response.mk 302 (Some (encode_utf8 "302: Found")) "text/plain"
                    (Some "utf-8") (Some "/login"))
  /\ coerce sample_repr sample_room sample_app (Value (PStr "<h1>hello</h1>"))
     = Ok (Response.mk 200 (Some (encode_utf8 "<h1>hello</h1>"))
                       "text/html;charset=utf-8" None None).
Proof.
  destruct (redirect_coercion sample_repr sample_room sample_app) as [Hredirect [_ Hhtml]].
  split.
  - apply Hredirect. discriminate.
  - rewrite (Hhtml "<h1>hello</h1>") by reflexivity. reflexivity.
Defined.



(* ================================================================== *)
(** * Registration: what add_route and add_routes register *)
(* ================================================================== *)

(** X10.  A function that lacks the method or the path is refused by
    [add_route] with [ValueError] before anything is logged or registered,
    while [add_routes] passes over it in silence; [add_routes] also passes
    over a function whose path is the empty string, which [add_route]
    takes. *)
Theorem undecorated_function (func_str : func -> string)
        (router : string -> string -> result unit) (app : Application) :
  (forall f, __method__ f = None \/ __route__ f = None ->
     add_route func_str router app f
     = ([], Raise (ValueError (not_decorated_msg func_str f))))
  /\ (forall f attr module,
        (truthy (__method__ f) && truthy (__route__ f))%bool = false ->
        add_routes func_str router app ((attr, MCallable f) :: module)
        = add_routes func_str router app module)
  /\ (forall f method,
        __method__ f = Some method -> __route__ f = Some EmptyString ->
        positional_after_request (parameters (wrapped f)) = false ->
        router method EmptyString = Ok tt ->
        added (trace (add_route func_str router app f))
        = [(method, EmptyString, __name__ (wrapped f))]).
Proof.
  split; [|split].
  - intros f [H|H]; unfold add_route; rewrite H; auto.
    now destruct (__route__ f).
  - intros f attr module H. simpl. rewrite H. now destruct (startswith attr "_").
  - intros f method Hm Hr Hpos Hrouter. unfold add_route, RequestHandler_init.
    rewrite Hm, Hr. unfold has_request_arg.
    rewrite has_request_arg_loop_not_found, Hpos.
    unfold lift, emit, bind, trace. rewrite Hrouter. reflexivity.
Qed.

Lemma undecorated_function_witness :
  add_route sample_func_str any_router sample_app (undecorated crash)
  = ([], Raise (ValueError "@get or @post not defined in <function crash>.")).
Proof.
  destruct (undecorated_function sample_func_str any_router sample_app)
    as [Hrefused _].
  apply (Hrefused (undecorated crash)). left. reflexivity.
Defined.

Lemma add_routes_routes_of (func_str : func -> string)
      (router : string -> string -> result unit) (app : Application)
      (module : list (string * member)) :
  add_routes func_str router app module
  = fold_right (fun f k => add_route func_str router app f ;;; k) (ret tt)
               (routes_of module).
Proof.
  induction module as [|[attr fn] module IH]; simpl; auto.
  destruct (startswith attr "_"); simpl.
  - destruct fn; auto.
  - destruct fn as [f|v]; auto.
    destruct (truthy (__method__ f) && truthy (__route__ f))%bool; simpl; auto.
    now rewrite IH.
Qed.

Lemma added_app (t t' : list reg_event) :
  added (t ++ t')%list = (added t ++ added t')%list.
Proof.
  induction t as [|[text|m p h] t IH]; simpl; auto. now rewrite IH.
Qed.

Lemma add_route_accepted (func_str : func -> string)
      (router : string -> string -> result unit) (app : Application)
      (f : routed) :
  truthy (__method__ f) = true -> truthy (__route__ f) = true ->
  positional_after_request (parameters (wrapped f)) = false ->
  router (fst (fst (route_of f))) (snd (fst (route_of f))) = Ok tt ->
  outcome (add_route func_str router app f) = Ok tt
  /\ added (trace (add_route func_str router app f)) = [route_of f].
Proof.
  unfold route_of, add_route, RequestHandler_init, has_request_arg.
  destruct (__method__ f) as [m|]; [|discriminate].
  destruct (__route__ f) as [p|]; [|discriminate].
  intros _ _ Hpos Hrouter. simpl in Hrouter.
  rewrite has_request_arg_loop_not_found, Hpos.
  unfold lift, emit, bind, trace, outcome. rewrite Hrouter. auto.
Qed.

Lemma routes_of_truthy (module : list (string * member)) (f : routed) :
  In f (routes_of module) ->
  truthy (__method__ f) = true /\ truthy (__route__ f) = true.
Proof.
  induction module as [|[attr [g|v]] module IH]; simpl; try tauto.
  destruct (negb (startswith attr "_")); simpl; auto.
  destruct (truthy (__method__ g)) eqn:Hm; simpl; auto.
  destruct (truthy (__route__ g)) eqn:Hr; simpl; auto.
  intros [H|H]; subst; auto.
Qed.

(** X11.  When the signature of every public decorated callable of the
    module passes the inspection and the router takes its route,
    [add_routes] returns and has given the router exactly these callables,
    once each, in the order of [dir]; names that start with an underscore,
    objects that are not callable and callables without method and path are
    left out. *)
Theorem add_routes_registers_all (func_str : func -> string)
        (router : string -> string -> result unit) (app : Application)
        (module : list (string * member)) :
  Forall (fun f => positional_after_request (parameters (wrapped f)) = false
                   /\ router (fst (fst (route_of f))) (snd (fst (route_of f)))
                      = Ok tt)
         (routes_of module) ->
  outcome (add_routes func_str router app module) = Ok tt
  /\ added (trace (add_routes func_str router app module))
     = map route_of (routes_of module).
Proof.
  rewrite add_routes_routes_of.
  assert (Htruthy := routes_of_truthy module).
  induction (routes_of module) as [|f l IH]; intros Hall; simpl; auto.
  inversion Hall as [|? ? [Hpos Hrouter] Hl]; subst.
  destruct (Htruthy f (or_introl eq_refl)) as [Hm Hr].
  destruct (add_route_accepted func_str router app f Hm Hr Hpos Hrouter)
    as [Hout Hadded].
  destruct IH as [IHout IHadded]; auto.
  { intros g Hg. apply Htruthy. now right. }
  split.
  - now rewrite MFacts.outcome_bind, Hout.
  - rewrite MFacts.trace_bind, Hout, added_app, Hadded, IHadded. reflexivity.
Qed.

Lemma add_routes_registers_all_witness :
  outcome (add_routes sample_func_str strict_router sample_app handlers_module)
  = Ok tt
  /\ added (trace (add_routes sample_func_str strict_router sample_app
                              handlers_module))
     = [("POST", "/api/blogs/{id}/comments", "create_comment");
        ("GET", "/blog/{id}", "get_blog");
        ("GET", "/signout", "signout")].
Proof.
  apply (add_routes_registers_all sample_func_str strict_router sample_app
           handlers_module).
  repeat constructor.
Defined.

(** X12.  [add_routes] stops at the first callable that [add_route]
    refuses, with the exception of [add_route]: the callables before it
    stay registered, the ones after it are never looked at. *)
Theorem add_routes_stops_at_first_failure (func_str : func -> string)
        (router : string -> string -> result unit) (app : Application)
        (module : list (string * member)) (pre post : list routed) (f : routed)
        (e : exn) :
  routes_of module = (pre ++ f :: post)%list ->
  Forall (fun g => outcome (add_route func_str router app g) = Ok tt) pre ->
  outcome (add_route func_str router app f) = Raise e ->
  outcome (add_routes func_str router app module) = Raise e
  /\ trace (add_routes func_str router app module)
     = (concat (map (fun g => trace (add_route func_str router app g)) pre)
        ++ trace (add_route func_str router app f))%list.
Proof.
  intros Hmod Hpre Hf. rewrite add_routes_routes_of, Hmod. clear Hmod.
  induction pre as [|g pre IH]; simpl.
  - split.
    + now rewrite MFacts.outcome_bind, Hf.
    + now rewrite MFacts.trace_bind, Hf.
  - inversion Hpre as [|? ? Hg Hpre']; subst.
    destruct (IH Hpre') as [IHout IHtrace].
    split.
    + now rewrite MFacts.outcome_bind, Hg.
    + rewrite MFacts.trace_bind, Hg, IHtrace. now rewrite List.app_assoc.
Qed.

Lemma add_routes_stops_at_first_failure_witness :
  outcome (add_routes sample_func_str any_router sample_app broken_module)
  = Raise (ValueError (request_position_msg "broken"))
  /\ added (trace (add_routes sample_func_str any_router sample_app
                              broken_module))
     = [("GET", "/archive", "signout")].
Proof.
  destruct (add_routes_stops_at_first_failure sample_func_str any_router
              sample_app broken_module
              [get "/archive" (undecorated signout)]
              [get "/signout" (undecorated signout)]
              (get "/broken" (undecorated broken))
              (ValueError (request_position_msg "broken")))
    as [Hout Htrace]; try reflexivity.
  - repeat constructor.
  - split; [exact Hout | now rewrite Htrace].
Defined.

(* ================================================================== *)
(** * More of execute and select *)
(* ================================================================== *)

(** X13.  Whatever the driver does, and with or without a pool, [execute]
    and [select] leave nothing open: every cursor they open is closed and
    the connection they acquire is released, also when the transaction
    cannot be started, the statement fails, or commit or rollback fail. *)
Theorem nothing_is_left_open (__pool : option connection) (sql : string)
        (args : option (list pyval)) (autocommit : bool) (size : option Z) :
  well_bracketed (trace (execute __pool sql args autocommit)) false false = true
  /\ well_bracketed (trace (select __pool sql args size)) false false = true.
Proof.
  destruct __pool as [conn|]; [|split; reflexivity].
  split.
  - unfold execute, finally, try_except, bind, emit, lift, ret, raise, trace.
    destruct autocommit; simpl.
    + destruct (cursor_execute conn (replace_placeholders sql) args) as [n|e];
        simpl; try reflexivity.
      destruct e; reflexivity.
    + destruct (begin conn) as [[]|e0]; simpl; try reflexivity.
      destruct (cursor_execute conn (replace_placeholders sql) args) as [n|e];
        simpl.
      * destruct (commit conn) as [[]|e]; simpl; try reflexivity.
        destruct e; simpl; try reflexivity.
        destruct (rollback conn) as [[]|e']; reflexivity.
      * destruct e; simpl; try reflexivity.
        destruct (rollback conn) as [[]|e']; reflexivity.
  - unfold select, finally, bind, emit, lift, ret, trace. simpl.
    destruct (cursor_execute conn (replace_placeholders sql)
                             (Some (or_empty args))) as [n|e];
      simpl; try reflexivity.
    destruct (fetch conn _) as [rows|e]; reflexivity.
Qed.

Lemma execute_autocommit_outcome (conn : connection) (sql : string)
      (args : option (list pyval)) :
  outcome (execute (Some conn) sql args true)
  = cursor_execute conn (replace_placeholders sql) args.
Proof.
  unfold execute, finally, try_except, bind, emit, lift, ret, raise, outcome.
  simpl.
  destruct (cursor_execute conn (replace_placeholders sql) args) as [n|e];
    simpl; [reflexivity|].
  destruct e; reflexivity.
Qed.

(** X14.  With [autocommit] true, the default, [execute] makes no
    transaction call at all, whether the statement succeeds or fails: it
    runs the statement on a cursor and hands on the row count or the
    exception of the driver as it is. *)
Theorem autocommit_makes_no_transaction (conn : connection) (sql : string)
        (args : option (list pyval)) :
  execute (Some conn) sql args true
  = ([LogSQL sql; Acquire; CursorOpen;
      CursorExecute (replace_placeholders sql) args; CursorClose; Release],
     cursor_execute conn (replace_placeholders sql) args).
Proof.
  rewrite <- execute_autocommit_outcome.
  rewrite (MFacts.surjective (execute (Some conn) sql args true)) at 1.
  f_equal.
  unfold execute, finally, try_except, bind, emit, lift, ret, raise, trace.
  simpl.
  destruct (cursor_execute conn (replace_placeholders sql) args) as [n|e];
    simpl; [reflexivity|].
  destruct e; reflexivity.
Qed.

(** X15.  When the transaction cannot be started, [execute] never sends the
    statement and calls neither commit nor rollback; the connection is
    released and the exception of [begin] is the one raised. *)
Theorem failed_begin_sends_nothing (conn : connection) (sql : string)
        (args : option (list pyval)) (e : exn) :
  begin conn = Raise e ->
  execute (Some conn) sql args false
  = ([LogSQL sql; Acquire; Begin; Release], Raise e).
Proof.
  intros Hbegin.
  unfold execute, finally, try_except, bind, emit, lift, ret, raise. simpl.
  now rewrite Hbegin.
Qed.

Lemma failed_begin_sends_nothing_witness :
  execute (Some lost_connection) "delete from `users` where `id`=?"
          (Some [PInt 1]) false
  = ([LogSQL "delete from `users` where `id`=?"; Acquire; Begin; Release],
     Raise (OtherError "pymysql.err.OperationalError")).
Proof.
  apply (failed_begin_sends_nothing lost_connection
           "delete from `users` where `id`=?" (Some [PInt 1])
           (OtherError "pymysql.err.OperationalError")).
  reflexivity.
Defined.

Lemma count_char_append (c : ascii) (a b : string) :
  count_char c (a ++ b) = (count_char c a + count_char c b)%nat.
Proof. induction a as [|x a IH]; simpl; auto. rewrite IH. lia. Qed.

(** X16.  The statement given to the driver holds no question mark: each
    one has become [%s], so the statement grows by one character for each,
    and a statement without question marks is sent as it is. *)
Theorem placeholders_are_replaced (sql : string) :
  count_char "?" (replace_placeholders sql) = 0%nat
  /\ String.length (replace_placeholders sql)
     = (String.length sql + count_char "?" sql)%nat
  /\ (count_char "?" sql = 0%nat -> replace_placeholders sql = sql).
Proof.
  induction sql as [|c sql [IH1 [IH2 IH3]]]; simpl; auto.
  destruct (Ascii.eqb c "?") eqn:Hc; simpl.
  - repeat split; lia.
  - rewrite Hc. repeat split; try lia.
    intros H. now rewrite IH3.
Qed.

Lemma create_args_str_loop_repeat (num : nat) :
  create_args_str_loop num = repeat "?"%string num.
Proof. induction num as [|n IH]; simpl; congruence. Qed.

Lemma join_step (sep x y : string) (l : list string) :
  join sep (x :: y :: l) = x ++ sep ++ join sep (y :: l).
Proof. reflexivity. Qed.

(** X17.  [create_args_str(n)] holds [n] question marks and the commas
    between them, and what the driver gets for it is [n] times [%s],
    separated by commas. *)
Theorem create_args_str_placeholders (num : nat) :
  count_char "?" (create_args_str num) = num
  /\ count_char "," (create_args_str num) = Nat.pred num
  /\ replace_placeholders (create_args_str num) = join "," (repeat "%s"%string num).
Proof.
  unfold create_args_str. rewrite create_args_str_loop_repeat.
  induction num as [|n [IH1 [IH2 IH3]]]; [repeat split|].
  destruct n as [|n]; [repeat split|].
  change (repeat "?"%string (S (S n))) with ("?"%string :: "?"%string :: repeat "?"%string n).
  change (repeat "%s"%string (S (S n))) with ("%s"%string :: "%s"%string :: repeat "%s"%string n).
  rewrite !join_step.
  change ("?"%string :: repeat "?"%string n) with (repeat "?"%string (S n)) in *.
  change ("%s"%string :: repeat "%s"%string n) with (repeat "%s"%string (S n)) in *.
  change ("?" ++ "," ++ join "," (repeat "?"%string (S n)))
    with (String "?" (String "," (join "," (repeat "?"%string (S n))))).
  cbn [count_char replace_placeholders Ascii.eqb Bool.eqb].
  rewrite IH1, IH2, IH3. simpl Nat.pred. repeat split; lia.
Qed.

(* ================================================================== *)
(** * More of the metaclass, and the methods of Model *)
(* ================================================================== *)

Lemma User_is_built : ModelMetaClass_new "User" User_attrs = Ok (EntityClass User).
Proof. reflexivity. Qed.

(** ** The metaclass *)

Lemma collect_fields_mappings (table_name : string) (items : dict attr)
      (mappings : dict Field.t) (pk : option string) (fields : list string)
      (mappings' : dict Field.t) (pk' : option string) (fields' : list string) :
  collect_fields table_name items mappings pk fields = Ok (mappings', pk', fields') ->
  mappings' = mappings_of items mappings
  /\ exists added, fields' = (fields ++ added)%list
                   /\ List.length added = List.length (plain_fields items).
Proof.
  revert mappings pk fields.
  induction items as [|[k [v|o]] items IH]; intros mappings pk fields H;
    simpl in H.
  - inversion H; subst. split; auto. exists []. now rewrite List.app_nil_r.
  - simpl. destruct (Field.primary_key v).
    + destruct (truthy pk); [discriminate|]. now apply IH in H.
    + apply IH in H as [Hm [added [Hf Hlen]]]. split; auto.
      exists (k :: added). rewrite Hf, <- List.app_assoc. simpl. auto.
  - simpl. now apply IH in H.
Qed.

Lemma update_columns_inv (mappings : dict Field.t) (fields cols : list string) :
  update_columns mappings fields = Ok cols ->
  cols = map (fun f => backtick (column_of mappings f) ++ "=?") fields.
Proof.
  revert cols. induction fields as [|f fields IH]; intros cols H; simpl in H.
  - now inversion H.
  - unfold column_of at 1. simpl.
    destruct (dict_get f mappings) as [fld|]; [|discriminate].
    destruct (update_columns mappings fields) as [cols'|e]; [|discriminate].
    inversion H; subst. now rewrite (IH cols' eq_refl).
Qed.

Lemma entity_class_inv (name : string) (attrs : Namespace.t) (m : Model.t) :
  ModelMetaClass_new name attrs = Ok (EntityClass m) ->
  exists pk fields,
    let table_name := or_else (Namespace.table attrs) name in
    let mappings := mappings_of (Namespace.members attrs) [] in
    let escaped_fields := map backtick fields in
    m = Model.mk name mappings table_name pk fields
          ("select " ++ backtick pk ++ ", " ++ join ", " escaped_fields
             ++ " from " ++ backtick table_name)
          ("insert into " ++ backtick table_name ++ " ("
             ++ join ", " escaped_fields ++ ", " ++ backtick pk ++ ") values ("
             ++ create_args_str (List.length escaped_fields + 1) ++ ")")
          ("update " ++ backtick table_name ++ " set "
             ++ join ", " (map (fun f => backtick (column_of mappings f) ++ "=?")
                               fields)
             ++ " where " ++ backtick pk ++ "=?")
          ("delete from " ++ backtick table_name ++ " where " ++ backtick pk ++ "=?")
          (fold_left (fun d k => dict_pop k d) (dict_keys mappings)
                     (Namespace.members attrs)).
Proof.
  unfold ModelMetaClass_new. destruct (String.eqb name "Model"); [discriminate|].
  destruct (collect_fields _ _ [] None []) as [[[mappings pk] fields]|e] eqn:Hc;
    [|discriminate].
  apply collect_fields_mappings in Hc as [Hm _]. subst mappings.
  destruct pk as [pk|]; [|discriminate].
  destruct (String.eqb pk EmptyString); [discriminate|].
  destruct (update_columns _ fields) as [cols|e] eqn:Hu; [|discriminate].
  apply update_columns_inv in Hu. subst cols.
  intros H. inversion H; subst. exists pk, fields. reflexivity.
Qed.

Lemma fold_pop_keeps {V : Type} (ks : list string) (k : string) (v : V)
      (d : dict V) :
  existsb (String.eqb k) ks = false ->
  fold_left (fun d k => dict_pop k d) ks ((k, v) :: d)
  = (k, v) :: fold_left (fun d k => dict_pop k d) ks d.
Proof.
  revert d. induction ks as [|k0 ks IH]; intros d H; simpl in *; auto.
  apply orb_false_iff in H as [Hk Hks]. rewrite Hk. now apply IH.
Qed.

Lemma field_attrs_keys (items : dict attr) (k : string) :
  existsb (String.eqb k) (dict_keys items) = false ->
  existsb (String.eqb k) (dict_keys (field_attrs items)) = false.
Proof.
  induction items as [|[k' [f|v]] items IH]; simpl; auto.
  - intros H. apply orb_false_iff in H as [Hk H]. rewrite Hk. simpl. auto.
  - intros H. apply orb_false_iff in H as [Hk H]. auto.
Qed.

Lemma mappings_of_fresh (items : dict attr) (mappings : dict Field.t) :
  distinct (dict_keys items) = true ->
  (forall k, In k (dict_keys items) ->
             existsb (String.eqb k) (dict_keys mappings) = false) ->
  mappings_of items mappings = (mappings ++ field_attrs items)%list.
Proof.
  revert mappings.
  induction items as [|[k [f|v]] items IH]; intros mappings Hd Hfresh; simpl.
  - now rewrite List.app_nil_r.
  - simpl in Hd. apply andb_true_iff in Hd as [Hk Hd].
    apply negb_true_iff in Hk.
    rewrite (JsonFacts.dict_set_fresh k f mappings) by (apply Hfresh; simpl; auto).
    rewrite IH; auto.
    + now rewrite <- List.app_assoc.
    + intros k' Hin.
      assert (Hex : existsb (String.eqb k') (dict_keys mappings) = false).
      { apply Hfresh. simpl; auto. }
      unfold dict_keys in *. rewrite map_app, existsb_app, Hex. simpl.
      destruct (String.eqb_spec k' k) as [->|Hne]; auto.
      exfalso. apply existsb_eqb_In in Hin. simpl in Hk. congruence.
  - simpl in Hd. apply andb_true_iff in Hd as [_ Hd].
    apply IH; auto. intros k' Hin. apply Hfresh. simpl; auto.
Qed.

Lemma fold_pop_fields (items : dict attr) :
  distinct (dict_keys items) = true ->
  fold_left (fun d k => dict_pop k d) (dict_keys (field_attrs items)) items
  = other_attrs items.
Proof.
  induction items as [|[k [f|v]] items IH]; intros Hd; simpl; auto;
    simpl in Hd; apply andb_true_iff in Hd as [Hk Hd]; apply negb_true_iff in Hk.
  - rewrite String.eqb_refl. auto.
  - rewrite fold_pop_keeps by now apply field_attrs_keys.
    now rewrite IH.
Qed.

(** X18.  In a class body, where no name occurs twice, the metaclass takes
    every field off the class and leaves every other attribute on it, in the
    order of the body; [__mappings__] holds exactly the fields, under their
    attribute names. *)
Theorem fields_leave_the_class (name : string) (attrs : Namespace.t) (m : Model.t) :
  ModelMetaClass_new name attrs = Ok (EntityClass m) ->
  distinct (dict_keys (Namespace.members attrs)) = true ->
  Model.attrs m = other_attrs (Namespace.members attrs)
  /\ Model.__mappings__ m = field_attrs (Namespace.members attrs).
Proof.
  intros Hm Hd. apply entity_class_inv in Hm as [pk [fields Hm]].
  simpl in Hm. subst m. simpl.
  rewrite (mappings_of_fresh _ [] Hd) by reflexivity. simpl.
  split; auto. now apply fold_pop_fields.
Qed.

Lemma fields_leave_the_class_witness :
  Model.attrs User = [("is_admin", AOther (PBool false))]
  /\ Model.__mappings__ User
     = [("id", IntField None true (PInt 0));
        ("name", StringField None "varchar(50)" false PNone);
        ("email", StringField (Some "mail") "varchar(50)" false PNone)].
Proof.
  apply (fields_leave_the_class "User" User_attrs User); reflexivity.
Defined.

Lemma count_char_join (c : ascii) (sep : string) (l : list string) :
  count_char c sep = 0%nat ->
  count_char c (join sep l) = list_sum (map (count_char c) l).
Proof.
  intros Hsep. induction l as [|x l IH]; auto.
  destruct l as [|y l].
  - simpl. lia.
  - rewrite join_step, !count_char_append, IH, Hsep. simpl. lia.
Qed.

Lemma count_char_backtick (s : string) :
  count_char "?" (backtick s) = count_char "?" s.
Proof. unfold backtick. rewrite !count_char_append. simpl. lia. Qed.

Lemma list_sum_const {A : Type} (f : A -> nat) (n : nat) (l : list A) :
  Forall (fun x => f x = n) l -> list_sum (map f l) = (n * List.length l)%nat.
Proof.
  induction 1 as [|x l Hx Hl IH]; simpl; [lia|]. rewrite IH, Hx. lia.
Qed.

(** X19.  When the table, the primary key, the field names and the column
    names hold no question mark, each statement of an entity class has as
    many placeholders as the method that runs it passes arguments: none in
    [__select__], one per field and one for the key in [__insert__] and in
    [__update__], as [update_] passes, and one in [__delete__], as
    [delete_] passes. *)
Theorem placeholders_match_arguments (class_attr : string -> option pyval)
        (name : string) (attrs : Namespace.t) (m : Model.t) (self : dict pyval) :
  ModelMetaClass_new name attrs = Ok (EntityClass m) ->
  count_char "?" (Model.__table__ m) = 0%nat ->
  count_char "?" (Model.__primary_key__ m) = 0%nat ->
  Forall (fun f => count_char "?" f = 0%nat
                   /\ count_char "?" (column_of (Model.__mappings__ m) f) = 0%nat)
         (Model.__fields__ m) ->
  count_char "?" (Model.__select__ m) = 0%nat
  /\ count_char "?" (Model.__insert__ m) = S (List.length (Model.__fields__ m))
  /\ count_char "?" (Model.__update__ m)
     = List.length (update_args class_attr m self)
  /\ count_char "?" (Model.__delete__ m)
     = List.length (delete_args class_attr m self).
Proof.
  intros Hm. apply entity_class_inv in Hm as [pk [fields Hm]].
  cbv zeta in Hm. subst m. unfold update_args, delete_args.
  cbn [Model.__table__ Model.__primary_key__ Model.__fields__ Model.__mappings__
       Model.__select__ Model.__insert__ Model.__update__ Model.__delete__].
  intros Htable Hpk Hfields.
  assert (Hescaped : list_sum (map (count_char "?") (map backtick fields)) = 0%nat).
  { rewrite map_map, (list_sum_const _ 0%nat); [lia|].
    eapply Forall_impl; [|exact Hfields].
    intros f [Hf _]. now rewrite count_char_backtick. }
  assert (Hcols :
            list_sum (map (count_char "?")
                          (map (fun f => backtick
                                           (column_of
                                              (mappings_of (Namespace.members attrs) [])
                                              f) ++ "=?") fields))
            = List.length fields).
  { rewrite map_map, (list_sum_const _ 1%nat); [lia|].
    eapply Forall_impl; [|exact Hfields].
    intros f [_ Hf]. rewrite count_char_append, count_char_backtick, Hf.
    reflexivity. }
  destruct (create_args_str_placeholders (List.length (map backtick fields) + 1))
    as [Hargs _].
  rewrite !count_char_append, !count_char_backtick.
  rewrite !count_char_join by reflexivity.
  rewrite Hescaped, Hcols, Hargs, Htable, Hpk.
  rewrite List.length_app, !List.length_map. simpl. repeat split; lia.
Qed.

Lemma placeholders_match_arguments_witness :
  count_char "?" (Model.__select__ User) = 0%nat
  /\ count_char "?" (Model.__insert__ User) = 3%nat
  /\ count_char "?" (Model.__update__ User)
     = List.length (update_args no_class_attr User ann)
  /\ count_char "?" (Model.__delete__ User)
     = List.length (delete_args no_class_attr User ann).
Proof.
  apply (placeholders_match_arguments no_class_attr "User" User_attrs User ann);
    try reflexivity.
  repeat constructor.
Defined.

(** ** The methods *)

Lemma select_rows (conn : connection) (sql : string) (args : option (list pyval))
      (size : Z) (n : Z) (rows : list (dict pyval)) :
  0 < size ->
  cursor_execute conn (replace_placeholders sql) (Some (or_empty args)) = Ok n ->
  fetch conn (Some size) = Ok rows ->
  select (Some conn) sql args (Some size)
  = ([LogSQL sql; Acquire; CursorOpen;
      CursorExecute (replace_placeholders sql) (Some (or_empty args));
      CursorFetch (Some size); CursorClose; LogRows (List.length rows); Release],
     Ok rows).
Proof.
  intros Hsize Hexec Hfetch.
  unfold select, finally, bind, emit, lift, ret. simpl. rewrite Hexec. simpl.
  destruct size as [|p|p]; try lia. rewrite Hfetch. reflexivity.
Qed.

Lemma warnings_db (t : list db_event) : warnings (map Db t) = [].
Proof. induction t; simpl; auto. Qed.

Lemma warnings_app (t t' : list orm_event) :
  warnings (t ++ t')%list = (warnings t ++ warnings t')%list.
Proof.
  induction t as [|[e|text] t IH]; simpl; auto. now rewrite IH.
Qed.

(** X20.  [update_] and [delete_] do not raise when the statement affected
    no row, or more than one: they return, and log one warning with the
    count; with exactly one row affected nothing is logged.  An exception of
    the driver comes out as it is, without a warning. *)
Theorem unaffected_rows_only_warn (class_attr : string -> option pyval)
        (conn : connection) (cls : Model.t) (self : dict pyval) :
  (forall n,
     cursor_execute conn (replace_placeholders (Model.__update__ cls))
                    (Some (update_args class_attr cls self)) = Ok n ->
     outcome (update_ class_attr (Some conn) cls self) = Ok tt
     /\ warnings (trace (update_ class_attr (Some conn) cls self))
        = if n =? 1 then []
          else ["failed to update by primary key: affected rows: "
                  ++ str_of_int n])
  /\ (forall n,
        cursor_execute conn (replace_placeholders (Model.__delete__ cls))
                       (Some (delete_args class_attr cls self)) = Ok n ->
        outcome (delete_ class_attr (Some conn) cls self) = Ok tt
        /\ warnings (trace (delete_ class_attr (Some conn) cls self))
           = if n =? 1 then []
             else ["failed to delete by primary key: affected rows: "
                     ++ str_of_int n])
  /\ (forall e,
        cursor_execute conn (replace_placeholders (Model.__update__ cls))
                       (Some (update_args class_attr cls self)) = Raise e ->
        outcome (update_ class_attr (Some conn) cls self) = Raise e
        /\ warnings (trace (update_ class_attr (Some conn) cls self)) = [])
  /\ (forall e,
        cursor_execute conn (replace_placeholders (Model.__delete__ cls))
                       (Some (delete_args class_attr cls self)) = Raise e ->
        outcome (delete_ class_attr (Some conn) cls self) = Raise e
        /\ warnings (trace (delete_ class_attr (Some conn) cls self)) = []).
Proof.
  unfold update_, delete_.
  split; [|split; [|split]]; intros x Hx;
    rewrite MFacts.outcome_bind, MFacts.trace_bind;
    unfold db; unfold outcome at 1 2 3; unfold trace at 2; cbn [fst snd];
    change (snd ?m) with (outcome m); rewrite execute_autocommit_outcome, Hx;
    rewrite ?List.app_nil_r; try (split; [reflexivity | apply warnings_db]).
  - destruct (x =? 1); simpl; split; auto.
    + rewrite List.app_nil_r. apply warnings_db.
    + rewrite warnings_app, warnings_db. reflexivity.
  - destruct (x =? 1); simpl; split; auto.
    + rewrite List.app_nil_r. apply warnings_db.
    + rewrite warnings_app, warnings_db. reflexivity.
Qed.

Lemma unaffected_rows_only_warn_witness :
  outcome (delete_ no_class_attr (Some empty_connection) User ann) = Ok tt
  /\ warnings (trace (delete_ no_class_attr (Some empty_connection) User ann))
     = ["failed to delete by primary key: affected rows: 0"].
Proof.
  destruct (unaffected_rows_only_warn no_class_attr empty_connection User ann)
    as [_ [Hdelete _]].
  apply (Hdelete 0). reflexivity.
Defined.

(** X21.  [find] and [find_number] ask the driver for one row at most.  On
    an empty result both return [None] instead of raising; otherwise [find]
    returns the first row as an instance, and [find_number] the item
    [_num_] of the first row. *)
Theorem lookups_take_the_first_row (conn : connection) (cls : Model.t)
        (primary_key : pyval) (selected_field : string) (where_ : option string)
        (args : option (list pyval)) (rows : list (dict pyval)) :
  fetch conn (Some 1) = Ok rows ->
  (forall n,
     cursor_execute conn
       (replace_placeholders
          (Model.__select__ cls ++ " where `" ++ Model.__primary_key__ cls ++ "`=?"))
       (Some [primary_key]) = Ok n ->
     outcome (find (Some conn) cls primary_key) = Ok (hd_error rows)
     /\ In (CursorFetch (Some 1)) (trace (find (Some conn) cls primary_key)))
  /\ (forall n,
        cursor_execute conn
          (replace_placeholders (find_number_sql cls selected_field where_))
          (Some (or_empty args)) = Ok n ->
        outcome (find_number (Some conn) cls selected_field where_ args)
        = match rows with
          | [] => Ok PNone
          | r :: _ =>
              match dict_get "_num_" r with
              | Some v => Ok v
              | None => Raise (OtherError "KeyError")
              end
          end
        /\ In (CursorFetch (Some 1))
              (trace (find_number (Some conn) cls selected_field where_ args))).
Proof.
  intros Hfetch. split; intros n Hexec.
  - unfold find.
    rewrite (select_rows conn _ (Some [primary_key]) 1 n rows) by (auto; lia).
    unfold bind, ret, outcome, trace. destruct rows as [|r rows]; simpl; auto 10.
  - unfold find_number.
    rewrite (select_rows conn _ args 1 n rows) by (auto; lia).
    unfold bind, ret, raise, outcome, trace.
    destruct rows as [|r rows]; simpl; auto 10.
    destruct (dict_get "_num_" r); simpl; auto 10.
Qed.

Lemma lookups_take_the_first_row_witness :
  outcome (find (Some empty_connection) User (PInt 7)) = Ok None
  /\ outcome (find (Some sample_connection) User (PInt 1)) = Ok (Some ann).
Proof.
  split.
  - destruct (lookups_take_the_first_row empty_connection User (PInt 7)
                "count(id)" None None [] eq_refl) as [Hfind _].
    apply (Hfind 0). reflexivity.
  - destruct (lookups_take_the_first_row sample_connection User (PInt 1)
                "count(id)" None None [ann] eq_refl) as [Hfind _].
    apply (Hfind 1). reflexivity.
Defined.

Lemma list_sum_map_app (f : string -> nat) (l l' : list string) :
  list_sum (map f (l ++ l')%list) = (list_sum (map f l) + list_sum (map f l'))%nat.
Proof. now rewrite map_app, list_sum_app. Qed.

(** X22.  [find_all] takes as limit an integer (a boolean is one) or a tuple
    of two values.  Any other limit that is not [None], a list of two
    numbers among them, raises before anything is logged or sent to the
    database: [ValueError] with the [str] of the limit, or what [str]
    raises.  A limit that is taken adds to the statement as many
    placeholders as it adds arguments. *)
Theorem find_all_limit (py_repr : pyval -> result string)
        (__pool : option connection)
        (cls : Model.t) (where_ : option string) (args : option (list pyval))
        (order_by : option string) (limit : pyval) :
  (valid_limit limit = false -> limit <> PNone ->
   find_all py_repr __pool cls where_ args order_by limit
   = ([], match py_str py_repr limit with
          | Ok text => Raise (ValueError ("Invalid limit value: " ++ text))
          | Raise e => Raise e
          end))
  /\ (valid_limit limit = true ->
      exists sql0 sql args0,
        find_all py_repr __pool cls where_ args order_by PNone
        = select __pool sql0 (Some args0) None
        /\ find_all py_repr __pool cls where_ args order_by limit
           = select __pool sql (Some (args0 ++ limit_values limit)%list) None
        /\ count_char "?" sql
           = (count_char "?" sql0 + List.length (limit_values limit))%nat).
Proof.
  assert (Hraise : forall v,
             (text <- lift (py_str py_repr v) ;;
              raise (ValueError ("Invalid limit value: " ++ text)))
             = (([] : list db_event),
                match py_str py_repr v with
                | Ok text => Raise (ValueError ("Invalid limit value: " ++ text))
                | Raise e => Raise e
                end : result (list (dict pyval)))).
  { intros v. unfold bind, lift, raise. now destruct (py_str py_repr v). }
  split.
  - intros Hvalid Hnone. unfold find_all.
    destruct limit as [|b|z|r|s|b|l|l|d|o]; try discriminate; try apply Hraise.
    + congruence.
    + destruct l as [|a [|b [|c l]]]; try discriminate; apply Hraise.
  - intros Hvalid. unfold find_all.
    set (sql1 := if truthy where_ then _ else _).
    set (sql2 := if truthy order_by then _ else _).
    set (args0 := match args with Some a => a | None => [] end).
    exists (join " " sql2).
    assert (Hone : count_char "?" (join " " ((sql2 ++ ["limit"]) ++ ["?"]))
                   = (count_char "?" (join " " sql2) + 1)%nat).
    { rewrite !count_char_join by reflexivity.
      rewrite !list_sum_map_app. simpl. lia. }
    assert (Htwo : count_char "?" (join " " ((sql2 ++ ["limit"]) ++ ["?, ?"]))
                   = (count_char "?" (join " " sql2) + 2)%nat).
    { rewrite !count_char_join by reflexivity.
      rewrite !list_sum_map_app. simpl. lia. }
    destruct limit as [|b|z|r|s|b|l|l|d|o]; try discriminate.
    + exists (join " " ((sql2 ++ ["limit"]) ++ ["?"])), args0. auto.
    + exists (join " " ((sql2 ++ ["limit"]) ++ ["?"])), args0. auto.
    + destruct l as [|a [|b [|c l]]]; try discriminate.
      exists (join " " ((sql2 ++ ["limit"]) ++ ["?, ?"])), args0. auto.
Qed.

Lemma find_all_limit_witness :
  find_all sample_repr (Some sample_connection) User None None None
           (PList [PInt 0; PInt 10])
  = ([], Raise (ValueError "Invalid limit value: [0, 10]")).
Proof.
  destruct (find_all_limit sample_repr (Some sample_connection) User None None
              None (PList [PInt 0; PInt 10])) as [Hinvalid _].
  rewrite Hinvalid; [reflexivity | reflexivity | discriminate].
Defined.

(* ================================================================== *)
(** * The inspection recorded at registration *)
(* ================================================================== *)

Lemma has_named_kwargs_loop_nonempty (params : list Param.t) :
  has_named_kwargs_loop params = nonempty (get_named_kwargs_loop params).
Proof.
  induction params as [|p params IH]; simpl; auto.
  now destruct (kind_eqb (Param.kind p) KEYWORD_ONLY).
Qed.

(** X23.  The results recorded for a handler at registration agree with one
    another: it has named parameters exactly when its list of named
    parameters is not empty, and a handler with a required name has named
    parameters; so whether the body or the query is read is decided by the
    first two tests of [__call__] alone, never by the list of required
    names. *)
Theorem recorded_inspection_agrees (app : Application) (f : func)
        (rh : RequestHandler) :
  RequestHandler_init app f = Ok rh ->
  _has_named_kwargs rh = nonempty (_named_kwargs rh)
  /\ (nonempty (_required_kwargs rh) = true -> _has_named_kwargs rh = true)
  /\ needs_arguments rh = (_has_var_kwarg rh || _has_named_kwargs rh)%bool.
Proof.
  unfold RequestHandler_init. destruct (has_request_arg f) as [b|e]; [|discriminate].
  intros H. inversion H; subst rh; clear H. unfold needs_arguments. simpl.
  unfold has_named_kwargs, get_named_kwargs, get_required_kwargs.
  assert (Hreq : nonempty (get_required_kwargs_loop (parameters f)) = true ->
                 has_named_kwargs_loop (parameters f) = true).
  { rewrite has_named_kwargs_loop_nonempty.
    destruct (get_required_kwargs_loop (parameters f)) as [|name names] eqn:Hr;
      [discriminate|].
    intros _.
    assert (Hin : In name (get_named_kwargs_loop (parameters f))).
    { apply required_in_named. rewrite Hr. now left. }
    now destruct (get_named_kwargs_loop (parameters f)). }
  split; [apply has_named_kwargs_loop_nonempty|]. split; [exact Hreq|].
  destruct (has_var_kwarg f); simpl; auto.
  destruct (has_named_kwargs_loop (parameters f)) eqn:Hn; simpl; auto.
  destruct (nonempty (get_required_kwargs_loop (parameters f))); auto.
  specialize (Hreq eq_refl). discriminate.
Qed.

Lemma recorded_inspection_agrees_witness :
  _has_named_kwargs create_comment_handler
  = nonempty (_named_kwargs create_comment_handler)
  /\ (nonempty (_required_kwargs create_comment_handler) = true ->
      _has_named_kwargs create_comment_handler = true)
  /\ needs_arguments create_comment_handler
     = (_has_var_kwarg create_comment_handler
        || _has_named_kwargs create_comment_handler)%bool.
Proof.
  apply (recorded_inspection_agrees sample_app create_comment
           create_comment_handler).
  reflexivity.
Defined.
